(** * OpenLens: the tool-calling orchestration core, embedded in Rocq

    A shallow embedding of the control logic of the OpenLens browser
    extension: the permission store ([src/lib/permissions.ts]), the
    sensitivity classifier ([src/lib/sensitivity.ts]), the session ledger
    ([src/modules/event-bus.ts]), the MCP server store
    ([src/lib/custom-tools.ts]) and the background service worker
    ([src/entrypoints/background.ts]: [llmChat], [ensurePermission],
    [executeStep], [detectCrossOrigin], [executeToolCall],
    [runToolCallLoop], the tab listeners and the [TOGGLE_MCP_SERVER]
    handler).

    The service worker keeps its state in module-level variables and in
    [chrome.storage.local]; here that state is the record [World], threaded
    through a state-and-exception monad [M].  Whatever the worker awaits
    from outside (the content script of a tab, the consent dialog, the
    browser's tab registry, an LLM backend, an MCP server, the clock) is
    answered by an environment [Env] of oracles; every such interaction is
    appended to [trace], so that what was sent, and in which order, can be
    stated.  What the worker broadcasts to the open tabs without waiting
    for it (the snapshots of [syncState] and [broadcastToolUpdate]) is
    appended to [pushes].  A JavaScript exception is the result [Throw];
    the world a computation had reached when it threw is kept, as in
    JavaScript. *)

From Stdlib Require Import String Ascii List ZArith Lia Bool Arith.
From Stdlib Require Import DecimalString.
Import ListNotations.

Set Warnings "-register-all".

Local Open Scope string_scope.
Local Open Scope Z_scope.
Local Open Scope list_scope.

(** ** Strings, as JavaScript uses them

    A string is held as its UTF-8 bytes, one [ascii] each (see [emdash]).
    JavaScript counts a string in UTF-16 code units: [js_length] counts
    those, and [sliceTo] cuts after a number of them.  Where the worker
    searches a text and cuts it at what it found ([indexOf], [slice] in the
    fallback parser), the positions are those of ASCII characters, and the
    pieces are JavaScript's. *)

Infix "+++" := String.append (at level 60, right associativity).

Definition dquote : string := String "034"%char EmptyString.
Definition newline : string := String "010"%char EmptyString.

(** [hay.includes(needle)] *)
Definition includes (needle hay : string) : bool :=
  match String.index 0 needle hay with
  | Some _ => true
  | None => false
  end.

(** [s.indexOf(needle)], with [None] for [-1] *)
Definition indexOf (needle s : string) : option nat := String.index 0 needle s.

(** [s.startsWith(p)] *)
Definition startsWith (p s : string) : bool := String.prefix p s.

(** [s.slice(a, b)] for two positions found in [s] *)
Definition slice (a b : nat) (s : string) : string := String.substring a (b - a) s.

(** The UTF-16 code units a character contributes, told by a byte of its
    UTF-8 form: one for an ASCII character and for the first byte of a
    two- or three-byte character, two for the first byte of a four-byte
    character (a surrogate pair in JavaScript), none for a continuation
    byte. *)
Definition units (c : ascii) : nat :=
  let n := nat_of_ascii c in
  if (n <? 128)%nat then 1%nat
  else if (n <? 192)%nat then 0%nat
  else if (n <? 240)%nat then 1%nat
  else 2%nat.

(** [s.length] *)
Fixpoint js_length (s : string) : nat :=
  match s with
  | EmptyString => 0%nat
  | String c s' => (units c + js_length s')%nat
  end.

(** [s.slice(0, n)]: the characters that fit into the first [n] code
    units.  A character of two code units that lies across the cut is left
    out; JavaScript keeps its first half there, a lone surrogate, which
    UTF-8 cannot hold. *)
Fixpoint sliceTo (n : nat) (s : string) : string :=
  match s with
  | EmptyString => EmptyString
  | String c s' =>
    if (units c <=? n)%nat then String c (sliceTo (n - units c) s') else EmptyString
  end.

(** [`${n}`] for an integer *)
Definition string_of_Z (n : Z) : string := NilZero.string_of_int (Z.to_int n).

(** [Math.ceil(n / 4)] for a length [n] *)
Definition ceil_quarter (n : nat) : Z := (Z.of_nat n + 3) / 4.

(** ** Untyped values ([any]) *)

Inductive json : Type :=
| JUndefined
| JNull
| JBool (b : bool)
| JNum (n : Z)
| JStr (s : string)
| JArr (items : list json)
| JObj (fields : list (string * json)).

(** JavaScript truthiness *)
Definition truthy (v : json) : bool :=
  match v with
  | JUndefined | JNull => false
  | JBool b => b
  | JNum n => negb (n =? 0)
  | JStr s => negb (s =? "")%string
  | JArr _ | JObj _ => true
  end.

Fixpoint lookup (k : string) (fields : list (string * json)) : json :=
  match fields with
  | [] => JUndefined
  | (k', v) :: rest => if (k =? k')%string then v else lookup k rest
  end.

(** [v?.k]: the property of an object, [undefined] on anything else *)
Definition field (k : string) (v : json) : json :=
  match v with
  | JObj fields => lookup k fields
  | _ => JUndefined
  end.

(** [a || b] *)
Definition jor (a b : json) : json := if truthy a then a else b.

(** [typeof v === 'object'] *)
Definition is_object (v : json) : bool :=
  match v with
  | JNull | JArr _ | JObj _ => true
  | _ => false
  end.

(** ** The data model ([src/modules/types.ts]) *)

Inductive PermissionScope := page | site | session.
(** The three permission types of [types.ts], and [no_type] for
    [undefined]: what [executeToolCall] reads as the [requiredPermission]
    of a member of [PAGE_TOOLS] that is not a tool (see [PAGE_TOOLS]), and
    hands to [ensurePermission].  A grant stored with it comes back from
    storage without a [type], which is [undefined] again. *)
Inductive PermissionType := page_read | data_send | page_action | no_type.
Inductive Sensitivity := low | medium | high.
Inductive ProviderType := ollama | openai | anthropic | openrouter.
Inductive Location := local | cloud | mixed | idle.

Definition PermissionType_eqb (a b : PermissionType) : bool :=
  match a, b with
  | page_read, page_read | data_send, data_send | page_action, page_action
  | no_type, no_type => true
  | _, _ => false
  end.

Definition PermissionScope_name (s : PermissionScope) : string :=
  match s with page => "page" | site => "site" | session => "session" end.

(** A permission type as a value of an object. *)
Definition PermissionType_json (t : PermissionType) : json :=
  match t with
  | page_read => JStr "page_read"
  | data_send => JStr "data_send"
  | page_action => JStr "page_action"
  | no_type => JUndefined
  end.

Definition ProviderType_name (p : ProviderType) : string :=
  match p with
  | ollama => "ollama"
  | openai => "openai"
  | anthropic => "anthropic"
  | openrouter => "openrouter"
  end.

Definition Sensitivity_name (s : Sensitivity) : string :=
  match s with low => "low" | medium => "medium" | high => "high" end.

Record Permission := {
  perm_type : PermissionType;
  perm_scope : PermissionScope;
  perm_origin : string;
  perm_tabId : Z;
  perm_grantedAt : Z;
  perm_expiresAt : option Z   (* [null] is [None] *)
}.

Module EventType.
Inductive t :=
| page_load | mcp_discovered | permission_granted | permission_denied
| tool_call | llm_prompt | context_updated | navigation | task_started
| task_step | task_completed | permission_requested | page_read
| page_action | tool_call_start | tool_call_result.
End EventType.

Record DataEntry := {
  de_origin : string;
  de_originType : string;
  de_dataType : string;
  de_tokenCount : Z;
  de_sensitivity : Sensitivity;
  de_entryMethod : string;
  de_timestamp : Z
}.

Record AuditEvent := {
  ae_type : EventType.t;
  ae_origin : string;
  ae_detail : json;
  ae_userAction : option string;
  ae_tokensInvolved : option Z;
  ae_processingLocation : Location;
  ae_timestamp : Z
}.

Record McpTool := {
  mcp_name : string;
  mcp_description : string;
  mcp_serverName : string;
  mcp_properties : json;
  mcp_required : list string
}.

Record McpServer := {
  srv_id : string;
  srv_name : string;
  srv_url : string;
  srv_enabled : bool;
  srv_tools : list McpTool
}.

Record ToolCallEvent := {
  tce_toolName : json;
  tce_args : json;
  tce_result : string;
  tce_iteration : Z;
  tce_timestamp : Z
}.

(** ** State of the service worker *)

(** [requiredPermission] is declared a [string]; plan creation stores the
    permission type of the step's tool there ([page_read] for want of one),
    and [executeStep] casts it to [PermissionType]. *)
Record TaskStep := {
  step_id : Z;
  step_title : string;
  step_description : string;
  step_tool : string;
  step_toolParams : json;
  step_requiredPermission : PermissionType;
  step_status : string;
  step_result : json;
  step_llmOutput : option string;
  step_isWriteAction : bool;
  step_tokens : Z;
  step_origin : option string;
  step_sensitivity : option Sensitivity
}.

Record PageContext := {
  pc_title : string;
  pc_url : string;
  pc_pageType : string;
  pc_tokenEstimate : Z
}.

Record TaskPlan := {
  plan_intent : string;
  plan_steps : list TaskStep;
  plan_status : string;
  plan_pageContext : option PageContext
}.

Record LLMConfig := {
  provider : ProviderType;
  model : string
}.

Record SessionState := {
  totalTokens : Z;
  contextUsed : Z;
  contextLimit : Z;
  processingLocation : Location;
  dataEntries : list DataEntry;
  auditEvents : list AuditEvent
}.

Record ToolCallState := {
  running : bool;
  calls : list ToolCallEvent;
  finalAnswer : string;
  error : option string
}.

(** ** Messages to the outside *)

Record Message := {
  role : string;
  content : string
}.

(** One entry of the [tools] array of an Ollama request
    ([OllamaToolSchema] of [src/agent/tool-schemas.ts]). *)
Record OllamaToolSchema := {
  fn_name : string;
  fn_description : string;
  fn_properties : json;
  fn_required : list string
}.

(** Messages the worker sends to the content script of a tab. *)
Inductive TabMsg :=
| READ_PAGE (maxTokens : json)
| FIND_ON_PAGE (query : json)
| CLICK_ELEMENT (selector : json)
| FILL_FORM (fields : json)
| SHOW_PERMISSION_DIALOG (permType : PermissionType) (reason sensitivity : string).

(** The body of a chat-completion request, per backend family. *)
Inductive ChatRequest :=
| OllamaChat (mdl : string) (messages : list Message)
    (tools : option (list OllamaToolSchema))
| OpenAIChat (mdl : string) (messages : list Message) (max_tokens : Z)
| AnthropicChat (mdl : string) (max_tokens : Z) (system : string)
    (messages : list Message)
| OpenRouterChat (mdl : string) (messages : list Message) (max_tokens : Z).

(** A tool call as a backend states it: [{function: {name, arguments}}],
    either part [undefined] when it is missing. *)
Record ToolCall := {
  tc_name : json;
  tc_arguments : json
}.

(** What the worker reads of a chat reply: the message text (Ollama's
    [message.content], OpenAI's [choices[0].message.content], Anthropic's
    [content[0].text]) and Ollama's [message.tool_calls], each possibly
    missing. *)
Record ChatReply := {
  reply_content : option string;
  reply_tool_calls : option (list ToolCall)
}.

Inductive Res (A : Type) : Type :=
| Ok (a : A)
| Throw (err : string).
Arguments Ok {A} a.
Arguments Throw {A} err.

(** An HTTP response: its status, and what [res.json()] yields (it rejects
    when the body is not JSON). *)
Record HttpResponse := {
  status : Z;
  body : Res ChatReply
}.

(** [res.ok] *)
Definition res_ok (r : HttpResponse) : bool := (200 <=? status r) && (status r <=? 299).

(** What the worker exchanges with the outside and waits for, in the order
    it happens.  Of the console output three lines are recorded: the one that opens a
    gateway call, the one that announces an MCP call and the one that opens
    an iteration of the tool loop.  The other diagnostic lines are left
    out. *)
Inductive Effect :=
| SendToTab (tabId : Z) (msg : TabMsg)
| TabsGet (tabId : Z)
| TabsCreate (url : json)
| Fetch (req : ChatRequest)
| McpCall (serverUrl toolName : string) (args : json)
| ConsoleLog (line : string).

(** What the worker pushes to every open tab.  [syncState()] writes the
    session state to [chrome.storage.local] and asks the browser for all
    tabs; [broadcastToolUpdate()] builds its message from the tool-call
    state (of which [running], the number of calls, [finalAnswer] and
    [error] are copied at that moment) and asks for all tabs too.  In both
    the message goes to each tab from the callback of [chrome.tabs.query],
    that is at some later time, without an answer being read and with
    failures swallowed.  [STATE_UPDATE] takes the session state as it is
    when the message goes out, not as it was when [syncState()] was called,
    so no copy of it is kept here. *)
Inductive Push :=
| STATE_UPDATE
| TOOL_CALL_UPDATE (running : bool) (callCount : nat) (finalAnswer : string)
    (error : option string).

(** [trace] holds the exchanges the worker waits for, in their order;
    [pushes] the broadcasts it has started, in theirs. *)
Record World := {
  llmConfig : LLMConfig;
  permissions : list Permission;   (* chrome.storage.local, key 'permissions' *)
  mcpServers : list McpServer;     (* chrome.storage.local, key 'mcpServers' *)
  sessionState : SessionState;
  toolCallState : ToolCallState;
  currentPlan : option TaskPlan;
  clockReads : nat;                (* how often Date.now() was read *)
  trace : list Effect;
  pushes : list Push
}.

(** The outside world.  An oracle is asked with the number of effects that
    happened before (so its answers may change over time) and the request. *)
Record Env := {
  clock : nat -> Z;
  tabReply : nat -> Z -> TabMsg -> Res json;
  dialogReply : nat -> Z -> PermissionType -> string -> string ->
                Res (option (bool * PermissionScope));
  tabUrl : nat -> Z -> option (option string);
  tabsCreate : nat -> json -> Res unit;
  httpReply : nat -> ChatRequest -> Res HttpResponse;
  mcpReply : nat -> string -> string -> json -> Res json
}.

(** ** The monad *)

Definition M (A : Type) : Type := World -> Res A * World.

Definition ret {A} (a : A) : M A := fun w => (Ok a, w).

Definition throw {A} (err : string) : M A := fun w => (Throw err, w).

Definition bind {A B} (m : M A) (k : A -> M B) : M B :=
  fun w =>
    match m w with
    | (Ok a, w') => k a w'
    | (Throw e, w') => (Throw e, w')
    end.

(** [try { m } catch (err) { h err }] *)
Definition tryCatch {A} (m : M A) (h : string -> M A) : M A :=
  fun w =>
    match m w with
    | (Ok a, w') => (Ok a, w')
    | (Throw e, w') => h e w'
    end.

Definition liftRes {A} (r : Res A) : M A := fun w => (r, w).

Definition gets {A} (f : World -> A) : M A := fun w => (Ok (f w), w).

Definition modify (f : World -> World) : M unit := fun w => (Ok tt, f w).

Notation "x <- m ;; k" := (bind m (fun x => k))
  (at level 61, m at next level, right associativity).
Notation "m ;; k" := (bind m (fun _ => k))
  (at level 61, right associativity).

(** Field updates of [World]. *)
Definition set_permissions (ps : list Permission) (w : World) : World :=
  {| llmConfig := llmConfig w; permissions := ps; mcpServers := mcpServers w;
     sessionState := sessionState w; toolCallState := toolCallState w;
     currentPlan := currentPlan w; clockReads := clockReads w; trace := trace w;
     pushes := pushes w |}.

Definition set_sessionState (s : SessionState) (w : World) : World :=
  {| llmConfig := llmConfig w; permissions := permissions w; mcpServers := mcpServers w;
     sessionState := s; toolCallState := toolCallState w;
     currentPlan := currentPlan w; clockReads := clockReads w; trace := trace w;
     pushes := pushes w |}.

Definition set_toolCallState (s : ToolCallState) (w : World) : World :=
  {| llmConfig := llmConfig w; permissions := permissions w; mcpServers := mcpServers w;
     sessionState := sessionState w; toolCallState := s;
     currentPlan := currentPlan w; clockReads := clockReads w; trace := trace w;
     pushes := pushes w |}.

Definition set_currentPlan (p : option TaskPlan) (w : World) : World :=
  {| llmConfig := llmConfig w; permissions := permissions w; mcpServers := mcpServers w;
     sessionState := sessionState w; toolCallState := toolCallState w;
     currentPlan := p; clockReads := clockReads w; trace := trace w;
     pushes := pushes w |}.

Definition tick (w : World) : World :=
  {| llmConfig := llmConfig w; permissions := permissions w; mcpServers := mcpServers w;
     sessionState := sessionState w; toolCallState := toolCallState w;
     currentPlan := currentPlan w; clockReads := S (clockReads w); trace := trace w;
     pushes := pushes w |}.

Definition emit (e : Effect) (w : World) : World :=
  {| llmConfig := llmConfig w; permissions := permissions w; mcpServers := mcpServers w;
     sessionState := sessionState w; toolCallState := toolCallState w;
     currentPlan := currentPlan w; clockReads := clockReads w; trace := trace w ++ [e];
     pushes := pushes w |}.

Definition push (p : Push) (w : World) : World :=
  {| llmConfig := llmConfig w; permissions := permissions w; mcpServers := mcpServers w;
     sessionState := sessionState w; toolCallState := toolCallState w;
     currentPlan := currentPlan w; clockReads := clockReads w; trace := trace w;
     pushes := pushes w ++ [p] |}.

Section Worker.

(** The runtime's [JSON.stringify] ([None] is [undefined], which it yields
    for [undefined]), [JSON.parse] ([None] when it throws), [String(v)] and
    [new URL(u).hostname] ([None] when the URL constructor throws). *)
Variable JSON_stringify : json -> option string.
Variable JSON_parse : string -> option json.
Variable js_String : json -> string.
Variable url_hostname : string -> option string.

Variable env : Env.

(** [Date.now()] *)
Definition dateNow : M Z :=
  fun w => (Ok (clock env (clockReads w)), tick w).

(** *** The permission store ([src/lib/permissions.ts]) *)

Definition loadPermissions : M (list Permission) := gets permissions.

Definition savePermissions (ps : list Permission) : M unit := modify (set_permissions ps).

(** [p.expiresAt && p.expiresAt < now] *)
Definition expired (now : Z) (p : Permission) : bool :=
  match perm_expiresAt p with
  | Some e => negb (e =? 0) && (e <? now)
  | None => false
  end.

(** The predicate [checkPermission] hands to [find]. *)
Definition covers (type : PermissionType) (origin : string) (tabId : Z) (now : Z)
    (p : Permission) : bool :=
  if negb (PermissionType_eqb (perm_type p) type) then false
  else if expired now p then false
  else
    match perm_scope p with
    | page => (perm_tabId p =? tabId) && (perm_origin p =? origin)%string
    | site => (perm_origin p =? origin)%string
    | session => true
    end.

Definition checkPermission (type : PermissionType) (origin : string) (tabId : Z)
    : M (option Permission) :=
  permissions <- loadPermissions ;;
  now <- dateNow ;;
  ret (find (covers type origin tabId now) permissions).

(** [p.type === type && p.origin === origin && p.tabId === tabId] *)
Definition same_triple (type : PermissionType) (origin : string) (tabId : Z)
    (p : Permission) : bool :=
  PermissionType_eqb (perm_type p) type
  && (perm_origin p =? origin)%string
  && (perm_tabId p =? tabId).

Definition grantPermission (type : PermissionType) (scope : PermissionScope)
    (origin : string) (tabId : Z) : M Permission :=
  permissions <- loadPermissions ;;
  now <- dateNow ;;
  let permission :=
    {| perm_type := type;
       perm_scope := scope;
       perm_origin := origin;
       perm_tabId := tabId;
       perm_grantedAt := now;
       perm_expiresAt :=
         match scope with
         | page => None
         | _ => Some (now + 30 * 60 * 1000)
         end |} in
  let filtered := filter (fun p => negb (same_triple type origin tabId p)) permissions in
  savePermissions (filtered ++ [permission]) ;;
  ret permission.

Definition revokePermission (type : PermissionType) (origin : string) (tabId : Z)
    : M unit :=
  permissions <- loadPermissions ;;
  savePermissions (filter (fun p => negb (same_triple type origin tabId p)) permissions).

Definition getActivePermissions (tabId : option Z) : M (list Permission) :=
  permissions <- loadPermissions ;;
  now <- dateNow ;;
  ret (filter (fun p =>
         if expired now p then false
         else match tabId with
              | Some t => perm_tabId p =? t
              | None => true
              end) permissions).

(** *** The session ledger of the worker ([addDataEntry], [addAuditEvent])

    Both read the clock twice (for the random-suffixed [id], which is not
    kept here, and for [timestamp]) and end with [syncState()]. *)

Definition syncState : M unit := modify (push STATE_UPDATE).

Definition addDataEntry (origin originType dataType : string) (tokenCount : Z)
    (sensitivity : Sensitivity) (entryMethod : string) : M unit :=
  _ <- dateNow ;;
  timestamp <- dateNow ;;
  let full :=
    {| de_origin := origin; de_originType := originType; de_dataType := dataType;
       de_tokenCount := tokenCount; de_sensitivity := sensitivity;
       de_entryMethod := entryMethod; de_timestamp := timestamp |} in
  modify (fun w =>
    let s := sessionState w in
    set_sessionState
      {| totalTokens := totalTokens s + tokenCount;
         contextUsed := contextUsed s + tokenCount;
         contextLimit := contextLimit s;
         processingLocation := processingLocation s;
         dataEntries := dataEntries s ++ [full];
         auditEvents := auditEvents s |} w) ;;
  syncState.

Definition addAuditEvent (type : EventType.t) (origin : string) (detail : json)
    (userAction : option string) (tokensInvolved : option Z)
    (location : Location) : M unit :=
  _ <- dateNow ;;
  timestamp <- dateNow ;;
  let full :=
    {| ae_type := type; ae_origin := origin; ae_detail := detail;
       ae_userAction := userAction; ae_tokensInvolved := tokensInvolved;
       ae_processingLocation := location; ae_timestamp := timestamp |} in
  modify (fun w =>
    let s := sessionState w in
    set_sessionState
      {| totalTokens := totalTokens s;
         contextUsed := contextUsed s;
         contextLimit := contextLimit s;
         processingLocation := processingLocation s;
         dataEntries := dataEntries s;
         auditEvents := auditEvents s ++ [full] |} w) ;;
  syncState.

Definition setProcessingLocation (loc : Location) : M unit :=
  modify (fun w =>
    let s := sessionState w in
    set_sessionState
      {| totalTokens := totalTokens s;
         contextUsed := contextUsed s;
         contextLimit := contextLimit s;
         processingLocation := loc;
         dataEntries := dataEntries s;
         auditEvents := auditEvents s |} w).

Definition addContextUsed (n : Z) : M unit :=
  modify (fun w =>
    let s := sessionState w in
    set_sessionState
      {| totalTokens := totalTokens s;
         contextUsed := contextUsed s + n;
         contextLimit := contextLimit s;
         processingLocation := processingLocation s;
         dataEntries := dataEntries s;
         auditEvents := auditEvents s |} w).

(** *** Talking to the outside *)

(** [sendToTab(tabId, msg)] for a tool command. *)
Definition sendToTab (tabId : Z) (msg : TabMsg) : M json :=
  fun w => (tabReply env (length (trace w)) tabId msg, emit (SendToTab tabId msg) w).

(** [sendToTab(tabId, {type: 'SHOW_PERMISSION_DIALOG', ...})]: the consent
    dialog of [content.ts] resolves to [{granted, scope}]; [None] is a
    reply without them. *)
Definition showPermissionDialog (tabId : Z) (permType : PermissionType)
    (reason sensitivity : string) : M (option (bool * PermissionScope)) :=
  fun w =>
    (dialogReply env (length (trace w)) tabId permType reason sensitivity,
     emit (SendToTab tabId (SHOW_PERMISSION_DIALOG permType reason sensitivity)) w).

(** [chrome.tabs.get(tabId, cb)]: the tab's [url] when the tab exists. *)
Definition tabsGet (tabId : Z) : M (option (option string)) :=
  fun w => (Ok (tabUrl env (length (trace w)) tabId), emit (TabsGet tabId) w).

(** [chrome.tabs.create({url})] *)
Definition chromeTabsCreate (url : json) : M unit :=
  fun w => (tabsCreate env (length (trace w)) url, emit (TabsCreate url) w).

Definition fetch (req : ChatRequest) : M HttpResponse :=
  fun w => (httpReply env (length (trace w)) req, emit (Fetch req) w).

(** [callMcpTool(serverUrl, toolName, args)] of [src/lib/custom-tools.ts].
    Its requests (the probes for the endpoint and the [tools/call]) are
    taken as one exchange with the server, which yields the
    [{success: true, data}] result or the error the function throws.  The
    [id] of the call is [Date.now()]: one reading of the clock, whatever
    the server answers. *)
Definition mcpExchange (serverUrl toolName : string) (args : json) : M json :=
  fun w => (mcpReply env (length (trace w)) serverUrl toolName args,
            emit (McpCall serverUrl toolName args) w).

Definition callMcpTool (serverUrl toolName : string) (args : json) : M json :=
  _ <- dateNow ;;
  mcpExchange serverUrl toolName args.

Definition consoleLog (line : string) : M unit := modify (emit (ConsoleLog line)).

Definition loadMcpServers : M (list McpServer) := gets mcpServers.

Definition getAllMcpTools : M (list McpTool) :=
  servers <- loadMcpServers ;;
  ret (flat_map (fun server => if srv_enabled server then srv_tools server else []) servers).

(** *** The permission guard ([ensurePermission]) *)

Definition emdash : string :=
  String "226"%char (String "128"%char (String "148"%char EmptyString)).

Definition isLocalProvider (cfg : LLMConfig) : bool :=
  match provider cfg with ollama => true | _ => false end.

Definition locationOf (isLocal : bool) : Location := if isLocal then local else cloud.

Definition ensurePermission (tabId : Z) (permType : PermissionType) (origin : string)
    (reason sensitivity : string) : M bool :=
  existing <- checkPermission permType origin tabId ;;
  match existing with
  | Some _ => ret true
  | None =>
    cfg <- gets llmConfig ;;
    let isLocal := isLocalProvider cfg in
    let processingLocation := locationOf isLocal in
    if isLocal && PermissionType_eqb permType page_read then
      _ <- grantPermission permType session origin tabId ;;
      addAuditEvent EventType.permission_granted origin
        (JObj [("permType", PermissionType_json permType);
               ("scope", JStr "session");
               ("autoGranted", JBool true);
               ("reason", JStr ("Local processing " +++ emdash +++ " data stays on device"))])
        (Some "auto") None processingLocation ;;
      ret true
    else
      addAuditEvent EventType.permission_requested origin
        (JObj [("permType", PermissionType_json permType);
               ("reason", JStr reason);
               ("sensitivity", JStr sensitivity)])
        None None processingLocation ;;
      tryCatch
        (result <- showPermissionDialog tabId permType reason sensitivity ;;
         match result with
         | Some (true, scope) =>
           _ <- grantPermission permType scope origin tabId ;;
           addAuditEvent EventType.permission_granted origin
             (JObj [("permType", PermissionType_json permType);
                    ("scope", JStr (PermissionScope_name scope))])
             (Some "approved") None processingLocation ;;
           ret true
         | _ =>
           addAuditEvent EventType.permission_denied origin
             (JObj [("permType", PermissionType_json permType)])
             (Some "denied") None processingLocation ;;
           ret false
         end)
        (fun _ =>
           if isLocal && PermissionType_eqb permType page_action then
             _ <- grantPermission permType page origin tabId ;;
             addAuditEvent EventType.permission_granted origin
               (JObj [("permType", PermissionType_json permType);
                      ("scope", JStr "page");
                      ("autoGranted", JBool true);
                      ("reason", JStr "Dialog unavailable, local provider")])
               None None processingLocation ;;
             ret true
           else ret false)
  end.

(** *** The LLM gateway ([llmChat]) *)

(** [throw new Error(msg)]; an exception is kept as [String(err)]. *)
Definition throwError {A} (msg : string) : M A := throw ("Error: " +++ msg).

Record ChatResult := {
  cr_content : string;
  cr_processingLocation : Location;
  cr_toolCalls : option (list ToolCall)
}.

(** [JSON.stringify(v)] inside a template literal *)
Definition stringify_text (v : json) : string :=
  match JSON_stringify v with
  | Some s => s
  | None => "undefined"
  end.

(** [String(v)], [`${v}`] *)
Definition to_str (v : json) : string :=
  match v with
  | JStr s => s
  | _ => js_String v
  end.

Definition quoted (s : string) : string := dquote +++ s +++ dquote.

(** The marker the fallback parser looks for: an opening brace followed by
    the quoted word [tool]. *)
Definition toolMarker : string := "{" +++ quoted "tool".

(** [{"tool": "tool_name", "args": {"param": "value"}}] *)
Definition toolCallExample : string :=
  "{" +++ quoted "tool" +++ ": " +++ quoted "tool_name" +++ ", " +++ quoted "args"
  +++ ": {" +++ quoted "param" +++ ": " +++ quoted "value" +++ "}}".

Definition toolDescriptions (tools : list OllamaToolSchema) : string :=
  String.concat newline
    (map (fun t =>
            "- " +++ fn_name t +++ ": " +++ fn_description t +++ " (params: "
            +++ stringify_text (fn_properties t) +++ ")")
         tools).

Definition toolInstructions (hasPageContent : bool) (descriptions : string) : string :=
  if hasPageContent then
    newline +++ newline
    +++ "You already have the page content above. Answer the user's question directly using that content. Do NOT call read_page "
    +++ emdash +++ " you already have it." +++ newline +++ newline
    +++ "If you need OTHER tools (not read_page), respond with ONLY a JSON object like:"
    +++ newline +++ toolCallExample +++ newline +++ newline
    +++ "Available tools:" +++ newline +++ descriptions +++ newline +++ newline
    +++ "IMPORTANT: Answer directly using the page content provided above. Only use a tool JSON if you need something OTHER than page content."
  else
    newline +++ newline
    +++ "You have access to tools. To call a tool, you MUST respond with ONLY a JSON object like this:"
    +++ newline +++ toolCallExample +++ newline +++ newline
    +++ "Do NOT ask the user for information. Do NOT say you need data. Just call the appropriate tool."
    +++ newline +++ newline
    +++ "Available tools:" +++ newline +++ descriptions +++ newline +++ newline
    +++ "IMPORTANT: If the user asks about a web page, call read_page first. Always respond with a tool call JSON when you need information.".

Definition fallbackMessage (descriptions : string) (m : Message) : Message :=
  if (role m =? "system")%string then
    let hasPageContent := includes "Current page content:" (content m) in
    {| role := role m;
       content := content m +++ toolInstructions hasPageContent descriptions |}
  else m.

(** [s.slice(n)]: [s] without its first [n] characters *)
Fixpoint drop (n : nat) (s : string) : string :=
  match n, s with
  | O, _ => s
  | S n', String _ s' => drop n' s'
  | S _, EmptyString => EmptyString
  end.

(** The scanning loop of the fallback parser, from position [ci] on, with
    [rest] the text from [ci] to the end: [Some endIdx] when the depth
    comes back to zero at [endIdx - 1], [None] ([endIdx] stays [-1]) when
    the text ends first. *)
Fixpoint scanBraces (rest : string) (ci : nat) (depth : Z) : option nat :=
  match rest with
  | EmptyString => None
  | String c rest' =>
    let depth := if Ascii.eqb c "{" then depth + 1 else depth in
    if Ascii.eqb c "}" then
      let depth := depth - 1 in
      if depth =? 0 then Some (S ci) else scanBraces rest' (S ci) depth
    else scanBraces rest' (S ci) depth
  end.

(** The brace-nesting depth the specification speaks of: the number of
    opening braces of [s] minus the number of closing ones.  It is not
    taken from the code; [scanBraces] is compared with it. *)
Definition braceDelta (c : ascii) : Z :=
  if Ascii.eqb c "{" then 1 else if Ascii.eqb c "}" then -1 else 0.

Fixpoint braceDepth (s : string) : Z :=
  match s with
  | EmptyString => 0
  | String c s' => braceDelta c + braceDepth s'
  end.

(** The [try { ... } catch {}] block that looks for a tool call in the text
    of a reply (it stands twice in [llmChat], after the retry and after a
    native reply without tool calls): [None] when the block leaves no tool
    call, be it by falling through or by an exception it swallows. *)
Definition parseToolCall (text : string) : option ToolCall :=
  match indexOf toolMarker text with
  | None => None
  | Some startIdx =>
    match scanBraces (drop startIdx text) startIdx 0 with
    | None => None
    | Some endIdx =>
      if (startIdx <? endIdx)%nat then
        match JSON_parse (slice startIdx endIdx text) with
        | None => None
        | Some parsed =>
          if truthy (field "tool" parsed) then
            Some {| tc_name := field "tool" parsed;
                    tc_arguments := jor (field "args" parsed) (JObj []) |}
          else None
        end
      else None
    end
  end.

(** What the local backend's reply text [content] becomes: the embedded
    tool call when the block above finds one, else the text itself. *)
Definition resultOfText (content : string) : ChatResult :=
  match parseToolCall content with
  | Some tc =>
    {| cr_content := ""; cr_processingLocation := local; cr_toolCalls := Some [tc] |}
  | None =>
    {| cr_content := content; cr_processingLocation := local; cr_toolCalls := None |}
  end.

Definition hasTools (tools : option (list OllamaToolSchema)) : bool :=
  match tools with
  | Some (_ :: _) => true
  | _ => false
  end.

Definition contentOf (data : ChatReply) : string :=
  match reply_content data with
  | Some s => s
  | None => ""
  end.

Definition llmChat (messages : list Message) (tools : option (list OllamaToolSchema))
    : M ChatResult :=
  cfg <- gets llmConfig ;;
  consoleLog ("[OpenLens] llmChat called, provider: " +++ ProviderType_name (provider cfg)
              +++ " model: " +++ model cfg +++ " tools: "
              +++ string_of_Z (Z.of_nat (length (match tools with Some l => l | None => [] end)))) ;;
  match provider cfg with
  | ollama =>
    res <- fetch (OllamaChat (model cfg) messages (if hasTools tools then tools else None)) ;;
    if negb (res_ok res) && (status res =? 400) && hasTools tools then
      let descriptions := toolDescriptions (match tools with Some l => l | None => [] end) in
      let fallbackMessages := map (fallbackMessage descriptions) messages in
      res <- fetch (OllamaChat (model cfg) fallbackMessages None) ;;
      if negb (res_ok res) then throwError ("Ollama error: " +++ string_of_Z (status res))
      else
        data <- liftRes (body res) ;;
        ret (resultOfText (contentOf data))
    else if negb (res_ok res) then throwError ("Ollama error: " +++ string_of_Z (status res))
    else
      data <- liftRes (body res) ;;
      match reply_tool_calls data with
      | Some (tc :: tcs) =>
        ret {| cr_content := contentOf data; cr_processingLocation := local;
               cr_toolCalls := Some (tc :: tcs) |}
      | _ =>
        let normalContent := contentOf data in
        if hasTools tools then ret (resultOfText normalContent)
        else ret {| cr_content := normalContent; cr_processingLocation := local;
                    cr_toolCalls := None |}
      end
  | openai =>
    res <- fetch (OpenAIChat (model cfg) messages 1024) ;;
    if negb (res_ok res) then throwError ("OpenAI error: " +++ string_of_Z (status res))
    else
      data <- liftRes (body res) ;;
      ret {| cr_content := contentOf data; cr_processingLocation := cloud;
             cr_toolCalls := None |}
  | anthropic =>
    let systemMsg :=
      match find (fun m => (role m =? "system")%string) messages with
      | Some m => content m
      | None => ""
      end in
    let chatMessages := filter (fun m => negb (role m =? "system")%string) messages in
    res <- fetch (AnthropicChat (model cfg) 1024 systemMsg chatMessages) ;;
    if negb (res_ok res) then throwError ("Anthropic error: " +++ string_of_Z (status res))
    else
      data <- liftRes (body res) ;;
      ret {| cr_content := contentOf data; cr_processingLocation := cloud;
             cr_toolCalls := None |}
  | openrouter =>
    res <- fetch (OpenRouterChat (model cfg) messages 1024) ;;
    if negb (res_ok res) then throwError ("OpenRouter error: " +++ string_of_Z (status res))
    else
      data <- liftRes (body res) ;;
      ret {| cr_content := contentOf data; cr_processingLocation := cloud;
             cr_toolCalls := None |}
  end.

(** *** The tool registry ([src/agent/page-tools.ts], [src/agent/tool-schemas.ts]) *)

Record PageTool := {
  pt_name : string;
  pt_description : string;
  pt_requiredPermission : PermissionType;
  pt_isWriteAction : bool
}.

(** [Object.values(PAGE_TOOLS)], in the order of the table. *)
Definition PAGE_TOOLS_values : list PageTool :=
  [ {| pt_name := "read_page";
       pt_description := "Extract and summarize the current page content";
       pt_requiredPermission := page_read; pt_isWriteAction := false |};
    {| pt_name := "extract_data";
       pt_description := "Extract structured data (prices, links, forms, headings) from the page";
       pt_requiredPermission := page_read; pt_isWriteAction := false |};
    {| pt_name := "find_on_page";
       pt_description := "Search for specific text on the page";
       pt_requiredPermission := page_read; pt_isWriteAction := false |};
    {| pt_name := "navigate";
       pt_description := "Open a URL in a new tab";
       pt_requiredPermission := page_action; pt_isWriteAction := true |};
    {| pt_name := "fill_form";
       pt_description := "Fill form fields (user must submit manually)";
       pt_requiredPermission := page_action; pt_isWriteAction := true |};
    {| pt_name := "click_element";
       pt_description := "Click a link or button by selector or text";
       pt_requiredPermission := page_action; pt_isWriteAction := true |} ].

(** The names every object inherits from [Object.prototype].
    [PAGE_TOOLS] is an object literal, so [PAGE_TOOLS[name]] finds them as
    well as the table's own keys: a function for each of them but
    [__proto__], for which it is [Object.prototype] itself. *)
Definition Object_prototype_keys : list string :=
  [ "constructor"; "__defineGetter__"; "__defineSetter__"; "hasOwnProperty";
    "__lookupGetter__"; "__lookupSetter__"; "isPrototypeOf"; "propertyIsEnumerable";
    "toString"; "valueOf"; "__proto__"; "toLocaleString" ].

(** What [PAGE_TOOLS[name]] can be when it is not [undefined]: a tool of
    the table, or an inherited member.  The latter is truthy and has none
    of a tool's properties. *)
Inductive Member :=
| Tool (tool : PageTool)
| Inherited.

(** [PAGE_TOOLS[name]]; [None] is [undefined]. *)
Definition PAGE_TOOLS (name : string) : option Member :=
  match find (fun t => (pt_name t =? name)%string) PAGE_TOOLS_values with
  | Some tool => Some (Tool tool)
  | None =>
    if existsb (String.eqb name) Object_prototype_keys then Some Inherited else None
  end.

(** [builtIn.requiredPermission] *)
Definition requiredPermission (builtIn : Member) : PermissionType :=
  match builtIn with
  | Tool tool => pt_requiredPermission tool
  | Inherited => no_type
  end.

(** [`${builtIn.description}`] *)
Definition description_text (builtIn : Member) : string :=
  match builtIn with
  | Tool tool => pt_description tool
  | Inherited => "undefined"
  end.

(** [builtIn.isWriteAction ? ... : ...] *)
Definition isWriteAction (builtIn : Member) : bool :=
  match builtIn with
  | Tool tool => pt_isWriteAction tool
  | Inherited => false
  end.

Definition paramSchema (type description : string) : json :=
  JObj [("type", JStr type); ("description", JStr description)].

Definition TOOL_PARAM_SCHEMAS (name : string) : json :=
  if (name =? "read_page")%string then
    JObj [("max_tokens", paramSchema "number" "Maximum tokens to extract (default 2000)")]
  else if (name =? "extract_data")%string then
    JObj [("data_type", paramSchema "string" "Type of data to extract: prices, links, forms, or headings")]
  else if (name =? "find_on_page")%string then
    JObj [("query", paramSchema "string" "Text to search for on the page")]
  else if (name =? "navigate")%string then
    JObj [("url", paramSchema "string" "URL to open in a new tab")]
  else if (name =? "fill_form")%string then
    JObj [("fields", paramSchema "string" "JSON object of field name to value pairs")]
  else if (name =? "click_element")%string then
    JObj [("selector", paramSchema "string" "CSS selector or visible text of the element to click")]
  else JObj [].

Definition getBuiltInToolSchemas : list OllamaToolSchema :=
  map (fun tool =>
         {| fn_name := pt_name tool;
            fn_description := pt_description tool;
            fn_properties := TOOL_PARAM_SCHEMAS (pt_name tool);
            fn_required :=
              if (pt_name tool =? "find_on_page")%string then ["query"]
              else if (pt_name tool =? "navigate")%string then ["url"]
              else if (pt_name tool =? "click_element")%string then ["selector"]
              else if (pt_name tool =? "fill_form")%string then ["fields"]
              else [] |})
      PAGE_TOOLS_values.

Definition getMcpToolSchemas (mcpTools : list McpTool) : list OllamaToolSchema :=
  map (fun tool =>
         {| fn_name := mcp_name tool;
            fn_description := "[" +++ mcp_serverName tool +++ "] " +++ mcp_description tool;
            fn_properties := jor (mcp_properties tool) (JObj []);
            fn_required := mcp_required tool |})
      mcpTools.

Definition getAllToolSchemas (mcpTools : list McpTool) : list OllamaToolSchema :=
  getBuiltInToolSchemas ++ getMcpToolSchemas mcpTools.

(** *** The dispatcher ([executeToolCall]) *)

Definition failure (err : string) : json :=
  JObj [("success", JBool false); ("error", JStr err)].

(** The first enabled server that lists a tool named [toolName]. *)
Fixpoint findMcpServer (toolName : json) (servers : list McpServer) : option McpServer :=
  match servers with
  | [] => None
  | server :: rest =>
    if negb (srv_enabled server) then findMcpServer toolName rest
    else if existsb (fun t => match toolName with
                              | JStr n => (mcp_name t =? n)%string
                              | _ => false
                              end) (srv_tools server)
         then Some server
         else findMcpServer toolName rest
  end.

(** The origin [executeToolCall] asks permission for: the host name of the
    tab's URL, ['unknown'] when the tab has none or the lookup throws. *)
Definition tabOrigin (tabId : Z) : M string :=
  tryCatch
    (tab <- tabsGet tabId ;;
     match tab with
     | Some (Some url) =>
       if negb (url =? "")%string then
         match url_hostname url with
         | Some h => ret h
         | None => throw "TypeError: Invalid URL"
         end
       else ret "unknown"
     | _ => ret "unknown"
     end)
    (fun _ => ret "unknown").

(** The [switch (toolName)] of [executeToolCall]; its cases compare with
    [===], so a name that is not a string takes the default. *)
Definition routeToContentScript (toolName : json) (args : json) (tabId : Z) : M json :=
  match toolName with
  | JStr name =>
    if (name =? "read_page")%string || (name =? "extract_data")%string then
      sendToTab tabId (READ_PAGE (jor (field "max_tokens" args) (JNum 2000)))
    else if (name =? "find_on_page")%string then
      sendToTab tabId (FIND_ON_PAGE (jor (field "query" args) (JStr "")))
    else if (name =? "click_element")%string then
      sendToTab tabId (CLICK_ELEMENT (jor (field "selector" args) (JStr "")))
    else if (name =? "fill_form")%string then
      let fields := jor (field "fields" args) (JObj []) in
      let fields :=
        match fields with
        | JStr s => match JSON_parse s with Some v => v | None => fields end
        | _ => fields
        end in
      sendToTab tabId (FILL_FORM fields)
    else if (name =? "navigate")%string then
      if truthy (field "url" args) then
        chromeTabsCreate (field "url" args) ;;
        ret (JObj [("success", JBool true); ("navigated", field "url" args)])
      else ret (failure "No URL provided")
    else ret (failure ("Unknown built-in tool: " +++ name))
  | _ => ret (failure ("Unknown built-in tool: " +++ to_str toolName))
  end.

(** The permission check of [executeToolCall] for what it found in
    [PAGE_TOOLS]. *)
Definition checkToolPermission (builtIn : Member) (toolName : json) (tabId : Z)
    : M bool :=
  origin <- tabOrigin tabId ;;
  ensurePermission tabId (requiredPermission builtIn) origin
    ("Tool " +++ quoted (to_str toolName) +++ ": " +++ description_text builtIn)
    (if isWriteAction builtIn then "medium" else "low").

Definition executeToolCall (toolName : json) (args : json) (tabId : Z) : M json :=
  match PAGE_TOOLS (to_str toolName) with
  | Some builtIn =>
    granted <- checkToolPermission builtIn toolName tabId ;;
    if negb granted then ret (failure "Permission denied")
    else routeToContentScript toolName args tabId
  | None =>
    servers <- loadMcpServers ;;
    match findMcpServer toolName servers with
    | Some server =>
      tryCatch
        (consoleLog ("[OpenLens] Calling MCP tool " +++ quoted (to_str toolName)
                     +++ " on server " +++ quoted (srv_name server)) ;;
         callMcpTool (srv_url server) (to_str toolName) args)
        (fun err => ret (failure ("MCP error: " +++ err)))
    | None => ret (failure ("Unknown tool: " +++ to_str toolName))
    end
  end.

(** *** The tool-call loop ([runToolCallLoop]) *)

Definition broadcastToolUpdate : M unit :=
  modify (fun w =>
    let s := toolCallState w in
    push (TOOL_CALL_UPDATE (running s) (length (calls s)) (finalAnswer s) (error s)) w).

Definition is_space (c : ascii) : bool :=
  let n := nat_of_ascii c in
  ((n =? 32) || ((9 <=? n) && (n <=? 13)))%nat.

Fixpoint trimStart (s : string) : string :=
  match s with
  | String c s' => if is_space c then trimStart s' else s
  | EmptyString => EmptyString
  end.

Definition reverse (s : string) : string :=
  string_of_list_ascii (rev (list_ascii_of_string s)).

(** [s.trim()], over the ASCII white space *)
Definition trim (s : string) : string := reverse (trimStart (reverse (trimStart s))).

Definition maxIterations : nat := 5.

Definition pushCall (c : ToolCallEvent) : M unit :=
  modify (fun w =>
    let s := toolCallState w in
    set_toolCallState
      {| running := running s; calls := calls s ++ [c];
         finalAnswer := finalAnswer s; error := error s |} w).

(** [toolCallState.finalAnswer = answer; toolCallState.running = false] *)
Definition finishWith (answer : string) : M unit :=
  modify (fun w =>
    let s := toolCallState w in
    set_toolCallState
      {| running := false; calls := calls s;
         finalAnswer := answer; error := error s |} w).

(** [toolCallState.error = String(err); toolCallState.running = false] *)
Definition failWith (err : string) : M unit :=
  modify (fun w =>
    let s := toolCallState w in
    set_toolCallState
      {| running := false; calls := calls s;
         finalAnswer := finalAnswer s; error := Some err |} w).

(** What the pre-read records once it has the page text: a ledger entry
    attributed to the host of the tab's URL, and a [read_page] call. *)
Definition recordPreRead (tabId : Z) (pageContext : string) : M unit :=
  let tokenCount := ceil_quarter (js_length pageContext) in
  tab <- tabsGet tabId ;;
  url <- match tab with
         | Some (Some u) => ret (if (u =? "")%string then "unknown" else u)
         | Some None => ret "unknown"
         | None => throw "TypeError: Cannot read properties of undefined (reading 'url')"
         end ;;
  origin <- match url_hostname url with
            | Some h => ret h
            | None => throw "TypeError: Invalid URL"
            end ;;
  addDataEntry origin "web" "page_content" tokenCount low "tool_call" ;;
  timestamp <- dateNow ;;
  pushCall {| tce_toolName := JStr "read_page"; tce_args := JObj [];
              tce_result := "Read " +++ string_of_Z tokenCount +++ " tokens from page";
              tce_iteration := 0; tce_timestamp := timestamp |}.

(** The pre-read of the page, one [try] block in the source.
    [pageContext] is assigned before the ledger entry is built, so when
    building it throws (no tab, no parsable URL) the text is kept and only
    the entry and the call record are lost. *)
Definition preReadPage (tabId : Z) : M string :=
  pageResult <- tryCatch (r <- sendToTab tabId (READ_PAGE (JNum 2000)) ;; ret (Some r))
                         (fun _ => ret None) ;;
  match pageResult with
  | Some pageResult =>
    if truthy (field "success" pageResult) && truthy (field "summary" pageResult) then
      let pageContext := to_str (field "summary" pageResult) in
      tryCatch (recordPreRead tabId pageContext) (fun _ => ret tt) ;;
      ret pageContext
    else ret ""
  | None => ret ""
  end.

(** The direct answer from the pre-read text: [true] when it was accepted
    (and [runToolCallLoop] returns), [false] when control falls through to
    the tool loop. *)
Definition directAnswer (intent pageContext : string) (processingLocation : Location)
    : M bool :=
  tryCatch
    (directResponse <-
       llmChat
         [ {| role := "system";
              content := "You are a helpful browser AI assistant analyzing a web page. Answer the user's question directly and concisely using the page content below."
                         +++ newline +++ newline +++ "Page content:" +++ newline +++ pageContext |};
           {| role := "user"; content := intent |} ]
         None ;;
     let answer := trim (cr_content directResponse) in
     if negb (answer =? "")%string && negb (startsWith toolMarker answer)
        && (10 <? js_length answer)%nat then
       finishWith answer ;;
       addAuditEvent EventType.llm_prompt "openlens"
         (JObj [("mode", JStr "direct_answer"); ("iterations", JNum 0)])
         None (Some (ceil_quarter (js_length answer))) processingLocation ;;
       broadcastToolUpdate ;;
       ret true
     else ret false)
    (fun _ => ret false).

(** The body of [for (const tc of response.toolCalls)]; [messages] is the
    conversation so far, the result the conversation after the two pushes. *)
Definition toolCallStep (i : nat) (tabId : Z) (processingLocation : Location)
    (tc : ToolCall) (messages : list Message) : M (list Message) :=
  let toolName := jor (tc_name tc) (JStr "") in
  let toolArgs := jor (tc_arguments tc) (JObj []) in
  addAuditEvent EventType.tool_call_start "openlens"
    (JObj [("tool", toolName); ("args", toolArgs); ("iteration", JNum (Z.of_nat (i + 1)))])
    None None processingLocation ;;
  result <- executeToolCall toolName toolArgs tabId ;;
  shown <- (if is_object result then
              match JSON_stringify result with
              | Some s => ret (sliceTo 500 s)
              | None => throw "TypeError: Cannot read properties of undefined (reading 'slice')"
              end
            else ret (to_str result)) ;;
  timestamp <- dateNow ;;
  pushCall {| tce_toolName := toolName; tce_args := toolArgs; tce_result := shown;
              tce_iteration := Z.of_nat (i + 1); tce_timestamp := timestamp |} ;;
  serialized <- match JSON_stringify result with
                | Some s => ret s
                | None => throw "TypeError: Cannot read properties of undefined (reading 'length')"
                end ;;
  let tokenCount := ceil_quarter (js_length serialized) in
  addDataEntry "openlens" "local" ("tool:" +++ to_str toolName) tokenCount low "tool_call" ;;
  addAuditEvent EventType.tool_call_result "openlens"
    (JObj [("tool", toolName); ("success", field "success" result)])
    None (Some tokenCount) processingLocation ;;
  broadcastToolUpdate ;;
  ret (messages ++
       [ {| role := "assistant";
            content := "I called the tool " +++ quoted (to_str toolName) +++ " with args "
                       +++ stringify_text toolArgs +++ "." |};
         {| role := "user";
            content := "Tool " +++ quoted (to_str toolName) +++ " returned: "
                       +++ sliceTo 3000 serialized +++ newline +++ newline
                       +++ "Now continue answering the original question using this result." |} ]).

Fixpoint forEachToolCall (step : ToolCall -> list Message -> M (list Message))
    (toolCalls : list ToolCall) (messages : list Message) : M (list Message) :=
  match toolCalls with
  | [] => ret messages
  | tc :: rest =>
    messages <- step tc messages ;;
    forEachToolCall step rest messages
  end.

(** How one iteration of the loop ends: the loop goes on with the
    conversation, or [runToolCallLoop] returns. *)
Inductive Iteration :=
| Continue (messages : list Message)
| Return.

(** The [try] block of iteration [i] (counted from 0): its log line, then
    the turn with the backend and what the reply asks for. *)
Definition turn (i : nat) (tools : list OllamaToolSchema) (tabId : Z)
    (processingLocation : Location) (messages : list Message) : M Iteration :=
  response <- llmChat messages (Some tools) ;;
  match cr_toolCalls response with
  | Some (tc :: tcs) =>
    messages <- forEachToolCall (toolCallStep i tabId processingLocation) (tc :: tcs) messages ;;
    ret (Continue messages)
  | _ =>
    finishWith (cr_content response) ;;
    addAuditEvent EventType.llm_prompt "openlens"
      (JObj [("mode", JStr "tool_call"); ("iterations", JNum (Z.of_nat (i + 1)))])
      None (Some (ceil_quarter (js_length (cr_content response)))) processingLocation ;;
    broadcastToolUpdate ;;
    ret Return
  end.

Definition iteration (i : nat) (tools : list OllamaToolSchema) (tabId : Z)
    (processingLocation : Location) (messages : list Message) : M Iteration :=
  consoleLog ("[OpenLens] Tool loop iteration " +++ string_of_Z (Z.of_nat (i + 1)) +++ "/"
              +++ string_of_Z (Z.of_nat maxIterations)) ;;
  turn i tools tabId processingLocation messages.

(** [for (let i = ...; i < maxIterations; i++) { try {...} catch {...} }]
    with [remaining = maxIterations - i], and what follows the loop. *)
Fixpoint toolLoop (remaining i : nat) (tools : list OllamaToolSchema) (tabId : Z)
    (processingLocation : Location) (messages : list Message) : M unit :=
  match remaining with
  | O => finishWith "(Reached maximum tool call iterations)" ;; broadcastToolUpdate
  | S remaining' =>
    r <- tryCatch (iteration i tools tabId processingLocation messages)
                  (fun err => failWith err ;; broadcastToolUpdate ;; ret Return) ;;
    match r with
    | Continue messages => toolLoop remaining' (S i) tools tabId processingLocation messages
    | Return => ret tt
    end
  end.

Definition runToolCallLoop (intent : string) (tabId : Z) : M unit :=
  modify (set_toolCallState
            {| running := true; calls := []; finalAnswer := ""; error := None |}) ;;
  cfg <- gets llmConfig ;;
  let processingLocation := locationOf (isLocalProvider cfg) in
  mcpTools <- getAllMcpTools ;;
  let tools := getAllToolSchemas mcpTools in
  pageContext <- preReadPage tabId ;;
  broadcastToolUpdate ;;
  answered <- (if negb (pageContext =? "")%string
               then directAnswer intent pageContext processingLocation
               else ret false) ;;
  if answered then ret tt
  else
    let systemPrompt :=
      if negb (pageContext =? "")%string then
        "You are a helpful browser AI assistant. You have access to tools. Use tools when needed. Be concise."
        +++ newline +++ newline +++ "Current page content:" +++ newline +++ pageContext
      else
        "You are a helpful browser AI assistant. You have access to tools. Use tools when needed (call read_page first if you need page content). Be concise." in
    toolLoop maxIterations 0 tools tabId processingLocation
      [ {| role := "system"; content := systemPrompt |};
        {| role := "user"; content := intent |} ].

(** A line of the loop's iteration log. *)
Definition isIterationLog (e : Effect) : bool :=
  match e with
  | ConsoleLog line => startsWith "[OpenLens] Tool loop iteration " line
  | _ => false
  end.

(** How many iterations of the tool loop a trace shows. *)
Definition iterationsLogged (tr : list Effect) : nat := length (filter isIterationLog tr).

(** [appendEntry e w]: the world after [sessionState.dataEntries.push(e)]
    and the two token counters' update. *)
Definition appendEntry (e : DataEntry) (w : World) : World :=
  let s := sessionState w in
  set_sessionState
    {| totalTokens := totalTokens s + de_tokenCount e;
       contextUsed := contextUsed s + de_tokenCount e;
       contextLimit := contextLimit s;
       processingLocation := processingLocation s;
       dataEntries := dataEntries s ++ [e];
       auditEvents := auditEvents s |} w.

(** *** Plan execution ([executeStep]) *)

Definition with_status (status : string) (s : TaskStep) : TaskStep :=
  {| step_id := step_id s; step_title := step_title s;
     step_description := step_description s; step_tool := step_tool s;
     step_toolParams := step_toolParams s;
     step_requiredPermission := step_requiredPermission s;
     step_status := status; step_result := step_result s;
     step_llmOutput := step_llmOutput s; step_isWriteAction := step_isWriteAction s;
     step_tokens := step_tokens s; step_origin := step_origin s;
     step_sensitivity := step_sensitivity s |}.

Definition with_llmOutput (llmOutput : string) (s : TaskStep) : TaskStep :=
  {| step_id := step_id s; step_title := step_title s;
     step_description := step_description s; step_tool := step_tool s;
     step_toolParams := step_toolParams s;
     step_requiredPermission := step_requiredPermission s;
     step_status := step_status s; step_result := step_result s;
     step_llmOutput := Some llmOutput; step_isWriteAction := step_isWriteAction s;
     step_tokens := step_tokens s; step_origin := step_origin s;
     step_sensitivity := step_sensitivity s |}.

Definition with_result (result : json) (s : TaskStep) : TaskStep :=
  {| step_id := step_id s; step_title := step_title s;
     step_description := step_description s; step_tool := step_tool s;
     step_toolParams := step_toolParams s;
     step_requiredPermission := step_requiredPermission s;
     step_status := step_status s; step_result := result;
     step_llmOutput := step_llmOutput s; step_isWriteAction := step_isWriteAction s;
     step_tokens := step_tokens s; step_origin := step_origin s;
     step_sensitivity := step_sensitivity s |}.

(** [step.result = ...; step.tokens = ...; step.origin = ...;
    step.sensitivity = ...] *)
Definition with_data (result : json) (tokens : Z) (origin : string)
    (sensitivity : Sensitivity) (s : TaskStep) : TaskStep :=
  {| step_id := step_id s; step_title := step_title s;
     step_description := step_description s; step_tool := step_tool s;
     step_toolParams := step_toolParams s;
     step_requiredPermission := step_requiredPermission s;
     step_status := step_status s; step_result := result;
     step_llmOutput := step_llmOutput s; step_isWriteAction := step_isWriteAction s;
     step_tokens := tokens; step_origin := Some origin;
     step_sensitivity := Some sensitivity |}.

Fixpoint updateNth {A} (n : nat) (f : A -> A) (l : list A) : list A :=
  match l, n with
  | [], _ => []
  | x :: rest, O => f x :: rest
  | x :: rest, S n' => x :: updateNth n' f rest
  end.

(** An assignment to a field of [currentPlan.steps[stepIdx]]: the step is
    an object of the plan, so the plan sees it. *)
Definition updateStep (stepIdx : nat) (f : TaskStep -> TaskStep) : M unit :=
  modify (fun w =>
    match currentPlan w with
    | Some plan =>
      set_currentPlan
        (Some {| plan_intent := plan_intent plan;
                 plan_steps := updateNth stepIdx f (plan_steps plan);
                 plan_status := plan_status plan;
                 plan_pageContext := plan_pageContext plan |}) w
    | None => w
    end).

Definition getStep (stepIdx : nat) : M (option TaskStep) :=
  gets (fun w =>
    match currentPlan w with
    | Some plan => nth_error (plan_steps plan) stepIdx
    | None => None
    end).

(** [v > 0] for a count the content script reports *)
Definition gt_zero (v : json) : bool :=
  match v with
  | JNum n => 0 <? n
  | JBool b => b
  | _ => false
  end.

(** The origin a plan's steps are attributed to. *)
Definition planOrigin (plan : TaskPlan) : string :=
  match plan_pageContext plan with
  | Some pc =>
    if negb (pc_url pc =? "")%string then
      match url_hostname (pc_url pc) with
      | Some h => h
      | None => "unknown"
      end
    else "unknown"
  | None => "unknown"
  end.

(** The [switch (step.tool)] of [executeStep]. *)
Definition runStepTool (step : TaskStep) (tabId : Z) : M json :=
  let tool := step_tool step in
  let toolParams := step_toolParams step in
  if (tool =? "read_page")%string || (tool =? "extract_data")%string then
    sendToTab tabId (READ_PAGE (JNum 2000))
  else if (tool =? "find_on_page")%string then
    sendToTab tabId
      (FIND_ON_PAGE (jor (field "query" toolParams) (JStr (step_description step))))
  else if (tool =? "click_element")%string then
    sendToTab tabId (CLICK_ELEMENT (jor (field "selector" toolParams) (JStr "")))
  else if (tool =? "fill_form")%string then
    let fields := jor (field "fields" toolParams) (JObj []) in
    let fields :=
      match fields with
      | JStr s => match JSON_parse s with Some v => v | None => JObj [] end
      | _ => fields
      end in
    sendToTab tabId (FILL_FORM fields)
  else if (tool =? "navigate")%string then
    let url := field "url" toolParams in
    if truthy url then
      chromeTabsCreate url ;;
      ret (JObj [("success", JBool true); ("navigated", url)])
    else ret (failure "No URL provided")
  else ret (failure ("Unknown tool: " +++ tool)).

(** The LLM analysis of the data a step extracted. *)
Definition analyseStep (stepIdx : nat) (plan : TaskPlan) (step : TaskStep)
    (toolResult resultData : json) (serialized : string) (cfg : LLMConfig) : M unit :=
  tryCatch
    (steps <- gets (fun w => match currentPlan w with
                             | Some p => plan_steps p
                             | None => []
                             end) ;;
     let previousResults :=
       flat_map (fun s =>
                   match step_llmOutput s with
                   | Some out =>
                     if (step_status s =? "completed")%string && negb (out =? "")%string
                     then [step_title s +++ ": " +++ out]
                     else []
                   | None => []
                   end) steps in
     let pageData :=
       if (step_tool step =? "read_page")%string || (step_tool step =? "extract_data")%string
       then (if truthy (field "summary" toolResult)
             then to_str (field "summary" toolResult)
             else sliceTo 3000 serialized)
       else sliceTo 1000 serialized in
     let context :=
       match previousResults with
       | [] => ""
       | _ => newline +++ "Previous steps:" +++ newline
              +++ String.concat newline previousResults
       end in
     let prompt :=
       "Task: " +++ quoted (plan_intent plan) +++ newline
       +++ "Step: " +++ step_title step +++ newline
       +++ "Tool: " +++ step_tool step +++ newline +++ newline
       +++ "Page data:" +++ newline +++ pageData +++ context +++ newline +++ newline
       +++ "Provide a helpful, concise response (3-4 sentences). Answer the user's question directly." in
     response <-
       llmChat
         [ {| role := "system";
              content := "You are a helpful AI assistant analyzing real browser page content. Be concise and specific." |};
           {| role := "user"; content := prompt |} ]
         None ;;
     let llmOutput :=
       if negb (cr_content response =? "")%string then cr_content response
       else "(No response)" in
     updateStep stepIdx (with_llmOutput llmOutput) ;;
     let llmTokens := ceil_quarter (js_length prompt + js_length llmOutput) in
     addAuditEvent EventType.llm_prompt "openlens"
       (JObj [("step", JStr (step_title step));
              ("provider", JStr (ProviderType_name (provider cfg)))])
       None (Some llmTokens) (cr_processingLocation response) ;;
     addContextUsed llmTokens)
    (fun _ =>
       updateStep stepIdx
         (with_llmOutput ("(LLM unavailable " +++ emdash +++ " showing raw data)"))).

(** The [try] block of [executeStep]: [true] when it returns the step from
    within (a tool that reports no success), [false] when control goes on
    after the block. *)
Definition runStep (stepIdx : nat) (plan : TaskPlan) (step : TaskStep) (tabId : Z)
    (origin : string) (cfg : LLMConfig) : M bool :=
  let processingLocation := locationOf (isLocalProvider cfg) in
  tryCatch
    (toolResult <- runStepTool step tabId ;;
     if negb (truthy (field "success" toolResult)) then
       updateStep stepIdx
         (fun s => with_llmOutput
                     ("(Tool error: "
                      +++ to_str (jor (field "error" toolResult) (JStr "unknown")) +++ ")")
                     (with_result toolResult (with_status "completed" s))) ;;
       ret true
     else
       let resultData :=
         jor (field "context" toolResult) (jor (field "matches" toolResult) toolResult) in
       serialized <- match JSON_stringify resultData with
                     | Some s => ret s
                     | None => throw "TypeError: Cannot read properties of undefined (reading 'length')"
                     end ;;
       let tokenCount := ceil_quarter (js_length serialized) in
       let sensitivity :=
         if gt_zero (field "emailCount" (field "structuredData" (field "context" toolResult)))
         then medium else low in
       addDataEntry origin "page_content" (step_tool step) tokenCount sensitivity "tool_call" ;;
       addAuditEvent EventType.tool_call origin
         (JObj [("tool", JStr (step_tool step)); ("params", step_toolParams step)])
         None (Some tokenCount) processingLocation ;;
       setProcessingLocation processingLocation ;;
       syncState ;;
       updateStep stepIdx (with_data resultData tokenCount origin sensitivity) ;;
       (if negb (model cfg =? "")%string
        then analyseStep stepIdx plan step toolResult resultData serialized cfg
        else updateStep stepIdx
               (with_llmOutput ("(No model configured " +++ emdash +++ " showing raw data)"))) ;;
       updateStep stepIdx (with_status "completed") ;;
       ret false)
    (fun err =>
       updateStep stepIdx
         (fun s => with_llmOutput ("(Error: " +++ err +++ ")")
                     (with_result (JObj [("error", JStr err)])
                                  (with_status "completed" s))) ;;
       ret false).

(** [step.requiredPermission || 'page_read'] *)
Definition orPageRead (type : PermissionType) : PermissionType :=
  match type with no_type => page_read | _ => type end.

Definition executeStep (stepIdx : nat) (tabId : Z) : M (option TaskStep) :=
  plan <- gets currentPlan ;;
  match plan with
  | None => ret None
  | Some plan =>
    match nth_error (plan_steps plan) stepIdx with
    | None => ret None
    | Some step =>
      updateStep stepIdx (with_status "running") ;;
      cfg <- gets llmConfig ;;
      let isLocal := isLocalProvider cfg in
      let processingLocation := locationOf isLocal in
      let origin := planOrigin plan in
      granted <- ensurePermission tabId (orPageRead (step_requiredPermission step)) origin
                   ("Step " +++ quoted (step_title step) +++ ": " +++ step_description step)
                   (if step_isWriteAction step then "medium" else "low") ;;
      if negb granted then
        updateStep stepIdx
          (fun s => with_llmOutput "(Permission denied by user)" (with_status "skipped" s)) ;;
        getStep stepIdx
      else
        cloudGranted <-
          (if negb isLocal then
             ensurePermission tabId data_send origin
               ("Send page content to " +++ ProviderType_name (provider cfg) +++ " for analysis")
               "high"
           else ret true) ;;
        if negb cloudGranted then
          updateStep stepIdx
            (fun s => with_llmOutput
                        ("(Cloud send denied " +++ emdash
                         +++ " switch to local Ollama for no-cloud processing)")
                        (with_status "skipped" s)) ;;
          getStep stepIdx
        else
          returned <- runStep stepIdx plan step tabId origin cfg ;;
          if returned then getStep stepIdx
          else
            setProcessingLocation idle ;;
            addAuditEvent EventType.task_step origin
              (JObj [("step", JStr (step_title step)); ("tool", JStr (step_tool step))])
              None None processingLocation ;;
            syncState ;;
            getStep stepIdx
    end
  end.

(** *** The cross-origin monitor ([detectCrossOrigin]) *)

(** [new Set(l)], as the list of its elements in insertion order; [seen]
    are the elements already in the set. *)
Fixpoint addAll (seen : list string) (l : list string) : list string :=
  match l with
  | [] => []
  | x :: rest =>
    if existsb (String.eqb x) seen then addAll seen rest
    else x :: addAll (x :: seen) rest
  end.

Definition setOf (l : list string) : list string := addAll [] l.

Definition isCompleted (s : TaskStep) : bool := (step_status s =? "completed")%string.

(** The origins of the completed steps that carry one. *)
Definition completedOrigins (steps : list TaskStep) : list string :=
  setOf (flat_map (fun s =>
                     if isCompleted s then
                       match step_origin s with
                       | Some o => if negb (o =? "")%string then [o] else []
                       | None => []
                       end
                     else [])
                  steps).

Definition hasHighSensitivity (steps : list TaskStep) : bool :=
  existsb (fun s => isCompleted s
                    && match step_sensitivity s with
                       | Some high => true
                       | _ => false
                       end)
          steps.

Definition cloudNote (cfg : LLMConfig) : string :=
  match provider cfg with
  | ollama => " Processing is local " +++ emdash +++ " data stays on device."
  | p => " All this data is being sent to " +++ ProviderType_name p +++ " cloud servers."
  end.

Definition crossOriginWarning (origins : list string) (hasHigh : bool) (note : string)
    : string :=
  if hasHigh then
    "Data from " +++ String.concat " + " origins
    +++ " is merging in the AI context. This includes sensitive data." +++ note
  else
    "Data from " +++ String.concat " + " origins +++ " is merging in the AI context." +++ note.

(** [stepIdx] is a parameter the function never reads. *)
Definition detectCrossOrigin (stepIdx : nat) : M (option string) :=
  plan <- gets currentPlan ;;
  match plan with
  | None => ret None
  | Some plan =>
    let completed := completedOrigins (plan_steps plan) in
    currentOrigin <-
      match plan_pageContext plan with
      | Some pc =>
        if negb (pc_url pc =? "")%string then
          match url_hostname (pc_url pc) with
          | Some h => ret (Some h)
          | None => throw "TypeError: Invalid URL"
          end
        else ret None
      | None => ret None
      end ;;
    match currentOrigin with
    | None => ret None
    | Some currentOrigin =>
      if (currentOrigin =? "")%string || (length completed =? 0)%nat then ret None
      else if negb (existsb (String.eqb currentOrigin) completed) then
        cfg <- gets llmConfig ;;
        ret (Some (crossOriginWarning (completed ++ [currentOrigin])
                     (hasHighSensitivity (plan_steps plan)) (cloudNote cfg)))
      else ret None
    end
  end.

(** *** The sensitivity classifier ([src/lib/sensitivity.ts]) *)

Definition toLower (c : ascii) : ascii :=
  let n := nat_of_ascii c in
  if ((65 <=? n) && (n <=? 90))%nat then ascii_of_nat (n + 32) else c.

Fixpoint lowercase (s : string) : string :=
  match s with
  | EmptyString => EmptyString
  | String c s' => String (toLower c) (lowercase s')
  end.

Definition HIGH_PATTERNS : list string :=
  [ "calendar"; "schedule"; "event"; "meeting"; "email"; "draft"; "order"; "payment";
    "price"; "budget"; "name"; "address"; "phone"; "birth"; "health"; "medical";
    "password"; "credit"; "bank"; "salary" ].

Definition MEDIUM_PATTERNS : list string :=
  [ "preference"; "search"; "query"; "pattern"; "browse"; "history"; "bookmark";
    "wishlist"; "cart"; "interest" ].

(** [/p1|p2|.../i.test(text)]: some alternative occurs in the text, letter
    case apart. *)
Definition test (patterns : list string) (text : string) : bool :=
  existsb (fun p => includes p (lowercase text)) patterns.

Definition classifySensitivity (text : string) : Sensitivity :=
  if test HIGH_PATTERNS text then high
  else if test MEDIUM_PATTERNS text then medium
  else low.

(** *** The event bus ([src/modules/event-bus.ts])

    The bus keeps a session state of its own; its functions are given here
    as functions of that state, with [now] for the clock. *)

Record AgentEvent := {
  ev_type : EventType.t;
  ev_origin : string;
  ev_data : json;
  ev_timestamp : Z;
  ev_tokens : option Z
}.

Definition EventType_name (t : EventType.t) : string :=
  match t with
  | EventType.page_load => "page_load"
  | EventType.mcp_discovered => "mcp_discovered"
  | EventType.permission_granted => "permission_granted"
  | EventType.permission_denied => "permission_denied"
  | EventType.tool_call => "tool_call"
  | EventType.llm_prompt => "llm_prompt"
  | EventType.context_updated => "context_updated"
  | EventType.navigation => "navigation"
  | EventType.task_started => "task_started"
  | EventType.task_step => "task_step"
  | EventType.task_completed => "task_completed"
  | EventType.permission_requested => "permission_requested"
  | EventType.page_read => "page_read"
  | EventType.page_action => "page_action"
  | EventType.tool_call_start => "tool_call_start"
  | EventType.tool_call_result => "tool_call_result"
  end.

Definition bus_addDataEntry (now : Z) (origin originType dataType : string)
    (tokenCount : Z) (sensitivity : Sensitivity) (entryMethod : string)
    (state : SessionState) : SessionState :=
  {| totalTokens := totalTokens state + tokenCount;
     contextUsed := contextUsed state + tokenCount;
     contextLimit := contextLimit state;
     processingLocation := processingLocation state;
     dataEntries :=
       dataEntries state
       ++ [ {| de_origin := origin; de_originType := originType; de_dataType := dataType;
               de_tokenCount := tokenCount; de_sensitivity := sensitivity;
               de_entryMethod := entryMethod; de_timestamp := now |} ];
     auditEvents := auditEvents state |}.

Definition bus_addAuditEvent (now : Z) (type : EventType.t) (origin : string)
    (detail : json) (tokensInvolved : option Z) (location : Location)
    (state : SessionState) : SessionState :=
  {| totalTokens := totalTokens state;
     contextUsed := contextUsed state;
     contextLimit := contextLimit state;
     processingLocation := processingLocation state;
     dataEntries := dataEntries state;
     auditEvents :=
       auditEvents state
       ++ [ {| ae_type := type; ae_origin := origin; ae_detail := detail;
               ae_userAction := None; ae_tokensInvolved := tokensInvolved;
               ae_processingLocation := location; ae_timestamp := now |} ] |}.

Definition emitEvent (now : Z) (event : AgentEvent) (state : SessionState) : SessionState :=
  let state :=
    match ev_tokens event with
    | Some tokens =>
      if 0 <? tokens then
        bus_addDataEntry now (ev_origin event)
          (to_str (jor (field "originType" (ev_data event)) (JStr "local")))
          (to_str (jor (field "dataType" (ev_data event))
                       (JStr (EventType_name (ev_type event)))))
          tokens
          (classifySensitivity (stringify_text (ev_data event)))
          (EventType_name (ev_type event))
          state
      else state
    | None => state
    end in
  bus_addAuditEvent now (ev_type event) (ev_origin event) (ev_data event) (ev_tokens event)
    (match processingLocation state with
     | idle => local
     | l => l
     end)
    state.

(** ** The rest of the permission store ([src/lib/permissions.ts]) *)

Definition revokeAllForTab (tabId : Z) : M unit :=
  permissions <- loadPermissions ;;
  savePermissions (filter (fun p => negb (perm_tabId p =? tabId)) permissions).

Definition is_page (s : PermissionScope) : bool :=
  match s with page => true | _ => false end.

Definition revokePagePermissions (tabId : Z) : M unit :=
  permissions <- loadPermissions ;;
  savePermissions
    (filter (fun p => negb (is_page (perm_scope p) && (perm_tabId p =? tabId))) permissions).

(** The worker's tab listeners: [chrome.tabs.onRemoved] and
    [chrome.tabs.onUpdated], the latter with [changeInfo.url]. *)
Definition onTabRemoved (tabId : Z) : M unit := revokeAllForTab tabId.

Definition onTabUpdated (tabId : Z) (changedUrl : option string) : M unit :=
  match changedUrl with
  | Some url => if negb (url =? "")%string then revokePagePermissions tabId else ret tt
  | None => ret tt
  end.

(** ** The MCP server store ([src/lib/custom-tools.ts]) *)

Definition set_mcpServers (servers : list McpServer) (w : World) : World :=
  {| llmConfig := llmConfig w; permissions := permissions w; mcpServers := servers;
     sessionState := sessionState w; toolCallState := toolCallState w;
     currentPlan := currentPlan w; clockReads := clockReads w; trace := trace w;
     pushes := pushes w |}.

Definition saveToStorage (servers : list McpServer) : M unit :=
  modify (set_mcpServers servers).

(** [idx = servers.findIndex(s => s.id === id); servers[idx] = server]:
    [None] when no server has the id ([idx] is [-1]). *)
Fixpoint replaceFirst (id : string) (server : McpServer) (servers : list McpServer)
    : option (list McpServer) :=
  match servers with
  | [] => None
  | s :: rest =>
    if (srv_id s =? id)%string then Some (server :: rest)
    else match replaceFirst id server rest with
         | Some rest' => Some (s :: rest')
         | None => None
         end
  end.

Definition saveMcpServer (server : McpServer) : M unit :=
  servers <- loadMcpServers ;;
  match replaceFirst (srv_id server) server servers with
  | Some servers' => saveToStorage servers'
  | None => saveToStorage (servers ++ [server])
  end.

Definition deleteMcpServer (id : string) : M unit :=
  servers <- loadMcpServers ;;
  saveToStorage (filter (fun s => negb (srv_id s =? id)%string) servers).

Definition with_enabled (enabled : bool) (s : McpServer) : McpServer :=
  {| srv_id := srv_id s; srv_name := srv_name s; srv_url := srv_url s;
     srv_enabled := enabled; srv_tools := srv_tools s |}.

(** The reply of the [TOGGLE_MCP_SERVER] handler: [{ok: true, enabled}] or
    [{ok: false, error: 'Server not found'}]. *)
Inductive ToggleReply :=
| Toggled (enabled : bool)
| ServerNotFound.

(** [refreshMcpToolCount()]: the number of tools it counts goes to
    [sessionState.mcpToolCount], a field for the side panel that
    [SessionState] does not keep. *)
Definition refreshMcpToolCount : M unit :=
  _ <- getAllMcpTools ;;
  syncState.

(** The [TOGGLE_MCP_SERVER] handler of the worker. *)
Definition toggleMcpServer (serverId : string) : M ToggleReply :=
  servers <- loadMcpServers ;;
  match find (fun s => (srv_id s =? serverId)%string) servers with
  | Some server =>
    let server := with_enabled (negb (srv_enabled server)) server in
    saveMcpServer server ;;
    refreshMcpToolCount ;;
    ret (Toggled (srv_enabled server))
  | None => ret ServerNotFound
  end.

(** ** The rest of the event bus ([src/modules/event-bus.ts])

    Of the bus's session state the ledger fields are kept (see
    [SessionState]). *)

Definition createFreshSession : SessionState :=
  {| totalTokens := 0; contextUsed := 0; contextLimit := 8192;
     processingLocation := idle; dataEntries := []; auditEvents := [] |}.

Definition clearSession (state : SessionState) : SessionState := createFreshSession.

Definition bus_setProcessingLocation (loc : Location) (state : SessionState) : SessionState :=
  {| totalTokens := totalTokens state; contextUsed := contextUsed state;
     contextLimit := contextLimit state; processingLocation := loc;
     dataEntries := dataEntries state; auditEvents := auditEvents state |}.

(** [entries.reduce((sum, e) => sum + e.tokenCount, 0)] *)
Definition sumTokens (entries : list DataEntry) : Z :=
  fold_left (fun sum e => sum + de_tokenCount e) entries 0.

Definition clearOrigin (origin : string) (state : SessionState) : SessionState :=
  let removedTokens :=
    sumTokens (filter (fun e => (de_origin e =? origin)%string) (dataEntries state)) in
  {| totalTokens := totalTokens state - removedTokens;
     contextUsed := contextUsed state - removedTokens;
     contextLimit := contextLimit state;
     processingLocation := processingLocation state;
     dataEntries := filter (fun e => negb (de_origin e =? origin)%string) (dataEntries state);
     auditEvents := auditEvents state |}.

(** * Properties of the model *)

(** ** Reading a field of an updated world *)

Lemma trace_emit (e : Effect) (w : World) : trace (emit e w) = trace w ++ [e].
Proof. reflexivity. Qed.

Lemma length_trace_emit (e : Effect) (w : World) :
  length (trace (emit e w)) = S (length (trace w)).
Proof. rewrite trace_emit, length_app. simpl. lia. Qed.

Lemma llmConfig_emit (e : Effect) (w : World) : llmConfig (emit e w) = llmConfig w.
Proof. reflexivity. Qed.

Lemma tryCatch_bind {A B} (m : M A) (k : A -> M B) (h : string -> M B) (w w1 : World)
    (a : A) :
  m w = (Ok a, w1) -> tryCatch (bind m k) h w = tryCatch (k a) h w1.
Proof. intros H. unfold tryCatch, bind. now rewrite H. Qed.

Lemma bind_run {A B} (m : M A) (k : A -> M B) (w : World) :
  bind m k w = match m w with
               | (Ok a, w1) => k a w1
               | (Throw e, w1) => (Throw e, w1)
               end.
Proof. reflexivity. Qed.

Lemma PermissionType_eqb_refl (t : PermissionType) : PermissionType_eqb t t = true.
Proof. destruct t; reflexivity. Qed.

Lemma same_triple_refl (type : PermissionType) (origin : string) (tabId : Z)
    (p : Permission) :
  perm_type p = type -> perm_origin p = origin -> perm_tabId p = tabId ->
  same_triple type origin tabId p = true.
Proof.
  intros <- <- <-. unfold same_triple.
  rewrite PermissionType_eqb_refl, String.eqb_refl, Z.eqb_refl. reflexivity.
Qed.

Lemma filter_same_triple_removed (type : PermissionType) (origin : string) (tabId : Z)
    (ps : list Permission) :
  filter (same_triple type origin tabId)
    (filter (fun p => negb (same_triple type origin tabId p)) ps) = [].
Proof.
  induction ps as [|p ps IH]; simpl; [reflexivity|].
  destruct (same_triple type origin tabId p) eqn:E; simpl; [exact IH|].
  rewrite E. exact IH.
Qed.


(** ** The permission store *)

Lemma filter_others_kept (type : PermissionType) (origin : string) (tabId : Z)
    (ps : list Permission) :
  filter (fun p => negb (same_triple type origin tabId p))
    (filter (fun p => negb (same_triple type origin tabId p)) ps)
  = filter (fun p => negb (same_triple type origin tabId p)) ps.
Proof.
  induction ps as [|p ps IH]; simpl; [reflexivity|].
  destruct (same_triple type origin tabId p) eqn:E; simpl; [exact IH|].
  rewrite E. simpl. now rewrite IH.
Qed.

Lemma grantPermission_run (type : PermissionType) (scope : PermissionScope)
    (origin : string) (tabId : Z) (w : World) :
  let now := clock env (clockReads w) in
  let permission :=
    {| perm_type := type; perm_scope := scope; perm_origin := origin;
       perm_tabId := tabId; perm_grantedAt := now;
       perm_expiresAt := match scope with
                         | page => None
                         | _ => Some (now + 30 * 60 * 1000)
                         end |} in
  grantPermission type scope origin tabId w
  = (Ok permission,
     set_permissions
       (filter (fun p => negb (same_triple type origin tabId p)) (permissions w)
        ++ [permission]) (tick w)).
Proof. reflexivity. Qed.

(** C10. Granting twice for the same (type, origin, tabId) leaves exactly
    one grant for that triple in the stored list, and it is the later one:
    it carries the later grant's scope, its grant time and the expiry that
    goes with that scope (none for [page], 30 minutes after the grant
    otherwise), and it is not expired at the time of the grant.  Grants for
    other triples are kept as they were. *)
Theorem grantPermission_idempotent :
  forall (type : PermissionType) (scope1 scope2 : PermissionScope)
         (origin : string) (tabId : Z) (w : World),
    let w1 := snd (grantPermission type scope1 origin tabId w) in
    let now2 := clock env (clockReads w1) in
    let later :=
      {| perm_type := type; perm_scope := scope2; perm_origin := origin;
         perm_tabId := tabId; perm_grantedAt := now2;
         perm_expiresAt := match scope2 with
                           | page => None
                           | _ => Some (now2 + 1800000)
                           end |} in
    let w2 := snd (grantPermission type scope2 origin tabId w1) in
    fst (grantPermission type scope2 origin tabId w1) = Ok later
    /\ filter (same_triple type origin tabId) (permissions w2) = [later]
    /\ expired now2 later = false
    /\ filter (fun p => negb (same_triple type origin tabId p)) (permissions w2)
       = filter (fun p => negb (same_triple type origin tabId p)) (permissions w).
Proof.
  intros type scope1 scope2 origin tabId w w1 now2 later w2.
  subst w2 w1. rewrite !grantPermission_run in *. cbn [fst snd] in *.
  assert (Hsame : forall p, perm_type p = type -> perm_origin p = origin ->
                            perm_tabId p = tabId ->
                            same_triple type origin tabId p = true)
    by (intros; now apply same_triple_refl).
  split; [reflexivity|]. cbn [permissions set_permissions tick clockReads].
  repeat split.
  - rewrite !filter_app, filter_same_triple_removed. simpl.
    rewrite !Hsame by reflexivity. reflexivity.
  - unfold expired, later. simpl. destruct scope2; simpl; try reflexivity.
    all: apply andb_false_iff; right; apply Z.ltb_ge; lia.
  - rewrite !filter_app. simpl. rewrite !Hsame by reflexivity. simpl.
    rewrite !app_nil_r, !filter_others_kept. reflexivity.
Qed.


(** ** The permission guard *)

(** No stored grant covers the request at the time [checkPermission] reads
    the clock in world [w]. *)
Definition noCoveringGrant (permType : PermissionType) (origin : string) (tabId : Z)
    (w : World) : Prop :=
  find (covers permType origin tabId (clock env (clockReads w))) (permissions w) = None.

Definition autoGrantedEvent (permType : PermissionType) (origin : string)
    (location : Location) (timestamp : Z) : AuditEvent :=
  {| ae_type := EventType.permission_granted;
     ae_origin := origin;
     ae_detail :=
       JObj [("permType", PermissionType_json permType);
             ("scope", JStr "session");
             ("autoGranted", JBool true);
             ("reason", JStr ("Local processing " +++ emdash +++ " data stays on device"))];
     ae_userAction := Some "auto";
     ae_tokensInvolved := None;
     ae_processingLocation := location;
     ae_timestamp := timestamp |}.

Definition requestedEvent (permType : PermissionType) (origin reason sensitivity : string)
    (location : Location) (timestamp : Z) : AuditEvent :=
  {| ae_type := EventType.permission_requested;
     ae_origin := origin;
     ae_detail :=
       JObj [("permType", PermissionType_json permType);
             ("reason", JStr reason);
             ("sensitivity", JStr sensitivity)];
     ae_userAction := None;
     ae_tokensInvolved := None;
     ae_processingLocation := location;
     ae_timestamp := timestamp |}.

Definition dialogFallbackEvent (permType : PermissionType) (origin : string)
    (location : Location) (timestamp : Z) : AuditEvent :=
  {| ae_type := EventType.permission_granted;
     ae_origin := origin;
     ae_detail :=
       JObj [("permType", PermissionType_json permType);
             ("scope", JStr "page");
             ("autoGranted", JBool true);
             ("reason", JStr "Dialog unavailable, local provider")];
     ae_userAction := None;
     ae_tokensInvolved := None;
     ae_processingLocation := location;
     ae_timestamp := timestamp |}.

Ltac run_monad :=
  unfold ensurePermission, checkPermission, grantPermission, addAuditEvent,
    addDataEntry, showPermissionDialog, loadPermissions, savePermissions, dateNow,
    tryCatch, bind, ret, throw, gets, modify; cbn.

(** C5. With no covering unexpired grant, a [page_read] request under the
    local backend (ollama) is granted without the decision surface being
    invoked: nothing is sent to the tab, a session-scoped grant is stored,
    and one [permission_granted] audit event marked [autoGranted] is
    recorded.  In every other case (a [page_action] or [data_send] request,
    or [page_read] under a hosted backend) a [permission_requested] event
    is recorded and the decision surface is invoked, exactly once; when it
    resolves, the result is the user's decision.  So the request is granted
    without the decision surface if and only if it is a read under the
    local backend. *)
Theorem ensurePermission_auto_grant_iff_local_read :
  forall (tabId : Z) (permType : PermissionType) (origin reason sensitivity : string)
         (w : World),
    noCoveringGrant permType origin tabId w ->
    let isLocal := isLocalProvider (llmConfig w) in
    let r := fst (ensurePermission tabId permType origin reason sensitivity w) in
    let w' := snd (ensurePermission tabId permType origin reason sensitivity w) in
    if isLocal && PermissionType_eqb permType page_read then
      r = Ok true
      /\ trace w' = trace w
      /\ (exists timestamp,
            auditEvents (sessionState w')
            = auditEvents (sessionState w)
              ++ [autoGrantedEvent permType origin local timestamp])
      /\ (exists grantedAt,
            filter (same_triple permType origin tabId) (permissions w')
            = [ {| perm_type := permType; perm_scope := session; perm_origin := origin;
                   perm_tabId := tabId; perm_grantedAt := grantedAt;
                   perm_expiresAt := Some (grantedAt + 1800000) |} ])
    else
      trace w' = trace w ++ [SendToTab tabId (SHOW_PERMISSION_DIALOG permType reason sensitivity)]
      /\ (exists timestamp rest,
            auditEvents (sessionState w')
            = auditEvents (sessionState w)
              ++ requestedEvent permType origin reason sensitivity (locationOf isLocal) timestamp
                 :: rest)
      /\ (forall granted scope,
            dialogReply env (length (trace w)) tabId permType reason sensitivity
            = Ok (Some (granted, scope)) -> r = Ok granted)
      /\ (dialogReply env (length (trace w)) tabId permType reason sensitivity = Ok None ->
          r = Ok false).
Proof.
  intros tabId permType origin reason sensitivity w Hnone isLocal r w'.
  subst r w' isLocal. unfold noCoveringGrant in Hnone.
  run_monad. rewrite Hnone. cbn.
  destruct (isLocalProvider (llmConfig w)) eqn:Hlocal;
    destruct (PermissionType_eqb permType page_read) eqn:Hread; cbn.
  1: { repeat split.
       - eexists. reflexivity.
       - eexists. rewrite filter_app, filter_same_triple_removed. cbn.
         rewrite same_triple_refl by reflexivity. reflexivity. }
  all: destruct (dialogReply env (length (trace w)) tabId permType reason sensitivity)
         as [[[[|] scope]|]|err] eqn:Hdialog; cbn.
  all: try (destruct (PermissionType_eqb permType page_action); cbn).
  all: repeat split; intros; try congruence.
  all: do 2 eexists; rewrite <- ?app_assoc; reflexivity.
Qed.

(** C6. When the dialog call throws, the request is granted only if it is
    a [page_action] under the local backend: then a page-scoped grant
    (without expiry) is stored and a [permission_granted] audit event
    marked [autoGranted], with the reason that the dialog was unavailable,
    is recorded.  For every other capability and backend the result is
    [false] and the permission store is left as it was. *)
Theorem ensurePermission_dialog_failure :
  forall (tabId : Z) (permType : PermissionType) (origin reason sensitivity : string)
         (w : World) (err : string),
    noCoveringGrant permType origin tabId w ->
    isLocalProvider (llmConfig w) && PermissionType_eqb permType page_read = false ->
    dialogReply env (length (trace w)) tabId permType reason sensitivity = Throw err ->
    let r := fst (ensurePermission tabId permType origin reason sensitivity w) in
    let w' := snd (ensurePermission tabId permType origin reason sensitivity w) in
    if isLocalProvider (llmConfig w) && PermissionType_eqb permType page_action then
      r = Ok true
      /\ (exists grantedAt,
            filter (same_triple permType origin tabId) (permissions w')
            = [ {| perm_type := permType; perm_scope := page; perm_origin := origin;
                   perm_tabId := tabId; perm_grantedAt := grantedAt;
                   perm_expiresAt := None |} ])
      /\ (exists timestamp before,
            auditEvents (sessionState w')
            = before ++ [dialogFallbackEvent permType origin local timestamp])
    else
      r = Ok false /\ permissions w' = permissions w.
Proof.
  intros tabId permType origin reason sensitivity w err Hnone Hnoauto Hdialog r w'.
  subst r w'. unfold noCoveringGrant in Hnone.
  run_monad. rewrite Hnone. cbn. rewrite Hnoauto. cbn. rewrite Hdialog. cbn.
  destruct (isLocalProvider (llmConfig w)) eqn:Hlocal; cbn.
  - destruct permType; cbn in *; try discriminate; try (split; reflexivity).
    repeat split.
    + eexists. rewrite filter_app, filter_same_triple_removed. cbn.
      unfold same_triple. cbn. rewrite String.eqb_refl, Z.eqb_refl. reflexivity.
    + do 2 eexists. reflexivity.
  - split; reflexivity.
Qed.


(** ** Strings *)

Lemma substring_drop (k n : nat) (s : string) :
  String.substring 0 n (drop k s) = String.substring k n s.
Proof.
  revert s; induction k as [|k IH]; intros s; [reflexivity|].
  destruct s as [|c s]; simpl; [now destruct n|apply IH].
Qed.

Lemma drop_head (k n : nat) (s : string) (c : ascii) (t : string) :
  String.substring k (S n) s = String c t -> exists rest, drop k s = String c rest.
Proof.
  revert s; induction k as [|k IH]; intros s H.
  - destruct s as [|c' s]; simpl in *; [discriminate|].
    injection H as -> _. now eexists.
  - destruct s as [|c' s]; simpl in *; [discriminate|]. now apply IH.
Qed.

Lemma length_drop (k : nat) (s : string) :
  (String.length (drop k s) = String.length s - k)%nat.
Proof.
  revert s; induction k as [|k IH]; intros s; simpl; [lia|].
  destruct s as [|c s]; simpl; [reflexivity|apply IH].
Qed.

Lemma substring_prefix_append (x b : string) :
  String.substring 0 (String.length x) (x +++ b) = x.
Proof. induction x as [|c x IH]; simpl; [now destruct b|now rewrite IH]. Qed.

Lemma substring_middle (a x b : string) :
  String.substring (String.length a) (String.length x) (a +++ x +++ b) = x.
Proof. induction a as [|c a IH]; simpl; [apply substring_prefix_append|exact IH]. Qed.

(** A text includes whatever stands in its middle. *)
Lemma includes_middle (a x b : string) : includes x (a +++ x +++ b) = true.
Proof.
  unfold includes. destruct (String.index 0 x (a +++ x +++ b)) eqn:E; [reflexivity|].
  exfalso. destruct x as [|c x].
  - destruct (a +++ "" +++ b); simpl in E; discriminate.
  - apply (String.index_correct3 0 (String.length a) _ _ E); [discriminate|lia|].
    apply substring_middle.
Qed.

Lemma includes_suffix (a x : string) : includes x (a +++ x) = true.
Proof.
  replace (a +++ x) with (a +++ x +++ "").
  - apply includes_middle.
  - f_equal. induction x as [|c x IH]; simpl; [reflexivity|now rewrite IH].
Qed.

(** ** The fallback tool-call parser *)

(** [scanBraces], entered with a positive depth [d], stops at the first
    position where [d] plus the depth of what was read is zero, and finds
    none exactly when that sum stays positive to the end of the text. *)
Lemma braceDepth_prefix_S (c : ascii) (m : nat) (rest : string) :
  braceDepth (String.substring 0 (S m) (String c rest))
  = braceDelta c + braceDepth (String.substring 0 m rest).
Proof. reflexivity. Qed.

Lemma braceDepth_prefix_0 (rest : string) : braceDepth (String.substring 0 0 rest) = 0.
Proof. destruct rest; reflexivity. Qed.

Lemma scanBraces_spec (rest : string) :
  forall (ci : nat) (d : Z),
    0 < d ->
    match scanBraces rest ci d with
    | Some endIdx =>
      exists n, endIdx = (ci + n)%nat
                /\ (0 < n <= String.length rest)%nat
                /\ d + braceDepth (String.substring 0 n rest) = 0
                /\ forall m, (m < n)%nat -> 0 < d + braceDepth (String.substring 0 m rest)
    | None =>
      forall m, (m <= String.length rest)%nat ->
                0 < d + braceDepth (String.substring 0 m rest)
    end.
Proof.
  induction rest as [|c rest IH]; intros ci d Hd.
  - intros m Hm. destruct m; simpl; lia.
  - assert (Hstep : forall d', 0 < d' -> d' = d + braceDelta c ->
              match scanBraces rest (S ci) d' with
              | Some endIdx =>
                exists n, endIdx = (ci + n)%nat
                  /\ (0 < n <= String.length (String c rest))%nat
                  /\ d + braceDepth (String.substring 0 n (String c rest)) = 0
                  /\ forall m, (m < n)%nat ->
                               0 < d + braceDepth (String.substring 0 m (String c rest))
              | None =>
                forall m, (m <= String.length (String c rest))%nat ->
                          0 < d + braceDepth (String.substring 0 m (String c rest))
              end).
    { intros d' Hd' Heq. specialize (IH (S ci) d' Hd').
      destruct (scanBraces rest (S ci) d') as [e|].
      - destruct IH as (n & -> & Hn & Hz & Hlt). exists (S n).
        rewrite braceDepth_prefix_S. cbn [String.length]. repeat split; try lia.
        intros [|m] Hm; [rewrite braceDepth_prefix_0; lia|].
        rewrite braceDepth_prefix_S. specialize (Hlt m ltac:(lia)). lia.
      - intros [|m] Hm; [rewrite braceDepth_prefix_0; lia|].
        rewrite braceDepth_prefix_S. cbn [String.length] in Hm.
        specialize (IH m ltac:(lia)). lia. }
    cbn [scanBraces]. unfold braceDelta in Hstep.
    destruct (Ascii.eqb c "{") eqn:Eo.
    + apply Ascii.eqb_eq in Eo; subst c. cbn [Ascii.eqb Bool.eqb].
      apply Hstep; lia.
    + destruct (Ascii.eqb c "}") eqn:Ec.
      * destruct (d - 1 =? 0) eqn:Ez.
        -- apply Z.eqb_eq in Ez. exists 1%nat.
           rewrite braceDepth_prefix_S, braceDepth_prefix_0. unfold braceDelta.
           rewrite Eo, Ec. cbn [String.length]. repeat split; try lia.
           intros [|m] Hm; [rewrite braceDepth_prefix_0; lia|lia].
        -- apply Z.eqb_neq in Ez. apply Hstep; lia.
      * apply Hstep; lia.
Qed.


(** C8. For every reply text the fallback parser yields a tool call only
    when the marker occurs in the text, and then it reads from the first
    occurrence [startIdx] to the first position [endIdx] at which the brace
    depth is back at zero, which lies within the text; the call is the
    [tool] and [args] of what [JSON.parse] makes of that slice.  When the
    marker is absent, the depth never returns to zero before the text ends,
    the slice does not parse or has no [tool], there is no tool call and
    the text itself is the result: a final answer, never an error (the
    result is a value for every text). *)
Theorem parseToolCall_spec :
  forall text : string,
    match parseToolCall text with
    | Some tc =>
      resultOfText text
      = {| cr_content := ""; cr_processingLocation := local; cr_toolCalls := Some [tc] |}
      /\ exists startIdx endIdx parsed,
        indexOf toolMarker text = Some startIdx
        /\ String.substring startIdx (String.length toolMarker) text = toolMarker
        /\ (forall p, (p < startIdx)%nat ->
                      String.substring p (String.length toolMarker) text <> toolMarker)
        /\ (startIdx < endIdx <= String.length text)%nat
        /\ braceDepth (slice startIdx endIdx text) = 0
        /\ (forall k, (startIdx < k < endIdx)%nat -> 0 < braceDepth (slice startIdx k text))
        /\ JSON_parse (slice startIdx endIdx text) = Some parsed
        /\ truthy (field "tool" parsed) = true
        /\ tc = {| tc_name := field "tool" parsed;
                   tc_arguments := jor (field "args" parsed) (JObj []) |}
    | None =>
      resultOfText text
      = {| cr_content := text; cr_processingLocation := local; cr_toolCalls := None |}
      /\ (indexOf toolMarker text = None
          \/ (exists startIdx,
                indexOf toolMarker text = Some startIdx
                /\ forall k, (startIdx < k <= String.length text)%nat ->
                             0 < braceDepth (slice startIdx k text))
          \/ (exists startIdx endIdx,
                indexOf toolMarker text = Some startIdx
                /\ (startIdx < endIdx <= String.length text)%nat
                /\ braceDepth (slice startIdx endIdx text) = 0
                /\ (JSON_parse (slice startIdx endIdx text) = None
                    \/ exists parsed,
                         JSON_parse (slice startIdx endIdx text) = Some parsed
                         /\ truthy (field "tool" parsed) = false)))
    end.
Proof.
  intros text. unfold resultOfText.
  destruct (parseToolCall text) as [tc|] eqn:Hparse; (split; [reflexivity|]);
    unfold parseToolCall in Hparse.
  all: destruct (indexOf toolMarker text) as [startIdx|] eqn:Hidx; [|try discriminate; now left].
  all: unfold indexOf in Hidx.
  all: pose proof (String.index_correct1 _ _ _ _ Hidx) as Hat.
  all: pose proof (String.index_correct2 _ _ _ _ Hidx) as Hfirst.
  all: assert (Hat' : String.substring startIdx 7 text = String "{" (quoted "tool"))
         by exact Hat.
  all: destruct (drop_head startIdx 6 text "{" _ Hat') as [rest Hrest].
  all: rewrite Hrest in Hparse; cbn [scanBraces Ascii.eqb Bool.eqb] in Hparse.
  all: change (0 + 1 - 1 =? 0) with true in Hparse; change (0 + 1) with 1 in Hparse.
  all: pose proof (scanBraces_spec rest (S startIdx) 1 ltac:(lia)) as Hscan.
  all: pose proof (length_drop startIdx text) as Hlen; rewrite Hrest in Hlen;
       cbn [String.length] in Hlen.
  all: assert (Hslice : forall n, slice startIdx (S startIdx + n) text
                                  = String "{" (String.substring 0 n rest))
         by (intros n; unfold slice;
             replace (S startIdx + n - startIdx)%nat with (S n) by lia;
             rewrite <- substring_drop, Hrest; reflexivity).
  all: assert (Hdepth : forall n, braceDepth (slice startIdx (S startIdx + n) text)
                                  = 1 + braceDepth (String.substring 0 n rest))
         by (intros n; rewrite Hslice; reflexivity).
  all: destruct (scanBraces rest (S startIdx) 1) as [endIdx|];
       [destruct Hscan as (n & -> & Hn & Hz & Hlt)|].
  - assert (Hlt' : (startIdx <? S startIdx + n)%nat = true) by (apply Nat.ltb_lt; lia).
    rewrite Hlt' in Hparse.
    destruct (JSON_parse (slice startIdx (S startIdx + n) text)) as [parsed|] eqn:Hjson;
      [|discriminate].
    destruct (truthy (field "tool" parsed)) eqn:Htool; [|discriminate].
    injection Hparse as <-.
    exists startIdx, (S startIdx + n)%nat, parsed.
    repeat split; try assumption; try lia.
    + intros p Hp. apply Hfirst; lia.
    + rewrite Hdepth. lia.
    + intros k Hk. replace k with (S startIdx + (k - S startIdx))%nat by lia.
      rewrite Hdepth. specialize (Hlt (k - S startIdx)%nat ltac:(lia)). lia.
  - discriminate.
  - right; right. exists startIdx, (S startIdx + n)%nat.
    assert (Hlt' : (startIdx <? S startIdx + n)%nat = true) by (apply Nat.ltb_lt; lia).
    rewrite Hlt' in Hparse.
    repeat split; try reflexivity; try lia.
    + rewrite Hdepth. lia.
    + destruct (JSON_parse (slice startIdx (S startIdx + n) text)) as [parsed|];
        [|now left].
      right. exists parsed. split; [reflexivity|].
      destruct (truthy (field "tool" parsed)); [discriminate|reflexivity].
  - right; left. exists startIdx. split; [reflexivity|].
    intros k Hk. replace k with (S startIdx + (k - S startIdx))%nat by lia.
    rewrite Hdepth. specialize (Hscan (k - S startIdx)%nat ltac:(lia)). lia.
Qed.


(** ** The gateway's retry without tools *)

Lemma includes_cons (x t : string) (c : ascii) :
  includes x t = true -> includes x (String c t) = true.
Proof.
  unfold includes. intros H. cbn [String.index].
  destruct (String.prefix x (String c t)); [reflexivity|].
  destruct (String.index 0 x t); [reflexivity|discriminate].
Qed.

Lemma includes_append_left (x p t : string) :
  includes x t = true -> includes x (p +++ t) = true.
Proof. intros H. induction p as [|c p IH]; simpl; [exact H|now apply includes_cons]. Qed.

Ltac find_included :=
  first [ apply (includes_middle "") | apply includes_append_left; find_included ].

Lemma toolInstructions_catalog (hasPageContent : bool) (descriptions : string) :
  includes descriptions (toolInstructions hasPageContent descriptions) = true
  /\ includes toolCallExample (toolInstructions hasPageContent descriptions) = true.
Proof. unfold toolInstructions. destruct hasPageContent; split; find_included. Qed.

(** What the retry does to the conversation: a system message gets the
    tool instructions, with the catalog and the example of a call, appended
    to its text; every other message is passed on as it is. *)
Definition catalogAppended (descriptions : string) (m m' : Message) : Prop :=
  role m' = role m
  /\ if (role m =? "system")%string then
       exists instructions,
         content m' = content m +++ instructions
         /\ includes descriptions instructions = true
         /\ includes toolCallExample instructions = true
     else m' = m.

Lemma fallbackMessage_catalog (descriptions : string) (messages : list Message) :
  Forall2 (catalogAppended descriptions) messages
          (map (fallbackMessage descriptions) messages).
Proof.
  induction messages as [|m messages IH]; simpl; constructor; [|exact IH].
  unfold catalogAppended, fallbackMessage.
  destruct (role m =? "system")%string; simpl; [|now split].
  split; [reflexivity|]. eexists. split; [reflexivity|].
  apply toolInstructions_catalog.
Qed.

(** The retry, when the first reply has status 400. *)
Lemma llmChat_retry_on_400 :
  forall (messages : list Message) (tools : list OllamaToolSchema) (w : World)
         (res1 : HttpResponse),
    provider (llmConfig w) = ollama ->
    tools <> [] ->
    httpReply env (S (length (trace w)))
      (OllamaChat (model (llmConfig w)) messages (Some tools)) = Ok res1 ->
    status res1 = 400 ->
    let retry :=
      OllamaChat (model (llmConfig w))
        (map (fallbackMessage (toolDescriptions tools)) messages) None in
    let r := fst (llmChat messages (Some tools) w) in
    let w' := snd (llmChat messages (Some tools) w) in
    (exists line,
        trace w' = trace w ++ [ConsoleLog line;
                               Fetch (OllamaChat (model (llmConfig w)) messages (Some tools));
                               Fetch retry])
    /\ Forall2 (catalogAppended (toolDescriptions tools)) messages
               (map (fallbackMessage (toolDescriptions tools)) messages)
    /\ match httpReply env (S (S (length (trace w)))) retry with
       | Ok res2 =>
         if res_ok res2 then
           match body res2 with
           | Ok data =>
             match parseToolCall (contentOf data) with
             | Some tc =>
               r = Ok {| cr_content := ""; cr_processingLocation := local;
                         cr_toolCalls := Some [tc] |}
             | None =>
               r = Ok {| cr_content := contentOf data; cr_processingLocation := local;
                         cr_toolCalls := None |}
             end
           | Throw e => r = Throw e
           end
         else r = Throw ("Error: Ollama error: " +++ string_of_Z (status res2))
       | Throw e => r = Throw e
       end.
Proof.
  intros messages tools w res1 Hprov Htools Hres1 Hstatus retry r w'.
  subst r w' retry.
  split; [|split; [apply fallbackMessage_catalog|]].
  all: unfold llmChat, fetch, consoleLog, throwError, liftRes, bind, ret, throw, gets, modify.
  all: rewrite Hprov.
  all: destruct tools as [|t tools]; [contradiction|]; cbn [hasTools].
  all: rewrite !length_trace_emit, Hres1.
  all: unfold res_ok; rewrite Hstatus; cbn [Z.leb Z.compare Pos.compare Pos.compare_cont
                                           andb negb Z.eqb Pos.eqb].
  all: cbv beta iota; rewrite ?length_trace_emit.
  all: destruct (httpReply env (S (S (length (trace w)))) _) as [res2|e]; cbn [fst snd].
  all: try destruct ((200 <=? status res2) && (status res2 <=? 299)); cbn [negb fst snd].
  all: try destruct (body res2) as [data|e]; cbn [fst snd].
  all: rewrite ?trace_emit, <- ?app_assoc; cbn [app].
  all: try (eexists; reflexivity).
  all: try reflexivity.
  unfold resultOfText. destruct (parseToolCall (contentOf data)); reflexivity.
Qed.

(** C7, as the code has it.  When the local backend rejects a request that
    carries tools, what the gateway does depends on the status of the
    reply.  On HTTP status 400 it sends the same turn once more, and only
    once: without the tools, and with the tool catalog and the calling
    instructions appended to each system message.  When that second
    request is answered successfully, the reply text is parsed for an
    embedded tool call, and a well-formed one is returned as the turn's
    tool call, with empty content, as a native call would be; a reply
    without one is returned as text.  A second failure is thrown, not
    retried.  On every other failure status the one request is all that is
    sent, and the failure is thrown. *)
Theorem llmChat_retries_without_tools_on_400 :
  forall (messages : list Message) (tools : list OllamaToolSchema) (w : World)
         (res1 : HttpResponse),
    provider (llmConfig w) = ollama ->
    tools <> [] ->
    httpReply env (S (length (trace w)))
      (OllamaChat (model (llmConfig w)) messages (Some tools)) = Ok res1 ->
    res_ok res1 = false ->
    let first := OllamaChat (model (llmConfig w)) messages (Some tools) in
    let retry :=
      OllamaChat (model (llmConfig w))
        (map (fallbackMessage (toolDescriptions tools)) messages) None in
    let r := fst (llmChat messages (Some tools) w) in
    let w' := snd (llmChat messages (Some tools) w) in
    if status res1 =? 400 then
      (exists line, trace w' = trace w ++ [ConsoleLog line; Fetch first; Fetch retry])
      /\ Forall2 (catalogAppended (toolDescriptions tools)) messages
                 (map (fallbackMessage (toolDescriptions tools)) messages)
      /\ match httpReply env (S (S (length (trace w)))) retry with
         | Ok res2 =>
           if res_ok res2 then
             match body res2 with
             | Ok data =>
               match parseToolCall (contentOf data) with
               | Some tc =>
                 r = Ok {| cr_content := ""; cr_processingLocation := local;
                           cr_toolCalls := Some [tc] |}
               | None =>
                 r = Ok {| cr_content := contentOf data; cr_processingLocation := local;
                           cr_toolCalls := None |}
               end
             | Throw e => r = Throw e
             end
           else r = Throw ("Error: Ollama error: " +++ string_of_Z (status res2))
         | Throw e => r = Throw e
         end
    else
      (exists line, trace w' = trace w ++ [ConsoleLog line; Fetch first])
      /\ r = Throw ("Error: Ollama error: " +++ string_of_Z (status res1)).
Proof.
  intros messages tools w res1 Hprov Htools Hres1 Hrejected first retry r w'.
  destruct (status res1 =? 400) eqn:Hstatus.
  - apply Z.eqb_eq in Hstatus.
    exact (llmChat_retry_on_400 messages tools w res1 Hprov Htools Hres1 Hstatus).
  - subst r w' first retry.
    unfold llmChat, fetch, consoleLog, throwError, liftRes, bind, ret, throw, gets, modify.
    rewrite Hprov. destruct tools as [|t tools]; [contradiction|]. cbn [hasTools].
    rewrite !length_trace_emit, Hres1. cbv beta iota.
    rewrite Hrejected, Hstatus. cbn [negb andb fst snd].
    split; [|reflexivity].
    rewrite !trace_emit, <- app_assoc. cbn [app]. eexists. reflexivity.
Qed.


Lemma prefix_append (x a b : string) :
  String.prefix x a = true -> String.prefix x (a +++ b) = true.
Proof.
  revert x; induction a as [|c a IH]; intros x H.
  - destruct x; [|discriminate]. now destruct b.
  - destruct x as [|d x]; [reflexivity|]. simpl in *.
    destruct (ascii_dec d c); [now apply IH|discriminate].
Qed.


(** ** Frame reasoning

    Most facts below say that an operation leaves some aspect of the world
    alone, or only lets it grow.  Such an aspect is a preorder [R] on
    worlds; an operation preserves it when the world it ends in is related
    to the one it started in, whatever it returns or throws. *)

Create HintDb frame.

Definition preserves (R : World -> World -> Prop) {A} (m : M A) : Prop :=
  forall w, R w (snd (m w)).

(** What [R] has to allow for the worker's operations to preserve it: it
    is a preorder, and it admits a clock read, an update of the permission
    store, of the tool-call state and of the plan, one more audit event (a
    session update that keeps the data entries), any effect other than an
    iteration log line, a push to the tabs, and one more data entry of an
    [allowed] sensitivity. *)
Record Framed (R : World -> World -> Prop) (allowed : Sensitivity -> Prop) : Prop := {
  fr_refl : forall w, R w w;
  fr_trans : forall a b c, R a b -> R b c -> R a c;
  fr_tick : forall w, R w (tick w);
  fr_permissions : forall ps w, R w (set_permissions ps w);
  fr_toolCallState :
    forall s w, error s = error (toolCallState w) -> R w (set_toolCallState s w);
  fr_currentPlan : forall p w, R w (set_currentPlan p w);
  fr_session :
    forall s w, dataEntries s = dataEntries (sessionState w) -> R w (set_sessionState s w);
  fr_emit : forall e w, isIterationLog e = false -> R w (emit e w);
  fr_push : forall p w, R w (push p w);
  fr_entry : forall e w, allowed (de_sensitivity e) -> R w (appendEntry e w)
}.

Section Frame.

Variable R : World -> World -> Prop.
Variable allowed : Sensitivity -> Prop.
Hypothesis F : Framed R allowed.

Let R_refl := fr_refl _ _ F.
Let R_trans := fr_trans _ _ F.
Let R_tick := fr_tick _ _ F.
Let R_permissions := fr_permissions _ _ F.
Let R_toolCallState := fr_toolCallState _ _ F.
Let R_currentPlan := fr_currentPlan _ _ F.
Let R_session := fr_session _ _ F.
Let R_emit := fr_emit _ _ F.
Let R_push := fr_push _ _ F.
Let R_entry := fr_entry _ _ F.

(** The tool loop adds entries of sensitivity [low]. *)
Hypothesis allowed_low : allowed low.

Lemma preserves_ret {A} (a : A) : preserves R (ret a).
Proof. intros w. apply R_refl. Qed.

Lemma preserves_throw {A} (e : string) : preserves R (@throw A e).
Proof. intros w. apply R_refl. Qed.

Lemma preserves_throwError {A} (e : string) : preserves R (@throwError A e).
Proof. intros w. apply R_refl. Qed.

Lemma preserves_gets {A} (f : World -> A) : preserves R (gets f).
Proof. intros w. apply R_refl. Qed.

Lemma preserves_liftRes {A} (r : Res A) : preserves R (liftRes r).
Proof. intros w. apply R_refl. Qed.

Lemma preserves_bind {A B} (m : M A) (k : A -> M B) :
  preserves R m -> (forall a, preserves R (k a)) -> preserves R (bind m k).
Proof.
  intros Hm Hk w. unfold bind. specialize (Hm w).
  destruct (m w) as [[a|e] w1]; cbn in *; [|exact Hm].
  eapply R_trans; [exact Hm|apply Hk].
Qed.

Lemma preserves_tryCatch {A} (m : M A) (h : string -> M A) :
  preserves R m -> (forall e, preserves R (h e)) -> preserves R (tryCatch m h).
Proof.
  intros Hm Hh w. unfold tryCatch. specialize (Hm w).
  destruct (m w) as [[a|e] w1]; cbn in *; [exact Hm|].
  eapply R_trans; [exact Hm|apply Hh].
Qed.

Lemma preserves_dateNow : preserves R dateNow.
Proof. intros w. apply R_tick. Qed.

Lemma preserves_modify_session (f : SessionState -> SessionState) :
  (forall s, dataEntries (f s) = dataEntries s) ->
  preserves R (modify (fun w => set_sessionState (f (sessionState w)) w)).
Proof. intros Hf w. apply R_session, Hf. Qed.

Lemma preserves_savePermissions (ps : list Permission) : preserves R (savePermissions ps).
Proof. intros w. apply R_permissions. Qed.

Lemma preserves_sendToTab (tabId : Z) (msg : TabMsg) : preserves R (sendToTab tabId msg).
Proof. intros w. now apply R_emit. Qed.

Lemma preserves_showPermissionDialog (tabId : Z) (permType : PermissionType)
    (reason sensitivity : string) :
  preserves R (showPermissionDialog tabId permType reason sensitivity).
Proof. intros w. now apply R_emit. Qed.

Lemma preserves_tabsGet (tabId : Z) : preserves R (tabsGet tabId).
Proof. intros w. now apply R_emit. Qed.

Lemma preserves_chromeTabsCreate (url : json) : preserves R (chromeTabsCreate url).
Proof. intros w. now apply R_emit. Qed.

Lemma preserves_fetch (req : ChatRequest) : preserves R (fetch req).
Proof. intros w. now apply R_emit. Qed.

Lemma preserves_callMcpTool (serverUrl toolName : string) (args : json) :
  preserves R (callMcpTool serverUrl toolName args).
Proof.
  unfold callMcpTool. apply preserves_bind; [apply preserves_dateNow|intros _].
  intros w. now apply R_emit.
Qed.

Lemma preserves_syncState : preserves R syncState.
Proof. intros w. apply R_push. Qed.

Lemma preserves_broadcastToolUpdate : preserves R broadcastToolUpdate.
Proof. intros w. apply R_push. Qed.

Lemma preserves_consoleLog (line : string) :
  isIterationLog (ConsoleLog line) = false -> preserves R (consoleLog line).
Proof. intros H w. now apply R_emit. Qed.

Lemma preserves_pushCall (c : ToolCallEvent) : preserves R (pushCall c).
Proof. intros w. now apply R_toolCallState. Qed.

Lemma preserves_finishWith (answer : string) : preserves R (finishWith answer).
Proof. intros w. now apply R_toolCallState. Qed.

#[local] Hint Resolve preserves_ret preserves_throw preserves_throwError preserves_gets
  preserves_liftRes preserves_dateNow preserves_savePermissions preserves_sendToTab
  preserves_showPermissionDialog preserves_tabsGet preserves_chromeTabsCreate
  preserves_fetch preserves_callMcpTool preserves_pushCall preserves_finishWith
  preserves_syncState preserves_broadcastToolUpdate
  : frame.

Ltac frame :=
  repeat first
    [ progress intros
    | solve [auto with frame]
    | apply preserves_bind
    | apply preserves_tryCatch
    | apply preserves_consoleLog; reflexivity
    | match goal with
      | |- preserves _ (match ?x with _ => _ end) => destruct x
      end ].

Lemma preserves_addAuditEvent (type : EventType.t) (origin : string) (detail : json)
    (userAction : option string) (tokensInvolved : option Z) (location : Location) :
  preserves R (addAuditEvent type origin detail userAction tokensInvolved location).
Proof.
  unfold addAuditEvent. frame. intros w. now apply R_session.
Qed.

Lemma preserves_addDataEntry (origin originType dataType : string) (tokenCount : Z)
    (sensitivity : Sensitivity) (entryMethod : string) :
  allowed sensitivity ->
  preserves R (addDataEntry origin originType dataType tokenCount sensitivity entryMethod).
Proof.
  intros Hs. unfold addDataEntry.
  apply preserves_bind; [apply preserves_dateNow|intros _].
  apply preserves_bind; [apply preserves_dateNow|intros timestamp].
  apply preserves_bind; [|intros _; apply preserves_syncState].
  intros w.
  apply (R_entry {| de_origin := origin; de_originType := originType;
                    de_dataType := dataType; de_tokenCount := tokenCount;
                    de_sensitivity := sensitivity; de_entryMethod := entryMethod;
                    de_timestamp := timestamp |}).
  exact Hs.
Qed.

Lemma preserves_checkPermission (type : PermissionType) (origin : string) (tabId : Z) :
  preserves R (checkPermission type origin tabId).
Proof. unfold checkPermission, loadPermissions. frame. Qed.

Lemma preserves_grantPermission (type : PermissionType) (scope : PermissionScope)
    (origin : string) (tabId : Z) :
  preserves R (grantPermission type scope origin tabId).
Proof. unfold grantPermission, loadPermissions. frame. Qed.

#[local] Hint Resolve preserves_addAuditEvent preserves_addDataEntry
  preserves_checkPermission preserves_grantPermission : frame.

Lemma preserves_ensurePermission (tabId : Z) (permType : PermissionType)
    (origin reason sensitivity : string) :
  preserves R (ensurePermission tabId permType origin reason sensitivity).
Proof. unfold ensurePermission. frame. Qed.

Lemma preserves_llmChat (messages : list Message) (tools : option (list OllamaToolSchema)) :
  preserves R (llmChat messages tools).
Proof. unfold llmChat. frame. Qed.

Lemma preserves_tabOrigin (tabId : Z) : preserves R (tabOrigin tabId).
Proof. unfold tabOrigin. frame. Qed.

Lemma preserves_routeToContentScript (toolName args : json) (tabId : Z) :
  preserves R (routeToContentScript toolName args tabId).
Proof. unfold routeToContentScript. frame. Qed.

#[local] Hint Resolve preserves_ensurePermission preserves_llmChat preserves_tabOrigin
  preserves_routeToContentScript : frame.

Lemma preserves_checkToolPermission (builtIn : Member) (toolName : json) (tabId : Z) :
  preserves R (checkToolPermission builtIn toolName tabId).
Proof. unfold checkToolPermission. frame. Qed.

#[local] Hint Resolve preserves_checkToolPermission : frame.

Lemma preserves_executeToolCall (toolName args : json) (tabId : Z) :
  preserves R (executeToolCall toolName args tabId).
Proof. unfold executeToolCall, loadMcpServers. frame. Qed.

#[local] Hint Resolve preserves_executeToolCall : frame.

Lemma preserves_toolCallStep (i : nat) (tabId : Z) (location : Location) (tc : ToolCall)
    (messages : list Message) :
  preserves R (toolCallStep i tabId location tc messages).
Proof. unfold toolCallStep. frame. Qed.

Lemma preserves_forEachToolCall (step : ToolCall -> list Message -> M (list Message))
    (toolCalls : list ToolCall) :
  (forall tc messages, preserves R (step tc messages)) ->
  forall messages, preserves R (forEachToolCall step toolCalls messages).
Proof.
  intros Hstep. induction toolCalls as [|tc rest IH]; intros messages; simpl.
  - apply preserves_ret.
  - apply preserves_bind; [apply Hstep|exact IH].
Qed.

Lemma preserves_recordPreRead (tabId : Z) (pageContext : string) :
  preserves R (recordPreRead tabId pageContext).
Proof. unfold recordPreRead. frame. Qed.

#[local] Hint Resolve preserves_recordPreRead : frame.

Lemma preserves_preReadPage (tabId : Z) : preserves R (preReadPage tabId).
Proof. unfold preReadPage. frame. Qed.

Lemma preserves_directAnswer (intent pageContext : string) (location : Location) :
  preserves R (directAnswer intent pageContext location).
Proof. unfold directAnswer. frame. Qed.

Lemma preserves_turn (i : nat) (tools : list OllamaToolSchema) (tabId : Z)
    (location : Location) (messages : list Message) :
  preserves R (turn i tools tabId location messages).
Proof.
  unfold turn.
  apply preserves_bind; [apply preserves_llmChat|intros response].
  destruct (cr_toolCalls response) as [[|tc tcs]|].
  2: { apply preserves_bind; [|intros; apply preserves_ret].
       apply preserves_forEachToolCall. intros; apply preserves_toolCallStep. }
  all: frame.
Qed.

(** Plan execution also adds entries of sensitivity [medium]. *)
Section Plan.

Hypothesis allowed_medium : allowed medium.

Lemma preserves_updateStep (stepIdx : nat) (f : TaskStep -> TaskStep) :
  preserves R (updateStep stepIdx f).
Proof.
  intros w. unfold updateStep, modify. cbn [snd].
  destruct (currentPlan w); [apply R_currentPlan|apply R_refl].
Qed.

Lemma preserves_getStep (stepIdx : nat) : preserves R (getStep stepIdx).
Proof. apply preserves_gets. Qed.

Lemma preserves_setProcessingLocation (loc : Location) :
  preserves R (setProcessingLocation loc).
Proof. intros w. now apply R_session. Qed.

Lemma preserves_addContextUsed (n : Z) : preserves R (addContextUsed n).
Proof. intros w. now apply R_session. Qed.

#[local] Hint Resolve preserves_updateStep preserves_getStep
  preserves_setProcessingLocation preserves_addContextUsed : frame.

Lemma preserves_runStepTool (step : TaskStep) (tabId : Z) :
  preserves R (runStepTool step tabId).
Proof. unfold runStepTool. frame. Qed.

Lemma preserves_analyseStep (stepIdx : nat) (plan : TaskPlan) (step : TaskStep)
    (toolResult resultData : json) (serialized : string) (cfg : LLMConfig) :
  preserves R (analyseStep stepIdx plan step toolResult resultData serialized cfg).
Proof. unfold analyseStep. frame. Qed.

#[local] Hint Resolve preserves_runStepTool preserves_analyseStep : frame.

Lemma preserves_runStep (stepIdx : nat) (plan : TaskPlan) (step : TaskStep) (tabId : Z)
    (origin : string) (cfg : LLMConfig) :
  preserves R (runStep stepIdx plan step tabId origin cfg).
Proof.
  unfold runStep. apply preserves_tryCatch; [|frame].
  apply preserves_bind; [frame|intros toolResult].
  destruct (negb (truthy (field "success" toolResult))); [frame|].
  apply preserves_bind; [frame|intros serialized].
  apply preserves_bind; [|frame].
  apply preserves_addDataEntry.
  destruct (gt_zero _); [exact allowed_medium|exact allowed_low].
Qed.

#[local] Hint Resolve preserves_runStep : frame.

Lemma preserves_executeStep (stepIdx : nat) (tabId : Z) :
  preserves R (executeStep stepIdx tabId).
Proof. unfold executeStep. frame. Qed.

End Plan.

(** The loop itself logs its iterations and records a failure, so it
    preserves [R] when [R] admits those too. *)
Section Loop.

Hypothesis R_log : forall line w, R w (emit (ConsoleLog line) w).
Hypothesis R_reset : forall s w, R w (set_toolCallState s w).

Lemma preserves_iteration (i : nat) (tools : list OllamaToolSchema) (tabId : Z)
    (location : Location) (messages : list Message) :
  preserves R (iteration i tools tabId location messages).
Proof.
  unfold iteration. apply preserves_bind; [intros w; apply R_log|intros _].
  apply preserves_turn.
Qed.

Lemma preserves_failWith (err : string) : preserves R (failWith err).
Proof. intros w. apply R_reset. Qed.

Lemma preserves_toolLoop (remaining : nat) (tools : list OllamaToolSchema) (tabId : Z)
    (location : Location) :
  forall i messages, preserves R (toolLoop remaining i tools tabId location messages).
Proof.
  induction remaining as [|remaining IH]; intros i messages; simpl.
  - apply preserves_bind; [apply preserves_finishWith|intros _].
    apply preserves_broadcastToolUpdate.
  - apply preserves_bind.
    + apply preserves_tryCatch; [apply preserves_iteration|].
      intros e. apply preserves_bind; [apply preserves_failWith|intros _].
      apply preserves_bind; [apply preserves_broadcastToolUpdate|intros; apply preserves_ret].
    + intros [messages'|]; [apply IH|apply preserves_ret].
Qed.

Lemma preserves_runToolCallLoop (intent : string) (tabId : Z) :
  preserves R (runToolCallLoop intent tabId).
Proof.
  unfold runToolCallLoop, getAllMcpTools, loadMcpServers.
  apply preserves_bind; [intros w; apply R_reset|intros _].
  apply preserves_bind; [apply preserves_gets|intros cfg].
  apply preserves_bind; [frame|intros mcpTools].
  apply preserves_bind; [apply preserves_preReadPage|intros pageContext].
  apply preserves_bind; [apply preserves_broadcastToolUpdate|intros _].
  apply preserves_bind.
  - destruct (negb (pageContext =? "")%string);
      [apply preserves_directAnswer|apply preserves_ret].
  - intros [|]; [apply preserves_ret|apply preserves_toolLoop].
Qed.

End Loop.

End Frame.


(** *** Four aspects of the world *)

(** No iteration of the tool loop is logged. *)
Definition sameIterations (w w' : World) : Prop :=
  iterationsLogged (trace w') = iterationsLogged (trace w).

(** The trace only grows. *)
Definition traceGrows (w w' : World) : Prop :=
  exists ext, trace w' = trace w ++ ext.

(** The data entries are kept as they are, and those added have an
    [allowed] sensitivity. *)
Definition entriesGrow (allowed : Sensitivity -> Prop) (w w' : World) : Prop :=
  exists ext,
    dataEntries (sessionState w') = dataEntries (sessionState w) ++ ext
    /\ Forall (fun e => allowed (de_sensitivity e)) ext.

(** No failure is recorded in the tool-call state. *)
Definition errorKept (w w' : World) : Prop :=
  error (toolCallState w') = error (toolCallState w).

Lemma iterationsLogged_emit (e : Effect) (w : World) :
  iterationsLogged (trace (emit e w))
  = (iterationsLogged (trace w) + if isIterationLog e then 1 else 0)%nat.
Proof.
  unfold iterationsLogged. rewrite trace_emit, filter_app, length_app. simpl.
  now destruct (isIterationLog e).
Qed.

Lemma sameIterations_framed : Framed sameIterations (fun _ => True).
Proof.
  constructor; unfold sameIterations.
  - reflexivity.
  - intros a b c Hab Hbc. congruence.
  - reflexivity.
  - reflexivity.
  - reflexivity.
  - reflexivity.
  - reflexivity.
  - intros e w He. rewrite iterationsLogged_emit, He. lia.
  - reflexivity.
  - reflexivity.
Qed.

Lemma traceGrows_framed : Framed traceGrows (fun _ => True).
Proof.
  assert (Hsame : forall w w', trace w' = trace w -> traceGrows w w')
    by (intros w w' H; exists []; now rewrite app_nil_r).
  constructor; try (intros; now apply Hsame).
  - intros a b c [x Hx] [y Hy]. exists (x ++ y). now rewrite Hy, Hx, app_assoc.
  - intros e w _. now exists [e].
Qed.

Lemma entriesGrow_framed (allowed : Sensitivity -> Prop) :
  Framed (entriesGrow allowed) allowed.
Proof.
  assert (Hsame : forall w w',
             dataEntries (sessionState w') = dataEntries (sessionState w) ->
             entriesGrow allowed w w')
    by (intros w w' H; exists []; rewrite app_nil_r; now split).
  constructor; try (intros; now apply Hsame).
  - intros a b c (x & Hx & Hax) (y & Hy & Hay). exists (x ++ y).
    rewrite Hy, Hx, app_assoc. split; [reflexivity|]. apply Forall_app; now split.
  - intros e w He. exists [e]. split; [reflexivity|]. now constructor.
Qed.

(** The data entries are left as they are. *)
Definition sameEntries (w w' : World) : Prop :=
  dataEntries (sessionState w') = dataEntries (sessionState w).

Lemma sameEntries_framed : Framed sameEntries (fun _ => False).
Proof.
  constructor; unfold sameEntries; intros; try contradiction; try congruence;
    try reflexivity.
  assumption.
Qed.

Lemma errorKept_framed : Framed errorKept (fun _ => True).
Proof.
  constructor; unfold errorKept; intros; try exact I; try congruence; try reflexivity.
  assumption.
Qed.

(** ** The tool-call loop ends *)

(** [continues remaining i messages w w']: from world [w], the next
    [remaining] iterations of the loop, the first of them numbered [i],
    each end with the loop going on, that is with a reply that carried
    tool calls, all of them carried out without an exception; [w'] is the
    world the last of them ends in. *)
Inductive continues (tools : list OllamaToolSchema) (tabId : Z) (location : Location)
    : nat -> nat -> list Message -> World -> World -> Prop :=
| continues_done (i : nat) (messages : list Message) (w : World) :
    continues tools tabId location 0 i messages w w
| continues_step (remaining i : nat) (messages messages' : list Message)
    (w w1 w' : World) :
    iteration i tools tabId location messages w = (Ok (Continue messages'), w1) ->
    continues tools tabId location remaining (S i) messages' w1 w' ->
    continues tools tabId location (S remaining) i messages w w'.

(** The last push tells the tool-call state as it now is. *)
Definition reported (w : World) : Prop :=
  let s := toolCallState w in
  exists before,
    pushes w
    = before ++ [TOOL_CALL_UPDATE (running s) (length (calls s)) (finalAnswer s) (error s)].

(** An iteration, guarded by its [catch], never throws, and when it ends
    the loop the loop is marked as not running and the tabs are told. *)
Lemma iteration_guarded (i : nat) (tools : list OllamaToolSchema) (tabId : Z)
    (location : Location) (messages : list Message) (w : World) :
  match tryCatch (iteration i tools tabId location messages)
                 (fun err => failWith err ;; broadcastToolUpdate ;; ret Return) w with
  | (Ok (Continue _), _) => True
  | (Ok Return, w1) => running (toolCallState w1) = false /\ reported w1
  | (Throw _, _) => False
  end.
Proof.
  unfold tryCatch.
  destruct (iteration i tools tabId location messages w) as [[[messages'|]|e] w1] eqn:E;
    [exact I| |split; [reflexivity|eexists; reflexivity]].
  unfold iteration, consoleLog, modify, bind at 1 in E. unfold turn, bind at 1 in E.
  destruct (llmChat messages (Some tools) _) as [[response|e] w2]; [|discriminate].
  destruct (cr_toolCalls response) as [[|tc tcs]|].
  2: { unfold bind in E.
       destruct (forEachToolCall _ _ _ _) as [[m|e] w3]; cbn in E; discriminate. }
  all: cbn in E; injection E as <-; split; [reflexivity|eexists; reflexivity].
Qed.

Lemma toolLoop_returns (remaining : nat) (tools : list OllamaToolSchema) (tabId : Z)
    (location : Location) :
  forall i messages w,
    let w' := snd (toolLoop remaining i tools tabId location messages w) in
    fst (toolLoop remaining i tools tabId location messages w) = Ok tt
    /\ running (toolCallState w') = false
    /\ reported w'.
Proof.
  induction remaining as [|remaining IH]; intros i messages w.
  - split; [reflexivity|]. split; [reflexivity|]. eexists. reflexivity.
  - cbn [toolLoop]. rewrite bind_run.
    pose proof (iteration_guarded i tools tabId location messages w) as G.
    destruct (tryCatch _ _ w) as [[[messages'|]|e] w1];
      [apply IH|split; [reflexivity|exact G]|contradiction].
Qed.

Lemma toolLoop_iterations (remaining : nat) (tools : list OllamaToolSchema) (tabId : Z)
    (location : Location) :
  forall i messages w,
    (iterationsLogged (trace (snd (toolLoop remaining i tools tabId location messages w)))
     <= iterationsLogged (trace w) + remaining)%nat.
Proof.
  induction remaining as [|remaining IH]; intros i messages w.
  - change (trace (snd (toolLoop 0 i tools tabId location messages w))) with (trace w). lia.
  - cbn [toolLoop]. rewrite bind_run.
    assert (Hone : (iterationsLogged
                      (trace (snd (tryCatch (iteration i tools tabId location messages)
                                            (fun err => failWith err ;; broadcastToolUpdate ;;
                                                        ret Return) w)))
                    <= S (iterationsLogged (trace w)))%nat).
    { unfold tryCatch, iteration. rewrite bind_run. unfold consoleLog, modify.
      pose proof (preserves_turn _ _ sameIterations_framed I i tools tabId location messages
                                 (emit (ConsoleLog
                                          ("[OpenLens] Tool loop iteration "
                                           +++ string_of_Z (Z.of_nat (i + 1)) +++ "/"
                                           +++ string_of_Z (Z.of_nat maxIterations))) w))
        as Hturn.
      unfold sameIterations in Hturn. rewrite iterationsLogged_emit in Hturn.
      destruct (turn i tools tabId location messages _) as [[r|e] w1];
        cbn [fst snd failWith broadcastToolUpdate modify bind ret trace set_toolCallState push]
        in *.
      all: destruct (isIterationLog _); lia. }
    destruct (tryCatch _ _ w) as [[[messages'|]|e] w1]; cbn in *; try lia.
    specialize (IH (S i) messages' w1). lia.
Qed.

(** An iteration that lets the loop go on has logged its line, once. *)
Lemma iteration_logged (i : nat) (tools : list OllamaToolSchema) (tabId : Z)
    (location : Location) (messages messages' : list Message) (w w1 : World) :
  iteration i tools tabId location messages w = (Ok (Continue messages'), w1) ->
  iterationsLogged (trace w1) = S (iterationsLogged (trace w)).
Proof.
  intros E. unfold iteration in E. rewrite bind_run in E. unfold consoleLog, modify in E.
  match type of E with turn _ _ _ _ _ ?w0 = _ =>
    pose proof (preserves_turn _ _ sameIterations_framed I i tools tabId location messages w0)
      as Hturn end.
  rewrite E in Hturn. unfold sameIterations in Hturn. cbn [snd] in Hturn.
  rewrite Hturn, iterationsLogged_emit.
  match goal with |- context [isIterationLog ?e] =>
    replace (isIterationLog e) with true
      by (symmetry; apply (prefix_append "[OpenLens] Tool loop iteration "); reflexivity)
  end.
  lia.
Qed.

Lemma toolLoop_exhausted {tools : list OllamaToolSchema} {tabId : Z} {location : Location}
    {remaining i : nat} {messages : list Message} {w w' : World} :
  continues tools tabId location remaining i messages w w' ->
  toolLoop remaining i tools tabId location messages w
  = (Ok tt, snd (broadcastToolUpdate
                   (snd (finishWith "(Reached maximum tool call iterations)" w'))))
  /\ error (toolCallState w') = error (toolCallState w)
  /\ iterationsLogged (trace w') = (iterationsLogged (trace w) + remaining)%nat.
Proof.
  induction 1 as [i messages w|remaining i messages messages' w w1 w' Hit _ IH].
  - split; [reflexivity|]. split; [reflexivity|lia].
  - cbn [toolLoop]. rewrite bind_run. unfold tryCatch. rewrite Hit.
    destruct IH as (-> & -> & ->). split; [reflexivity|].
    pose proof (preserves_iteration _ _ errorKept_framed I
                  (fun line w => eq_refl) i tools tabId location messages w) as Hkept.
    rewrite Hit in Hkept. split; [exact Hkept|].
    rewrite (iteration_logged _ _ _ _ _ _ _ _ Hit). lia.
Qed.

Lemma preReadPage_returns (tabId : Z) (w : World) :
  exists pageContext, fst (preReadPage tabId w) = Ok pageContext.
Proof.
  unfold preReadPage. rewrite bind_run. unfold tryCatch at 1. rewrite bind_run.
  unfold sendToTab, ret.
  destruct (tabReply env _ _ _) as [pageResult|e]; [|now eexists].
  destruct (truthy (field "success" pageResult) && truthy (field "summary" pageResult));
    [|now eexists].
  rewrite bind_run. unfold tryCatch.
  destruct (recordPreRead _ _ _) as [[[]|e] w1]; now eexists.
Qed.

Lemma directAnswer_returns (intent pageContext : string) (location : Location) (w : World) :
  match directAnswer intent pageContext location w with
  | (Ok true, w') => running (toolCallState w') = false /\ reported w'
  | (Ok false, _) => True
  | (Throw _, _) => False
  end.
Proof.
  unfold directAnswer, tryCatch, bind at 1.
  destruct (llmChat _ None w) as [[response|e] w1]; [|exact I].
  destruct (negb (trim (cr_content response) =? "")%string
            && negb (startsWith toolMarker (trim (cr_content response)))
            && (10 <? js_length (trim (cr_content response)))%nat);
    [split; [reflexivity|eexists; reflexivity]|exact I].
Qed.

(** The tools a task offers the backend, and the conversation its loop
    starts from. *)
Definition offeredTools (w : World) : list OllamaToolSchema :=
  getAllToolSchemas
    (flat_map (fun server => if srv_enabled server then srv_tools server else [])
              (mcpServers w)).

Definition loopMessages (intent pageContext : string) : list Message :=
  [ {| role := "system";
       content :=
         if negb (pageContext =? "")%string then
           "You are a helpful browser AI assistant. You have access to tools. Use tools when needed. Be concise."
           +++ newline +++ newline +++ "Current page content:" +++ newline
           +++ pageContext
         else
           "You are a helpful browser AI assistant. You have access to tools. Use tools when needed (call read_page first if you need page content). Be concise." |};
    {| role := "user"; content := intent |} ].

(** The state a task starts from. *)
Definition taskStarted (w : World) : World :=
  set_toolCallState {| running := true; calls := []; finalAnswer := ""; error := None |} w.

(** What [runToolCallLoop] tries before the loop: the direct answer, when
    the pre-read gave it a text. *)
Definition tryDirectAnswer (intent pageContext : string) (location : Location) : M bool :=
  if negb (pageContext =? "")%string
  then directAnswer intent pageContext location
  else ret false.

(** The steps of [runToolCallLoop] before the loop. *)
Lemma runToolCallLoop_run (intent : string) (tabId : Z) (w : World) :
  runToolCallLoop intent tabId w
  = let location := locationOf (isLocalProvider (llmConfig w)) in
    match preReadPage tabId (taskStarted w) with
    | (Ok pageContext, w1) =>
      match tryDirectAnswer intent pageContext location (snd (broadcastToolUpdate w1)) with
      | (Ok true, w2) => (Ok tt, w2)
      | (Ok false, w2) =>
        toolLoop maxIterations 0 (offeredTools w) tabId location
          (loopMessages intent pageContext) w2
      | (Throw e, w2) => (Throw e, w2)
      end
    | (Throw e, w1) => (Throw e, w1)
    end.
Proof.
  unfold runToolCallLoop, getAllMcpTools, loadMcpServers, tryDirectAnswer, taskStarted,
    offeredTools, loopMessages, bind, modify, gets, ret.
  cbv zeta. destruct (preReadPage tabId _) as [[pageContext|e] w1]; [|reflexivity].
  unfold broadcastToolUpdate at 1, modify at 1. cbn [snd].
  destruct (negb (pageContext =? "")%string).
  - destruct (directAnswer _ _ _ _) as [[[|]|e] w2]; reflexivity.
  - reflexivity.
Qed.

(** C9.  For every environment, that is for every sequence of replies of
    the backend, of the tab and of the tools, [runToolCallLoop] returns (it
    lets no exception out), has run at most [maxIterations = 5] iterations
    of its loop, leaves the task marked as not running and has told the
    tabs so: its last broadcast carries the final state.  When the task
    reaches the loop (the pre-read text, if any, was not answered
    directly) and each of the five iterations gets a reply with tool calls
    and carries them out, the task ends after exactly those five
    iterations in the state that last iteration left, with the fixed
    answer ['(Reached maximum tool call iterations)'], not running, and
    with no error recorded. *)
Theorem runToolCallLoop_terminates_within_cap :
  forall (intent : string) (tabId : Z) (w : World),
    let location := locationOf (isLocalProvider (llmConfig w)) in
    let w' := snd (runToolCallLoop intent tabId w) in
    maxIterations = 5%nat
    /\ fst (runToolCallLoop intent tabId w) = Ok tt
    /\ running (toolCallState w') = false
    /\ reported w'
    /\ (iterationsLogged (trace w') <= iterationsLogged (trace w) + maxIterations)%nat
    /\ forall pageContext w1 w2 w5,
         preReadPage tabId (taskStarted w) = (Ok pageContext, w1) ->
         tryDirectAnswer intent pageContext location (snd (broadcastToolUpdate w1))
         = (Ok false, w2) ->
         continues (offeredTools w) tabId location maxIterations 0
                   (loopMessages intent pageContext) w2 w5 ->
         w' = snd (broadcastToolUpdate
                     (snd (finishWith "(Reached maximum tool call iterations)" w5)))
         /\ toolCallState w'
            = {| running := false;
                 calls := calls (toolCallState w5);
                 finalAnswer := "(Reached maximum tool call iterations)";
                 error := None |}
         /\ iterationsLogged (trace w') = (iterationsLogged (trace w) + maxIterations)%nat.
Proof.
  intros intent tabId w location w'. split; [reflexivity|].
  assert (Hkept : forall R, Framed R (fun _ => True) ->
                            forall pageContext w1 w2,
                              preReadPage tabId (taskStarted w) = (Ok pageContext, w1) ->
                              tryDirectAnswer intent pageContext location
                                (snd (broadcastToolUpdate w1)) = (Ok false, w2) ->
                              R (taskStarted w) w2).
  { intros R F pageContext w1 w2 Hpre Hda.
    pose proof (preserves_preReadPage _ _ F I tabId (taskStarted w)) as H1.
    rewrite Hpre in H1. cbn [snd] in H1.
    pose proof (preserves_broadcastToolUpdate _ _ F w1) as H2.
    assert (H3 : preserves R (tryDirectAnswer intent pageContext location)).
    { unfold tryDirectAnswer. destruct (negb (pageContext =? "")%string);
        [apply (preserves_directAnswer _ _ F)|apply (preserves_ret _ _ F)]. }
    specialize (H3 (snd (broadcastToolUpdate w1))). rewrite Hda in H3. cbn [snd] in H3.
    eapply (fr_trans _ _ F); [exact H1|]. eapply (fr_trans _ _ F); [exact H2|exact H3]. }
  assert (Hrun : fst (runToolCallLoop intent tabId w) = Ok tt
                 /\ running (toolCallState w') = false
                 /\ reported w'
                 /\ (iterationsLogged (trace w') <= iterationsLogged (trace w) + maxIterations)%nat).
  { subst w'. rewrite runToolCallLoop_run. cbv zeta. fold location.
    destruct (preReadPage_returns tabId (taskStarted w)) as [pageContext Hpre].
    destruct (preReadPage tabId (taskStarted w)) as [[pc|e] w1] eqn:Epre;
      cbn [fst] in Hpre; [|discriminate].
    pose proof (Hkept _ sameIterations_framed pc w1) as Hit.
    unfold sameIterations in Hit. change (trace (taskStarted w)) with (trace w) in Hit.
    assert (Hda : match tryDirectAnswer intent pc location (snd (broadcastToolUpdate w1)) with
                  | (Ok true, w2) =>
                    running (toolCallState w2) = false /\ reported w2
                    /\ iterationsLogged (trace w2) = iterationsLogged (trace w)
                  | (Ok false, _) => True
                  | (Throw _, _) => False
                  end).
    { unfold tryDirectAnswer. destruct (negb (pc =? "")%string); [|exact I].
      pose proof (directAnswer_returns intent pc location (snd (broadcastToolUpdate w1)))
        as Hret.
      pose proof (preserves_directAnswer _ _ sameIterations_framed intent pc location
                    (snd (broadcastToolUpdate w1))) as Hsame.
      pose proof (preserves_preReadPage _ _ sameIterations_framed I tabId (taskStarted w))
        as Hpre_it.
      rewrite Epre in Hpre_it. unfold sameIterations in Hsame, Hpre_it.
      destruct (directAnswer _ _ _ _) as [[[|]|e] w2]; cbn [snd] in *; try exact Hret.
      destruct Hret as [Hr Hrep]. split; [exact Hr|]. split; [exact Hrep|].
      rewrite Hsame. exact Hpre_it. }
    destruct (tryDirectAnswer intent pc location _) as [[[|]|e] w2] eqn:Eda;
      cbn [fst snd]; [| |contradiction].
    - destruct Hda as (Hr & Hrep & Hn). repeat split; [exact Hr|exact Hrep|lia].
    - specialize (Hit w2 eq_refl eq_refl).
      destruct (toolLoop_returns maxIterations (offeredTools w) tabId location 0
                  (loopMessages intent pc) w2) as (Hok & Hr & Hrep).
      split; [exact Hok|]. split; [exact Hr|]. split; [exact Hrep|].
      rewrite <- Hit. apply toolLoop_iterations. }
  destruct Hrun as (H1 & H2 & H3 & H4).
  split; [exact H1|]. split; [exact H2|]. split; [exact H3|]. split; [exact H4|].
  intros pageContext w1 w2 w5 Hpre Hda Hcont.
  pose proof (Hkept _ sameIterations_framed pageContext w1 w2 Hpre Hda) as Hit.
  pose proof (Hkept _ errorKept_framed pageContext w1 w2 Hpre Hda) as Herr.
  unfold sameIterations in Hit. unfold errorKept in Herr.
  change (trace (taskStarted w)) with (trace w) in Hit.
  change (error (toolCallState (taskStarted w))) with (@None string) in Herr.
  destruct (toolLoop_exhausted Hcont) as (Hend & Herr5 & Hit5).
  assert (Hw' : w' = snd (broadcastToolUpdate
                            (snd (finishWith "(Reached maximum tool call iterations)" w5)))).
  { subst w'. rewrite runToolCallLoop_run. cbv zeta. fold location.
    rewrite Hpre, Hda, Hend. reflexivity. }
  split; [exact Hw'|]. rewrite Hw'. split.
  - cbn. now rewrite Herr5, Herr.
  - change (trace (snd (broadcastToolUpdate
                          (snd (finishWith "(Reached maximum tool call iterations)" w5)))))
      with (trace w5).
    rewrite Hit5, Hit. reflexivity.
Qed.


(** ** The cross-origin monitor *)

Lemma includes_empty (s : string) : includes "" s = true.
Proof. unfold includes. now destruct s. Qed.

Lemma includes_append_right (x a b : string) :
  includes x a = true -> includes x (a +++ b) = true.
Proof.
  induction a as [|c a IH]; intros H.
  - unfold includes in H. destruct x; [apply includes_empty|discriminate].
  - unfold includes in H. cbn [String.index] in H.
    destruct (String.prefix x (String c a)) eqn:P.
    + unfold includes. change (String c a +++ b) with (String c (a +++ b)).
      cbn [String.index].
      change (String c (a +++ b)) with (String c a +++ b).
      now rewrite (prefix_append _ _ b P).
    + change (String c a +++ b) with (String c (a +++ b)). apply includes_cons, IH.
      unfold includes. destruct (String.index 0 x a); [reflexivity|discriminate].
Qed.

Lemma includes_concat (sep x : string) (l : list string) :
  In x l -> includes x (String.concat sep l) = true.
Proof.
  induction l as [|y l IH]; intros Hin; [contradiction|].
  destruct l as [|z l].
  - destruct Hin as [->|[]]. simpl.
    replace x with ("" +++ x +++ "") at 2; [apply includes_middle|].
    simpl. induction x as [|c x IHx]; simpl; [reflexivity|now rewrite IHx].
  - change (String.concat sep (y :: z :: l)) with (y +++ sep +++ String.concat sep (z :: l)).
    destruct Hin as [->|Hin].
    + apply (includes_middle "").
    + do 2 apply includes_append_left. now apply IH.
Qed.

Lemma crossOriginWarning_names (origins : list string) (hasHigh : bool) (note o : string) :
  In o origins -> includes o (crossOriginWarning origins hasHigh note) = true.
Proof.
  intros Hin. unfold crossOriginWarning.
  destruct hasHigh; apply includes_append_left, includes_append_right;
    now apply includes_concat.
Qed.

Lemma addAll_complete (l : list string) :
  forall seen x, In x l -> In x seen \/ In x (addAll seen l).
Proof.
  induction l as [|y l IH]; intros seen x Hin; [contradiction|]. simpl.
  destruct (existsb (String.eqb y) seen) eqn:E.
  - destruct Hin as [->|Hin]; [|now apply IH].
    left. apply existsb_exists in E as (z & Hz & Heq).
    apply String.eqb_eq in Heq. now subst.
  - destruct Hin as [->|Hin]; [right; now left|].
    destruct (IH (y :: seen) x Hin) as [[->|Hs]|Ha]; [right; now left|now left|right; now right].
Qed.

Lemma addAll_distinct (l : list string) :
  forall seen, NoDup (addAll seen l) /\ forall x, In x (addAll seen l) -> ~ In x seen.
Proof.
  induction l as [|y l IH]; intros seen; simpl.
  - split; [constructor|intros x []].
  - destruct (existsb (String.eqb y) seen) eqn:E; [apply IH|].
    destruct (IH (y :: seen)) as [Hnd Hout]. split.
    + constructor; [|exact Hnd]. intros Hin. apply (Hout y Hin). now left.
    + intros x [->|Hin] Hseen.
      * assert (existsb (String.eqb x) seen = true); [|congruence].
        apply existsb_exists. exists x. split; [exact Hseen|apply String.eqb_refl].
      * apply (Hout x Hin). now right.
Qed.

(** The monitor's set holds every origin of a completed step, once each. *)
Lemma completedOrigins_spec (steps : list TaskStep) :
  NoDup (completedOrigins steps)
  /\ forall s o, In s steps -> isCompleted s = true -> step_origin s = Some o ->
                 o <> "" -> In o (completedOrigins steps).
Proof.
  unfold completedOrigins, setOf. split; [apply addAll_distinct|].
  intros s o Hin Hc Ho Hne.
  match goal with |- In o (addAll [] ?l) =>
    destruct (addAll_complete l [] o) as [[]|H]; [|exact H] end.
  apply in_flat_map. exists s. split; [exact Hin|]. rewrite Hc, Ho.
  destruct (o =? "")%string eqn:E; [apply String.eqb_eq in E; contradiction|now left].
Qed.

(** What the monitor computes, on any plan.  It reads the plan and changes
    nothing.  It returns no warning when there is no plan, when the page
    context has no URL or an empty host name, when no completed step
    carries an origin, or when the current origin is already among the
    origins of the completed steps.  Otherwise it returns the warning that
    names every distinct origin of a completed step, then the current
    origin, with the sentence on sensitive data added when a completed step
    has sensitivity [high].  It throws when the URL of the page context
    does not parse. *)
Lemma detectCrossOrigin_run :
  forall (stepIdx : nat) (w : World),
    let r := fst (detectCrossOrigin stepIdx w) in
    snd (detectCrossOrigin stepIdx w) = w
    /\ match currentPlan w with
       | None => r = Ok None
       | Some plan =>
         let completed := completedOrigins (plan_steps plan) in
         let hasHigh := hasHighSensitivity (plan_steps plan) in
         match plan_pageContext plan with
         | None => r = Ok None
         | Some pc =>
           if (pc_url pc =? "")%string then r = Ok None
           else
             match url_hostname (pc_url pc) with
             | None => r = Throw "TypeError: Invalid URL"
             | Some current =>
               if (current =? "")%string || (length completed =? 0)%nat
                  || existsb (String.eqb current) completed
               then r = Ok None
               else
                 exists warning,
                   r = Ok (Some warning)
                   /\ warning = crossOriginWarning (completed ++ [current]) hasHigh
                                  (cloudNote (llmConfig w))
                   /\ includes current warning = true
                   /\ (forall s o, In s (plan_steps plan) -> isCompleted s = true ->
                                   step_origin s = Some o -> o <> "" ->
                                   includes o warning = true)
                   /\ (hasHigh = true ->
                       includes "This includes sensitive data." warning = true)
             end
         end
       end.
Proof.
  intros stepIdx w r. subst r. unfold detectCrossOrigin, bind, gets, ret, throw.
  destruct (currentPlan w) as [plan|]; [|now split].
  destruct (plan_pageContext plan) as [pc|]; [|now split].
  destruct (pc_url pc =? "")%string; cbn [negb]; [now split|].
  destruct (url_hostname (pc_url pc)) as [current|]; [|now split].
  destruct (current =? "")%string; cbn [orb]; [now split|].
  destruct (length (completedOrigins (plan_steps plan)) =? 0)%nat; cbn [orb]; [now split|].
  destruct (existsb (String.eqb current) (completedOrigins (plan_steps plan)));
    cbn [negb fst snd]; [now split|].
  split; [reflexivity|]. eexists. split; [reflexivity|]. split; [reflexivity|].
  split; [|split].
  - apply crossOriginWarning_names, in_or_app. right. now left.
  - intros s o Hin Hc Ho Hne. apply crossOriginWarning_names, in_or_app. left.
    now apply (proj2 (completedOrigins_spec (plan_steps plan)) s o).
  - intros ->. unfold crossOriginWarning. apply includes_append_left.
    match goal with |- includes ?x (?a +++ ?b +++ ?c) = true =>
      change (a +++ b +++ c)
        with (a +++ (" is merging in the AI context. " +++ x) +++ c) end.
    apply includes_append_left, includes_append_right, includes_suffix.
Qed.


(** ** Dispatch and the permission guard *)

(** Until it returns, the guard sends nothing but, at most once, the
    consent dialog. *)
Lemma ensurePermission_trace (tabId : Z) (permType : PermissionType)
    (origin reason sensitivity : string) (w : World) :
  let w' := snd (ensurePermission tabId permType origin reason sensitivity w) in
  trace w' = trace w
  \/ trace w' = trace w ++ [SendToTab tabId (SHOW_PERMISSION_DIALOG permType reason sensitivity)].
Proof.
  run_monad.
  destruct (find _ (permissions w)); cbn; [now left|].
  destruct (isLocalProvider (llmConfig w) && PermissionType_eqb permType page_read); cbn;
    [now left|].
  destruct (dialogReply env _ _ _ _ _) as [[[[|] scope]|]|e]; cbn; try now right.
  destruct (isLocalProvider (llmConfig w) && PermissionType_eqb permType page_action); cbn;
    now right.
Qed.

Lemma tabOrigin_run (tabId : Z) (w : World) :
  exists origin, tabOrigin tabId w = (Ok origin, emit (TabsGet tabId) w).
Proof.
  unfold tabOrigin, tryCatch, tabsGet, bind, ret, throw.
  destruct (tabUrl env _ _) as [[url|]|]; try now eexists.
  destruct (negb (url =? "")%string); [|now eexists].
  destruct (url_hostname url); now eexists.
Qed.

(** What the permission check of a built-in tool sends: the tab lookup
    and, at most once, the consent dialog; never a tool command. *)
Lemma checkToolPermission_trace (builtIn : Member) (toolName : json) (tabId : Z)
    (w : World) :
  let w' := snd (checkToolPermission builtIn toolName tabId w) in
  trace w' = trace w ++ [TabsGet tabId]
  \/ exists reason sensitivity,
       trace w' = trace w ++ [TabsGet tabId;
                              SendToTab tabId
                                (SHOW_PERMISSION_DIALOG (requiredPermission builtIn)
                                                        reason sensitivity)].
Proof.
  unfold checkToolPermission. rewrite bind_run.
  destruct (tabOrigin_run tabId w) as [origin ->].
  match goal with |- context [ensurePermission ?t ?p ?o ?r ?s ?w0] =>
    destruct (ensurePermission_trace t p o r s w0) as [H|H] end.
  - left. cbv zeta. rewrite H. reflexivity.
  - right. do 2 eexists. cbv zeta. rewrite H, trace_emit, <- app_assoc. reflexivity.
Qed.

Ltac frame_by F :=
  repeat first
    [ progress intros
    | apply (preserves_ret _ _ F)
    | apply (preserves_throw _ _ F)
    | apply (preserves_gets _ _ F)
    | apply (preserves_bind _ _ F)
    | apply (preserves_tryCatch _ _ F)
    | apply (preserves_dateNow _ _ F)
    | apply (preserves_pushCall _ _ F)
    | apply (preserves_addAuditEvent _ _ F)
    | apply (preserves_llmChat _ _ F)
    | apply (preserves_ensurePermission _ _ F)
    | apply (preserves_checkToolPermission _ _ F)
    | apply (preserves_executeToolCall _ _ F)
    | apply (preserves_updateStep _ _ F)
    | apply (preserves_getStep _ _ F)
    | apply (preserves_setProcessingLocation _ _ F)
    | apply (preserves_addContextUsed _ _ F)
    | apply (preserves_analyseStep _ _ F)
    | apply (preserves_runStepTool _ _ F)
    | match goal with
      | |- preserves _ (match ?x with _ => _ end) => destruct x
      end ].

(** The entry the tool loop makes for a call of [toolName] whose result
    serializes to [serialized]. *)
Definition toolEntry (toolName : json) (serialized : string) (timestamp : Z) : DataEntry :=
  {| de_origin := "openlens"; de_originType := "local";
     de_dataType := "tool:" +++ to_str toolName;
     de_tokenCount := ceil_quarter (js_length serialized);
     de_sensitivity := low; de_entryMethod := "tool_call";
     de_timestamp := timestamp |}.

(** C1, as the code has it.  Whether the tool loop records a dispatch in
    the ledger depends on the dispatch returning, not on what the
    permission guard decided: a dispatch that returns a result (one that
    can be serialized) adds exactly one data entry, tagged [tool:NAME] and
    of sensitivity [low]; a dispatch that throws adds none.  In particular,
    when the guard returns false for what the dispatcher found in
    [PAGE_TOOLS], no tool command is sent (up to the refusal the worker has
    waited for the tab lookup and, at most, the consent dialog, and after
    it it only broadcasts its state to the open tabs), the result is the
    fixed failure [{success: false, error: 'Permission denied'}], and
    exactly one data entry is still appended, sized from that failure, not
    from any content of the page. *)
Theorem denied_tool_call_is_still_recorded :
  forall (i : nat) (tabId : Z) (location : Location) (tc : ToolCall)
         (messages : list Message) (w : World),
    let toolName := jor (tc_name tc) (JStr "") in
    let toolArgs := jor (tc_arguments tc) (JObj []) in
    let started :=
      snd (addAuditEvent EventType.tool_call_start "openlens"
             (JObj [("tool", toolName); ("args", toolArgs);
                    ("iteration", JNum (Z.of_nat (i + 1)))])
             None None location w) in
    let w' := snd (toolCallStep i tabId location tc messages w) in
    match executeToolCall toolName toolArgs tabId started with
    | (Ok result, _) =>
      match JSON_stringify result with
      | Some serialized =>
        exists timestamp,
          dataEntries (sessionState w')
          = dataEntries (sessionState w) ++ [toolEntry toolName serialized timestamp]
      | None => dataEntries (sessionState w') = dataEntries (sessionState w)
      end
    | (Throw _, _) => dataEntries (sessionState w') = dataEntries (sessionState w)
    end
    /\ forall (builtIn : Member) (w1 : World) (serialized : string),
         PAGE_TOOLS (to_str toolName) = Some builtIn ->
         checkToolPermission builtIn toolName tabId started = (Ok false, w1) ->
         JSON_stringify (failure "Permission denied") = Some serialized ->
         executeToolCall toolName toolArgs tabId started
         = (Ok (failure "Permission denied"), w1)
         /\ (exists timestamp,
               dataEntries (sessionState w')
               = dataEntries (sessionState w) ++ [toolEntry toolName serialized timestamp])
         /\ (trace w1 = trace w ++ [TabsGet tabId]
             \/ exists reason sensitivity,
                  trace w1 = trace w ++ [TabsGet tabId;
                                         SendToTab tabId
                                           (SHOW_PERMISSION_DIALOG
                                              (requiredPermission builtIn) reason
                                              sensitivity)])
         /\ trace w' = trace w1
         /\ exists update,
              pushes w' = pushes w1 ++ [STATE_UPDATE; STATE_UPDATE; update]
              /\ update = TOOL_CALL_UPDATE (running (toolCallState w'))
                            (length (calls (toolCallState w')))
                            (finalAnswer (toolCallState w')) (error (toolCallState w')).
Proof.
  intros i tabId location tc messages w toolName toolArgs started w'.
  assert (Hstart : addAuditEvent EventType.tool_call_start "openlens"
                     (JObj [("tool", toolName); ("args", toolArgs);
                            ("iteration", JNum (Z.of_nat (i + 1)))]) None None location w
                   = (Ok tt, started)) by reflexivity.
  assert (Hkeep : dataEntries (sessionState
                                 (snd (executeToolCall toolName toolArgs tabId started)))
                  = dataEntries (sessionState w))
    by apply (preserves_executeToolCall _ _ sameEntries_framed toolName toolArgs tabId started).
  assert (Hgen : forall result w1 serialized,
             executeToolCall toolName toolArgs tabId started = (Ok result, w1) ->
             JSON_stringify result = Some serialized ->
             (exists timestamp,
                 dataEntries (sessionState w')
                 = dataEntries (sessionState w) ++ [toolEntry toolName serialized timestamp])
             /\ trace w' = trace w1
             /\ exists update,
                  pushes w' = pushes w1 ++ [STATE_UPDATE; STATE_UPDATE; update]
                  /\ update = TOOL_CALL_UPDATE (running (toolCallState w'))
                                (length (calls (toolCallState w')))
                                (finalAnswer (toolCallState w')) (error (toolCallState w'))).
  { intros result w1 serialized Hexec Hjson. subst w'.
    rewrite Hexec in Hkeep. cbn [snd] in Hkeep.
    unfold toolCallStep. fold toolName toolArgs.
    rewrite bind_run, Hstart. cbv beta iota. rewrite bind_run, Hexec. cbv beta iota.
    rewrite Hjson.
    destruct (is_object result); cbn.
    all: rewrite Hkeep, <- ?app_assoc.
    all: split; [eexists; reflexivity|]; split; [reflexivity|].
    all: eexists; split; reflexivity. }
  split.
  - destruct (executeToolCall toolName toolArgs tabId started) as [[result|e] w1] eqn:Hexec.
    + destruct (JSON_stringify result) as [serialized|] eqn:Hjson.
      * exact (proj1 (Hgen result w1 serialized eq_refl Hjson)).
      * subst w'. cbn [snd] in Hkeep. unfold toolCallStep. fold toolName toolArgs.
        rewrite bind_run, Hstart. cbv beta iota. rewrite bind_run, Hexec. cbv beta iota.
        rewrite Hjson. destruct (is_object result); cbn; exact Hkeep.
    + subst w'. cbn [snd] in Hkeep. unfold toolCallStep. fold toolName toolArgs.
      rewrite bind_run, Hstart. cbv beta iota. rewrite bind_run, Hexec. exact Hkeep.
  - intros builtIn w1 serialized Htool Hcheck Hjson.
    assert (Hexec : executeToolCall toolName toolArgs tabId started
                    = (Ok (failure "Permission denied"), w1)).
    { unfold executeToolCall. rewrite Htool, bind_run, Hcheck. reflexivity. }
    assert (Htrace : trace started = trace w) by reflexivity.
    pose proof (checkToolPermission_trace builtIn toolName tabId started) as Hsent.
    rewrite Hcheck in Hsent. cbn [snd] in Hsent. rewrite Htrace in Hsent.
    destruct (Hgen _ _ _ Hexec Hjson) as (Hentry & Htr & Hpush).
    split; [exact Hexec|]. split; [exact Hentry|]. split; [exact Hsent|].
    split; [exact Htr|exact Hpush].
Qed.

(** In plan execution a refusal by the guard ends the step before any
    entry is made: the ledger's data entries are as they were. *)
Lemma executeStep_denied_adds_no_entry (stepIdx : nat) (tabId : Z) (w w1 : World)
    (plan : TaskPlan) (step : TaskStep) :
  currentPlan w = Some plan ->
  nth_error (plan_steps plan) stepIdx = Some step ->
  ensurePermission tabId (orPageRead (step_requiredPermission step)) (planOrigin plan)
    ("Step " +++ quoted (step_title step) +++ ": " +++ step_description step)
    (if step_isWriteAction step then "medium" else "low")
    (snd (updateStep stepIdx (with_status "running") w)) = (Ok false, w1) ->
  dataEntries (sessionState (snd (executeStep stepIdx tabId w)))
  = dataEntries (sessionState w).
Proof.
  intros Hplan Hstep Hdenied.
  pose proof (preserves_ensurePermission _ _ sameEntries_framed tabId
                (orPageRead (step_requiredPermission step)) (planOrigin plan)
                ("Step " +++ quoted (step_title step) +++ ": " +++ step_description step)
                (if step_isWriteAction step then "medium" else "low")
                (snd (updateStep stepIdx (with_status "running") w))) as Hkeep.
  rewrite Hdenied in Hkeep. unfold sameEntries in Hkeep. cbn [snd] in Hkeep.
  rewrite (preserves_updateStep _ _ sameEntries_framed stepIdx (with_status "running") w)
    in Hkeep.
  unfold executeStep. rewrite bind_run. unfold gets at 1. rewrite Hplan, Hstep.
  rewrite bind_run.
  change (updateStep stepIdx (with_status "running") w)
    with (Ok tt, snd (updateStep stepIdx (with_status "running") w)).
  cbv beta iota. rewrite bind_run. unfold gets at 1. cbv beta iota zeta.
  rewrite bind_run.
  replace (llmConfig (snd (updateStep stepIdx (with_status "running") w)))
    with (llmConfig w) by (unfold updateStep, modify; cbn; now rewrite Hplan).
  rewrite Hdenied. cbn [negb].
  pose proof (preserves_updateStep _ _ sameEntries_framed stepIdx
                (fun s => with_llmOutput "(Permission denied by user)"
                            (with_status "skipped" s)) w1) as Hupd.
  unfold sameEntries in Hupd.
  rewrite bind_run.
  destruct (updateStep stepIdx _ w1) as [[[]|e] w2]; cbn [snd] in *.
  - unfold getStep, gets. cbn [snd]. congruence.
  - congruence.
Qed.


(** ** The pre-read is not guarded *)

Lemma preReadPage_first (tabId : Z) (w : World) :
  exists rest,
    trace (snd (preReadPage tabId w))
    = trace w ++ SendToTab tabId (READ_PAGE (JNum 2000)) :: rest.
Proof.
  unfold preReadPage. rewrite bind_run. unfold tryCatch at 1. rewrite bind_run.
  unfold sendToTab, ret.
  destruct (tabReply env _ _ _) as [pageResult|e]; [|now exists []].
  destruct (truthy (field "success" pageResult) && truthy (field "summary" pageResult));
    [|now exists []].
  rewrite bind_run.
  pose proof (preserves_tryCatch _ _ traceGrows_framed _ _
                (preserves_recordPreRead _ _ traceGrows_framed I tabId
                   (to_str (field "summary" pageResult)))
                (fun _ => preserves_ret _ _ traceGrows_framed tt)
                (emit (SendToTab tabId (READ_PAGE (JNum 2000))) w)) as [ext Hext].
  destruct (tryCatch _ _ _) as [[[]|e] w1]; cbn [snd] in *; exists ext;
    now rewrite Hext, trace_emit, <- app_assoc.
Qed.

(** Whatever the backend, the stored grants and the tab, the first thing
    [runToolCallLoop] does to the outside is to ask the content script for
    the page, with no call of the permission guard before it. *)
Lemma runToolCallLoop_reads_page_first (intent : string) (tabId : Z) (w : World) :
  exists rest,
    trace (snd (runToolCallLoop intent tabId w))
    = trace w ++ SendToTab tabId (READ_PAGE (JNum 2000)) :: rest.
Proof.
  assert (Hlog : forall line w0, traceGrows w0 (emit (ConsoleLog line) w0))
    by (intros; now eexists).
  assert (Hreset : forall s w0, traceGrows w0 (set_toolCallState s w0))
    by (intros; exists []; cbn; now rewrite app_nil_r).
  rewrite runToolCallLoop_run. cbv zeta.
  destruct (preReadPage_first tabId (taskStarted w)) as [rest Hrest].
  change (trace (taskStarted w)) with (trace w) in Hrest.
  destruct (preReadPage tabId (taskStarted w)) as [[pageContext|e] w1]; cbn [snd] in Hrest;
    [|now exists rest].
  assert (Hthen : forall w2, traceGrows w1 w2 ->
            exists rest', trace w2 = trace w ++ SendToTab tabId (READ_PAGE (JNum 2000)) :: rest').
  { intros w2 [ext Hext]. exists (rest ++ ext).
    now rewrite Hext, Hrest, <- app_assoc. }
  assert (Hda : traceGrows w1
                  (snd (tryDirectAnswer intent pageContext
                          (locationOf (isLocalProvider (llmConfig w)))
                          (snd (broadcastToolUpdate w1))))).
  { eapply (fr_trans _ _ traceGrows_framed);
      [apply (preserves_broadcastToolUpdate _ _ traceGrows_framed)|].
    unfold tryDirectAnswer. destruct (negb (pageContext =? "")%string);
      [apply (preserves_directAnswer _ _ traceGrows_framed)
      |apply (preserves_ret _ _ traceGrows_framed)]. }
  destruct (tryDirectAnswer _ _ _ _) as [[[|]|e] w2]; cbn [snd] in *;
    try (apply Hthen; exact Hda).
  apply Hthen. eapply (fr_trans _ _ traceGrows_framed); [exact Hda|].
  apply (preserves_toolLoop _ _ traceGrows_framed I Hlog Hreset).
Qed.

(** ** Where a data entry's sensitivity comes from *)

Lemma addDataEntry_run (origin originType dataType : string) (tokenCount : Z)
    (sensitivity : Sensitivity) (entryMethod : string) (w : World) :
  addDataEntry origin originType dataType tokenCount sensitivity entryMethod w
  = (Ok tt,
     push STATE_UPDATE
       (appendEntry {| de_origin := origin; de_originType := originType;
                       de_dataType := dataType; de_tokenCount := tokenCount;
                       de_sensitivity := sensitivity; de_entryMethod := entryMethod;
                       de_timestamp := clock env (S (clockReads w)) |}
                    (tick (tick w)))).
Proof. reflexivity. Qed.

(** What a plan step's entry is made from: of the tool's result the part
    that is kept, and the sensitivity, [medium] when the result's page
    context counts at least one e-mail address and [low] otherwise. *)
Definition resultDataOf (toolResult : json) : json :=
  jor (field "context" toolResult) (jor (field "matches" toolResult) toolResult).

Definition sensitivityOf (toolResult : json) : Sensitivity :=
  if gt_zero (field "emailCount" (field "structuredData" (field "context" toolResult)))
  then medium else low.

Definition stepEntry (origin : string) (step : TaskStep) (toolResult : json)
    (serialized : string) (timestamp : Z) : DataEntry :=
  {| de_origin := origin; de_originType := "page_content";
     de_dataType := step_tool step;
     de_tokenCount := ceil_quarter (js_length serialized);
     de_sensitivity := sensitivityOf toolResult;
     de_entryMethod := "tool_call";
     de_timestamp := timestamp |}.

(** The entry a successful plan step makes. *)
Lemma runStep_entry (stepIdx : nat) (plan : TaskPlan) (step : TaskStep) (tabId : Z)
    (origin : string) (cfg : LLMConfig) (w w1 : World) (toolResult : json)
    (serialized : string) :
  runStepTool step tabId w = (Ok toolResult, w1) ->
  truthy (field "success" toolResult) = true ->
  JSON_stringify (resultDataOf toolResult) = Some serialized ->
  exists timestamp,
    dataEntries (sessionState (snd (runStep stepIdx plan step tabId origin cfg w)))
    = dataEntries (sessionState w) ++ [stepEntry origin step toolResult serialized timestamp].
Proof.
  intros Htool Hok Hjson. unfold resultDataOf in Hjson.
  pose proof (preserves_runStepTool _ _ sameEntries_framed step tabId w) as Hsame.
  rewrite Htool in Hsame. unfold sameEntries in Hsame. cbn [snd] in Hsame.
  unfold runStep. cbv zeta.
  erewrite tryCatch_bind by exact Htool. cbv beta. rewrite Hok. cbn [negb]. rewrite Hjson.
  erewrite tryCatch_bind by reflexivity. cbv beta.
  erewrite tryCatch_bind by apply addDataEntry_run.
  match goal with |- context [snd (tryCatch ?m ?h ?w0)] =>
    assert (Hrest : preserves sameEntries (tryCatch m h))
      by frame_by sameEntries_framed;
    specialize (Hrest w0); unfold sameEntries in Hrest; rewrite Hrest
  end.
  eexists. cbn. rewrite Hsame. reflexivity.
Qed.

(** A step whose tool throws, reports no success or returns what cannot be
    serialized makes no entry. *)
Lemma runStep_no_entry (stepIdx : nat) (plan : TaskPlan) (step : TaskStep) (tabId : Z)
    (origin : string) (cfg : LLMConfig) (w : World) :
  match runStepTool step tabId w with
  | (Ok toolResult, _) =>
    truthy (field "success" toolResult) = false
    \/ JSON_stringify (resultDataOf toolResult) = None
  | (Throw _, _) => True
  end ->
  dataEntries (sessionState (snd (runStep stepIdx plan step tabId origin cfg w)))
  = dataEntries (sessionState w).
Proof.
  intros H.
  pose proof (preserves_runStepTool _ _ sameEntries_framed step tabId w) as Hsame.
  unfold sameEntries in Hsame.
  assert (Hcatch : forall err w0,
             dataEntries (sessionState
               (snd ((updateStep stepIdx
                        (fun s => with_llmOutput ("(Error: " +++ err +++ ")")
                                    (with_result (JObj [("error", JStr err)])
                                                 (with_status "completed" s))) ;;
                      ret false) w0)))
             = dataEntries (sessionState w0)).
  { intros err w0.
    assert (Hp : preserves sameEntries
                   (updateStep stepIdx
                      (fun s => with_llmOutput ("(Error: " +++ err +++ ")")
                                  (with_result (JObj [("error", JStr err)])
                                               (with_status "completed" s))) ;;
                    ret false)) by frame_by sameEntries_framed.
    apply Hp. }
  unfold runStep. cbv zeta. unfold tryCatch. rewrite bind_run.
  destruct (runStepTool step tabId w) as [[toolResult|e] w1]; cbn [snd] in Hsame.
  - destruct (truthy (field "success" toolResult)) eqn:Hok; cbn [negb].
    + destruct H as [H|H]; [discriminate|]. unfold resultDataOf in H. rewrite H.
      rewrite bind_run. unfold throw at 1. cbv beta iota. now rewrite Hcatch.
    + match goal with |- context [(updateStep ?i ?f ;; ret true) w1] =>
        assert (Hp : preserves sameEntries (updateStep i f ;; ret true))
          by frame_by sameEntries_framed;
        specialize (Hp w1); unfold sameEntries in Hp;
        destruct ((updateStep i f ;; ret true) w1) as [[r|e] w2]; cbn [snd] in *
      end.
      * congruence.
      * rewrite Hcatch. congruence.
  - now rewrite Hcatch.
Qed.

Lemma emitEvent_entries (now : Z) (event : AgentEvent) (state : SessionState) :
  exists added,
    dataEntries (emitEvent now event state) = dataEntries state ++ added
    /\ Forall (fun e => de_sensitivity e
                        = classifySensitivity (stringify_text (ev_data event))) added.
Proof.
  unfold emitEvent. destruct (ev_tokens event) as [tokens|];
    [destruct (0 <? tokens)|]; cbn.
  - eexists. split; [reflexivity|]. now constructor.
  - exists []. now rewrite app_nil_r.
  - exists []. now rewrite app_nil_r.
Qed.

(** What [executeStep] adds to the ledger when it runs step [step] of plan
    [plan] in tab [tabId]: nothing, or the one entry of a tool result. *)
Definition stepAdds (plan : TaskPlan) (step : TaskStep) (tabId : Z) (w w' : World) : Prop :=
  dataEntries (sessionState w') = dataEntries (sessionState w)
  \/ exists wb wa toolResult serialized timestamp,
       runStepTool step tabId wb = (Ok toolResult, wa)
       /\ truthy (field "success" toolResult) = true
       /\ JSON_stringify (resultDataOf toolResult) = Some serialized
       /\ dataEntries (sessionState w')
          = dataEntries (sessionState w)
            ++ [stepEntry (planOrigin plan) step toolResult serialized timestamp].

Lemma stepAdds_before (plan : TaskPlan) (step : TaskStep) (tabId : Z) (w w1 w' : World) :
  sameEntries w w1 -> stepAdds plan step tabId w1 w' -> stepAdds plan step tabId w w'.
Proof.
  unfold sameEntries, stepAdds. intros Hsame [H|(wb & wa & r & s & t & H1 & H2 & H3 & H4)].
  - left. congruence.
  - right. exists wb, wa, r, s, t. rewrite <- Hsame. now repeat split.
Qed.

Lemma stepAdds_after (plan : TaskPlan) (step : TaskStep) (tabId : Z) (w w1 w' : World) :
  stepAdds plan step tabId w w1 -> sameEntries w1 w' -> stepAdds plan step tabId w w'.
Proof.
  unfold sameEntries, stepAdds. intros [H|(wb & wa & r & s & t & H1 & H2 & H3 & H4)] Hsame.
  - left. congruence.
  - right. exists wb, wa, r, s, t. rewrite Hsame. now repeat split.
Qed.

Lemma runStep_adds (stepIdx : nat) (plan : TaskPlan) (step : TaskStep) (tabId : Z)
    (cfg : LLMConfig) (w : World) :
  stepAdds plan step tabId w (snd (runStep stepIdx plan step tabId (planOrigin plan) cfg w)).
Proof.
  destruct (runStepTool step tabId w) as [[toolResult|e] w1] eqn:Htool.
  - destruct (truthy (field "success" toolResult)) eqn:Hok.
    + destruct (JSON_stringify (resultDataOf toolResult)) as [serialized|] eqn:Hjson.
      * destruct (runStep_entry stepIdx plan step tabId (planOrigin plan) cfg w w1
                    toolResult serialized Htool Hok Hjson) as [timestamp H].
        right. exists w, w1, toolResult, serialized, timestamp. now repeat split.
      * left. apply runStep_no_entry. rewrite Htool. now right.
    + left. apply runStep_no_entry. rewrite Htool. now left.
  - left. apply runStep_no_entry. now rewrite Htool.
Qed.

Lemma executeStep_adds (stepIdx : nat) (tabId : Z) (w : World) :
  match currentPlan w with
  | Some plan =>
    match nth_error (plan_steps plan) stepIdx with
    | Some step => stepAdds plan step tabId w (snd (executeStep stepIdx tabId w))
    | None => snd (executeStep stepIdx tabId w) = w
    end
  | None => snd (executeStep stepIdx tabId w) = w
  end.
Proof.
  destruct (currentPlan w) as [plan|] eqn:Hplan.
  2: { unfold executeStep. rewrite bind_run. unfold gets. now rewrite Hplan. }
  destruct (nth_error (plan_steps plan) stepIdx) as [step|] eqn:Hstep.
  2: { unfold executeStep. rewrite bind_run. unfold gets. now rewrite Hplan, Hstep. }
  unfold executeStep. rewrite bind_run. unfold gets at 1. rewrite Hplan, Hstep.
  assert (Hbind_same : forall {A B} (m : M A) (k : A -> M B) w0,
             preserves sameEntries m ->
             (forall a w1, stepAdds plan step tabId w1 (snd (k a w1))) ->
             stepAdds plan step tabId w0 (snd (bind m k w0))).
  { intros A B m k w0 Hm Hk. rewrite bind_run. specialize (Hm w0).
    destruct (m w0) as [[a|e] w1]; cbn [snd] in *.
    - eapply stepAdds_before; [exact Hm|apply Hk].
    - left. exact Hm. }
  assert (Hsame : forall {A} (m : M A) w0,
             preserves sameEntries m -> stepAdds plan step tabId w0 (snd (m w0)))
    by (intros A m w0 Hm; left; apply Hm).
  apply Hbind_same; [frame_by sameEntries_framed|intros _ w1].
  apply Hbind_same; [frame_by sameEntries_framed|intros cfg w2].
  cbv zeta.
  apply Hbind_same;
    [apply (preserves_ensurePermission _ _ sameEntries_framed)|intros granted w3].
  assert (Hskip : forall f, preserves sameEntries (updateStep stepIdx f ;; getStep stepIdx)).
  { intros f. apply (preserves_bind _ _ sameEntries_framed).
    - apply (preserves_updateStep _ _ sameEntries_framed).
    - intros _. apply (preserves_getStep _ _ sameEntries_framed). }
  destruct granted; cbn [negb]; [|apply Hsame, Hskip].
  apply Hbind_same; [|intros cloudGranted w4].
  { destruct (negb (isLocalProvider cfg)).
    - apply (preserves_ensurePermission _ _ sameEntries_framed).
    - apply (preserves_ret _ _ sameEntries_framed). }
  destruct cloudGranted; cbn [negb]; [|apply Hsame, Hskip].
  rewrite bind_run.
  pose proof (runStep_adds stepIdx plan step tabId cfg w4) as Hrun.
  destruct (runStep stepIdx plan step tabId (planOrigin plan) cfg w4) as [[returned|e] w5];
    cbn [snd] in *; [|exact Hrun].
  eapply stepAdds_after; [exact Hrun|].
  destruct returned.
  - apply (preserves_getStep _ _ sameEntries_framed).
  - match goal with |- sameEntries w5 (snd (?m w5)) =>
      assert (Hp : preserves sameEntries m) by frame_by sameEntries_framed; apply Hp end.
Qed.

(** C4, as the code has it.  A data entry's sensitivity is set when the
    entry is made and the entry is not changed afterwards: each of the
    operations below keeps the existing entries as they are and only
    appends.  In the tool loop (the pre-read and every tool call) what is
    appended carries the constant [low].  The execution of a plan step
    appends nothing or one entry, made from a successful result of the
    step's tool, whose sensitivity is [medium] when that result's page
    context counts at least one e-mail address and [low] otherwise.  Only
    on the event bus is the sensitivity the class that the pattern
    classifier gives the serialized event data. *)
Theorem sensitivity_is_set_at_creation :
  forall (intent : string) (stepIdx : nat) (tabId : Z) (w : World)
         (now : Z) (event : AgentEvent) (state : SessionState),
    entriesGrow (fun s => s = low) w (snd (runToolCallLoop intent tabId w))
    /\ match currentPlan w with
       | Some plan =>
         match nth_error (plan_steps plan) stepIdx with
         | Some step =>
           let w' := snd (executeStep stepIdx tabId w) in
           dataEntries (sessionState w') = dataEntries (sessionState w)
           \/ exists wb wa toolResult serialized timestamp,
                runStepTool step tabId wb = (Ok toolResult, wa)
                /\ truthy (field "success" toolResult) = true
                /\ JSON_stringify (resultDataOf toolResult) = Some serialized
                /\ dataEntries (sessionState w')
                   = dataEntries (sessionState w)
                     ++ [ {| de_origin := planOrigin plan;
                             de_originType := "page_content";
                             de_dataType := step_tool step;
                             de_tokenCount := ceil_quarter (js_length serialized);
                             de_sensitivity :=
                               if gt_zero (field "emailCount"
                                             (field "structuredData"
                                                    (field "context" toolResult)))
                               then medium else low;
                             de_entryMethod := "tool_call";
                             de_timestamp := timestamp |} ]
         | None => snd (executeStep stepIdx tabId w) = w
         end
       | None => snd (executeStep stepIdx tabId w) = w
       end
    /\ exists added,
         dataEntries (emitEvent now event state) = dataEntries state ++ added
         /\ Forall (fun e => de_sensitivity e
                             = classifySensitivity (stringify_text (ev_data event))) added.
Proof.
  intros intent stepIdx tabId w now event state.
  assert (Hsame : forall allowed w0 w1,
             dataEntries (sessionState w1) = dataEntries (sessionState w0) ->
             entriesGrow allowed w0 w1)
    by (intros allowed w0 w1 H; exists []; rewrite app_nil_r; now split).
  split; [|split].
  - apply (preserves_runToolCallLoop (entriesGrow (fun s => s = low)) (fun s => s = low)
             (entriesGrow_framed _) eq_refl
             (fun line w0 => Hsame _ w0 (emit (ConsoleLog line) w0) eq_refl)
             (fun s w0 => Hsame _ w0 (set_toolCallState s w0) eq_refl)).
  - exact (executeStep_adds stepIdx tabId w).
  - apply emitEvent_entries.
Qed.


(** ** Running the loop's iterations *)

(** The world after [remaining] iterations that all let the loop go on,
    [None] when one of them ends it. *)
Fixpoint afterIterations (tools : list OllamaToolSchema) (tabId : Z) (location : Location)
    (remaining i : nat) (messages : list Message) (w : World) : option World :=
  match remaining with
  | O => Some w
  | S remaining' =>
    match iteration i tools tabId location messages w with
    | (Ok (Continue messages'), w1) =>
      afterIterations tools tabId location remaining' (S i) messages' w1
    | _ => None
    end
  end.

Lemma continues_afterIterations (tools : list OllamaToolSchema) (tabId : Z)
    (location : Location) (remaining : nat) :
  forall i messages w w',
    afterIterations tools tabId location remaining i messages w = Some w' ->
    continues tools tabId location remaining i messages w w'.
Proof.
  induction remaining as [|remaining IH]; intros i messages w w' H; simpl in H.
  - injection H as <-. constructor.
  - destruct (iteration i tools tabId location messages w) as [[[messages'|]|e] w1] eqn:E;
      try discriminate.
    econstructor; [exact E|now apply IH].
Qed.

(** * More properties of the code *)

(** ** The permission store: grants, their reach and their removal *)

(** Whether the scope of grant [p] reaches a request for [origin] in tab
    [tabId]. *)
Definition reaches (p : Permission) (origin : string) (tabId : Z) : bool :=
  match perm_scope p with
  | page => (perm_tabId p =? tabId) && (perm_origin p =? origin)%string
  | site => (perm_origin p =? origin)%string
  | session => true
  end.

Lemma covers_reaches (type : PermissionType) (origin : string) (tabId now : Z)
    (p : Permission) :
  covers type origin tabId now p
  = PermissionType_eqb (perm_type p) type && negb (expired now p) && reaches p origin tabId.
Proof.
  unfold covers, reaches.
  destruct (PermissionType_eqb (perm_type p) type); cbn; [|reflexivity].
  destruct (expired now p); cbn; [reflexivity|]. now destruct (perm_scope p).
Qed.

Lemma PermissionType_eqb_eq (a b : PermissionType) :
  PermissionType_eqb a b = true <-> a = b.
Proof. destruct a, b; cbn; split; intros H; try reflexivity; discriminate. Qed.

Lemma same_triple_spec (type : PermissionType) (origin : string) (tabId : Z)
    (p : Permission) :
  same_triple type origin tabId p = true
  <-> perm_type p = type /\ perm_origin p = origin /\ perm_tabId p = tabId.
Proof.
  unfold same_triple. rewrite !andb_true_iff, PermissionType_eqb_eq, String.eqb_eq, Z.eqb_eq.
  split; [intros [[Ht Ho] Hi]|intros (Ht & Ho & Hi)]; auto.
Qed.

Lemma find_first {A} (f : A -> bool) (l : list A) (x : A) :
  In x l -> f x = true -> exists y, find f l = Some y.
Proof.
  intros Hin Hf. destruct (find f l) as [y|] eqn:E; [now exists y|].
  rewrite (find_none f l E x Hin) in Hf. discriminate.
Qed.

Lemma find_filter_none {A} (f g : A -> bool) (l : list A) :
  find f l = None -> find f (filter g l) = None.
Proof.
  induction l as [|x l IH]; simpl; [reflexivity|].
  destruct (f x) eqn:Ef; [discriminate|]. intros H.
  destruct (g x); simpl; [rewrite Ef|]; now apply IH.
Qed.

Lemma find_app_none {A} (f : A -> bool) (l : list A) (x : A) :
  find f l = None -> find f (l ++ [x]) = if f x then Some x else None.
Proof.
  induction l as [|y l IH]; simpl; [reflexivity|].
  destruct (f y); [discriminate|exact IH].
Qed.

(** The grant [grantPermission] makes when the clock shows [now]. *)
Definition newGrant (type : PermissionType) (scope : PermissionScope) (origin : string)
    (tabId now : Z) : Permission :=
  {| perm_type := type; perm_scope := scope; perm_origin := origin; perm_tabId := tabId;
     perm_grantedAt := now;
     perm_expiresAt := match scope with
                       | page => None
                       | _ => Some (now + 30 * 60 * 1000)
                       end |}.

Lemma grantPermission_newGrant (type : PermissionType) (scope : PermissionScope)
    (origin : string) (tabId : Z) (w : World) :
  grantPermission type scope origin tabId w
  = (Ok (newGrant type scope origin tabId (clock env (clockReads w))),
     set_permissions
       (filter (fun p => negb (same_triple type origin tabId p)) (permissions w)
        ++ [newGrant type scope origin tabId (clock env (clockReads w))]) (tick w)).
Proof. reflexivity. Qed.

Lemma checkPermission_run (type : PermissionType) (origin : string) (tabId : Z) (w : World) :
  checkPermission type origin tabId w
  = (Ok (find (covers type origin tabId (clock env (clockReads w))) (permissions w)), tick w).
Proof. reflexivity. Qed.

(** X1. A grant is found again: after [grantPermission], a check of the
    same type, origin and tab returns a stored, covering grant, for a
    page-scoped grant at any later time, and otherwise as long as the clock
    has not passed 30 minutes after the grant. *)
Theorem checkPermission_after_grant :
  forall (type : PermissionType) (scope : PermissionScope) (origin : string) (tabId : Z)
         (w : World),
    let w1 := snd (grantPermission type scope origin tabId w) in
    let now := clock env (clockReads w1) in
    scope = page \/ now <= clock env (clockReads w) + 1800000 ->
    exists p,
      fst (checkPermission type origin tabId w1) = Ok (Some p)
      /\ In p (permissions w1)
      /\ covers type origin tabId now p = true.
Proof.
  intros type scope origin tabId w w1 now Hvalid.
  set (g := newGrant type scope origin tabId (clock env (clockReads w))).
  assert (Hin : In g (permissions w1)).
  { subst w1. rewrite grantPermission_newGrant. cbn. apply in_or_app. right. now left. }
  assert (Hcov : covers type origin tabId now g = true).
  { rewrite covers_reaches. unfold g, newGrant, reaches, expired; cbn.
    rewrite PermissionType_eqb_refl, Z.eqb_refl, String.eqb_refl.
    destruct Hvalid as [->|Hle]; [reflexivity|].
    destruct scope; cbn; try reflexivity.
    all: replace (clock env (clockReads w) + 1800000 <? now) with false
           by (symmetry; apply Z.ltb_ge; lia).
    all: now rewrite andb_false_r. }
  rewrite checkPermission_run. cbn [fst]. fold now.
  destruct (find_first _ _ g Hin Hcov) as [p Hp]. exists p.
  split; [now rewrite Hp|]. apply find_some in Hp. exact Hp.
Qed.

(** X2. How far a fresh grant reaches.  When no stored grant covered a
    request, then after [grantPermission type scope origin tabId] a request
    of type [type'] for [origin'] in tab [tabId'] is answered by the new
    grant exactly when the types agree, the grant has not expired, and its
    scope reaches the request: [page] the same tab and origin, [site] the
    same origin in any tab, [session] every origin and tab. *)
Theorem fresh_grant_reach :
  forall (type : PermissionType) (scope : PermissionScope) (origin : string) (tabId : Z)
         (type' : PermissionType) (origin' : string) (tabId' : Z) (w : World),
    let w1 := snd (grantPermission type scope origin tabId w) in
    let now := clock env (clockReads w1) in
    let g := newGrant type scope origin tabId (clock env (clockReads w)) in
    find (covers type' origin' tabId' now) (permissions w) = None ->
    fst (checkPermission type' origin' tabId' w1)
    = Ok (if PermissionType_eqb type type' && negb (expired now g)
             && match scope with
                | page => (tabId =? tabId') && (origin =? origin')%string
                | site => (origin =? origin')%string
                | session => true
                end
          then Some g else None).
Proof.
  intros type scope origin tabId type' origin' tabId' w w1 now g Hnone.
  rewrite checkPermission_run. cbn [fst]. fold now.
  subst w1. rewrite grantPermission_newGrant in *. cbn [snd permissions set_permissions tick] in *.
  fold g. rewrite find_app_none by now apply find_filter_none.
  rewrite covers_reaches. unfold reaches. cbn [perm_type perm_scope perm_tabId perm_origin g newGrant].
  reflexivity.
Qed.

(** X3. [revokePermission] removes every grant of the triple and nothing
    else; on a store without such a grant it changes nothing, and it undoes
    a [grantPermission] for the triple. *)
Theorem revokePermission_spec :
  forall (type : PermissionType) (origin : string) (tabId : Z) (w : World),
    let w' := snd (revokePermission type origin tabId w) in
    fst (revokePermission type origin tabId w) = Ok tt
    /\ (forall p, In p (permissions w')
                  <-> In p (permissions w)
                      /\ ~ (perm_type p = type /\ perm_origin p = origin /\ perm_tabId p = tabId))
    /\ ((forall p, In p (permissions w) ->
                   ~ (perm_type p = type /\ perm_origin p = origin /\ perm_tabId p = tabId)) ->
        permissions w' = permissions w)
    /\ (forall scope,
          permissions (snd (revokePermission type origin tabId
                              (snd (grantPermission type scope origin tabId w))))
          = permissions w').
Proof.
  intros type origin tabId w w'. subst w'. unfold revokePermission, loadPermissions,
    savePermissions, bind, gets, modify. cbn [fst snd permissions set_permissions].
  split; [reflexivity|]. split; [|split].
  - intros p. rewrite filter_In, negb_true_iff, <- same_triple_spec.
    destruct (same_triple type origin tabId p);
      (split; intros [Hp Hs]; (split; [exact Hp|]));
      try discriminate; try reflexivity; exfalso; now apply Hs.
  - intros Hnone. induction (permissions w) as [|p ps IH]; [reflexivity|]. simpl.
    destruct (same_triple type origin tabId p) eqn:E.
    + exfalso. apply (Hnone p); [now left|]. now apply same_triple_spec.
    + simpl. f_equal. apply IH. intros q Hq. apply Hnone. now right.
  - intros scope. rewrite grantPermission_newGrant. cbn [snd permissions set_permissions tick].
    rewrite filter_app, filter_others_kept. cbn [filter].
    rewrite same_triple_refl by reflexivity. cbn. now rewrite app_nil_r.
Qed.

Lemma getActivePermissions_run (tabId : option Z) (w : World) :
  getActivePermissions tabId w
  = (Ok (filter (fun p =>
                   if expired (clock env (clockReads w)) p then false
                   else match tabId with
                        | Some t => perm_tabId p =? t
                        | None => true
                        end) (permissions w)), tick w).
Proof. reflexivity. Qed.

Lemma filter_nothing {A} (f : A -> bool) (l : list A) :
  (forall x, In x l -> f x = false) -> filter f l = [].
Proof.
  induction l as [|x l IH]; intros H; [reflexivity|]. simpl.
  rewrite (H x) by now left. apply IH. intros y Hy. apply H. now right.
Qed.

(** X4. When a tab is closed, [revokeAllForTab] removes the grants made in
    it, whatever their scope, and keeps all others.  Afterwards the tab
    lists no active permission, and a check for the tab can only be answered
    by a site- or session-scoped grant made in another tab. *)
Theorem revokeAllForTab_spec :
  forall (tabId : Z) (w : World),
    let w' := snd (onTabRemoved tabId w) in
    (forall p, In p (permissions w') <-> In p (permissions w) /\ perm_tabId p <> tabId)
    /\ fst (getActivePermissions (Some tabId) w') = Ok []
    /\ (forall type origin p,
          fst (checkPermission type origin tabId w') = Ok (Some p) ->
          In p (permissions w) /\ perm_tabId p <> tabId /\ perm_scope p <> page).
Proof.
  intros tabId w w'.
  assert (Hin : forall p, In p (permissions w')
                          <-> In p (permissions w) /\ perm_tabId p <> tabId).
  { intros p. subst w'. unfold onTabRemoved, revokeAllForTab, loadPermissions,
      savePermissions, bind, gets, modify. cbn [snd permissions set_permissions].
    rewrite filter_In, negb_true_iff, Z.eqb_neq. tauto. }
  split; [exact Hin|]. split.
  - rewrite getActivePermissions_run. cbn [fst]. f_equal. apply filter_nothing.
    intros p Hp. apply Hin in Hp as [_ Hp]. apply Z.eqb_neq in Hp. rewrite Hp.
    now destruct (expired _ p).
  - intros type origin p Hp. rewrite checkPermission_run in Hp. cbn [fst] in Hp.
    injection Hp as Hp. apply find_some in Hp as [Hp Hcov]. apply Hin in Hp as [Hp Htab].
    split; [exact Hp|]. split; [exact Htab|].
    rewrite covers_reaches in Hcov. unfold reaches in Hcov. intros Hscope.
    rewrite Hscope in Hcov. apply andb_true_iff in Hcov as [_ Hcov].
    apply andb_true_iff in Hcov as [Hcov _]. apply Z.eqb_eq in Hcov. contradiction.
Qed.

(** X5. When a tab navigates, [revokePagePermissions] removes the tab's
    page-scoped grants and keeps every other grant, the tab's site- and
    session-scoped ones among them.  Afterwards no page-scoped grant answers
    a check for the tab.  A tab update that carries no URL changes
    nothing. *)
Theorem revokePagePermissions_spec :
  forall (tabId : Z) (w : World),
    let w' := snd (revokePagePermissions tabId w) in
    (forall p, In p (permissions w')
               <-> In p (permissions w) /\ ~ (perm_scope p = page /\ perm_tabId p = tabId))
    /\ (forall type origin p,
          fst (checkPermission type origin tabId w') = Ok (Some p) -> perm_scope p <> page)
    /\ (forall url, url <> "" ->
                    onTabUpdated tabId (Some url) w = revokePagePermissions tabId w)
    /\ onTabUpdated tabId None w = (Ok tt, w)
    /\ onTabUpdated tabId (Some "") w = (Ok tt, w).
Proof.
  intros tabId w w'.
  assert (Hin : forall p, In p (permissions w')
                          <-> In p (permissions w)
                              /\ ~ (perm_scope p = page /\ perm_tabId p = tabId)).
  { intros p. subst w'. unfold revokePagePermissions, loadPermissions,
      savePermissions, bind, gets, modify. cbn [snd permissions set_permissions].
    rewrite filter_In, negb_true_iff, andb_false_iff, Z.eqb_neq.
    destruct (perm_scope p); cbn; intuition congruence. }
  split; [exact Hin|]. split; [|split; [|split]].
  - intros type origin p Hp Hscope. rewrite checkPermission_run in Hp. cbn [fst] in Hp.
    injection Hp as Hp. apply find_some in Hp as [Hp Hcov]. apply Hin in Hp as [_ Hp].
    apply Hp. split; [exact Hscope|].
    rewrite covers_reaches in Hcov. unfold reaches in Hcov. rewrite Hscope in Hcov.
    apply andb_true_iff in Hcov as [_ Hcov]. apply andb_true_iff in Hcov as [Hcov _].
    now apply Z.eqb_eq.
  - intros url Hurl. unfold onTabUpdated.
    destruct (url =? "")%string eqn:E; [apply String.eqb_eq in E; contradiction|reflexivity].
  - reflexivity.
  - reflexivity.
Qed.

(** ** At most one grant per triple *)

Definition triple (p : Permission) : PermissionType * string * Z :=
  (perm_type p, perm_origin p, perm_tabId p).

(** No two stored grants have the same type, origin and tab. *)
Definition uniqueTriples (ps : list Permission) : Prop := NoDup (map triple ps).

Lemma NoDup_map_filter {A B} (f : A -> B) (g : A -> bool) (l : list A) :
  NoDup (map f l) -> NoDup (map f (filter g l)).
Proof.
  induction l as [|x l IH]; simpl; intros H; [constructor|].
  inversion H as [|? ? Hx Hl]; subst. destruct (g x); simpl; [|now apply IH].
  constructor; [|now apply IH]. intros Hin. apply Hx.
  apply in_map_iff in Hin as (y & Hy & Hin). apply in_map_iff. exists y.
  split; [exact Hy|]. now apply filter_In in Hin.
Qed.

Lemma NoDup_snoc {A} (l : list A) (x : A) : NoDup l -> ~ In x l -> NoDup (l ++ [x]).
Proof.
  induction l as [|y l IH]; simpl; intros Hl Hx; [repeat constructor; intros []|].
  inversion Hl as [|? ? Hy Hl']; subst. constructor.
  - intros Hin. apply in_app_or in Hin as [Hin|[->|[]]]; [contradiction|]. apply Hx. now left.
  - apply IH; [exact Hl'|]. intros Hin. apply Hx. now right.
Qed.

Lemma uniqueTriples_grant (type : PermissionType) (scope : PermissionScope)
    (origin : string) (tabId now : Z) (ps : list Permission) :
  uniqueTriples ps ->
  uniqueTriples (filter (fun p => negb (same_triple type origin tabId p)) ps
                 ++ [newGrant type scope origin tabId now]).
Proof.
  intros H. unfold uniqueTriples. rewrite map_app. cbn [map].
  apply NoDup_snoc; [now apply NoDup_map_filter|].
  intros Hin. apply in_map_iff in Hin as (p & Hp & Hin).
  apply filter_In in Hin as [_ Hin]. apply negb_true_iff in Hin.
  assert (same_triple type origin tabId p = true); [|congruence].
  apply same_triple_spec. unfold triple in Hp. cbn in Hp. now injection Hp.
Qed.

Lemma uniqueTriples_ensurePermission (tabId : Z) (permType : PermissionType)
    (origin reason sensitivity : string) (w : World) :
  uniqueTriples (permissions w) ->
  uniqueTriples (permissions (snd (ensurePermission tabId permType origin reason
                                     sensitivity w))).
Proof.
  intros H. run_monad.
  destruct (find _ (permissions w)); cbn; [exact H|].
  destruct (isLocalProvider (llmConfig w) && PermissionType_eqb permType page_read); cbn.
  - now apply (uniqueTriples_grant permType session).
  - destruct (dialogReply env _ _ _ _ _) as [[[[|] scope]|]|e]; cbn; try exact H.
    + now apply (uniqueTriples_grant permType scope).
    + destruct (isLocalProvider (llmConfig w) && PermissionType_eqb permType page_action);
        cbn; [|exact H].
      now apply (uniqueTriples_grant permType page).
Qed.

(** ** The sensitivity classifier *)

Definition rank (s : Sensitivity) : nat :=
  match s with low => 0 | medium => 1 | high => 2 end.

Lemma append_assoc (a b c : string) : (a +++ b) +++ c = a +++ b +++ c.
Proof. induction a as [|x a IH]; simpl; [reflexivity|now rewrite IH]. Qed.

Lemma lowercase_append (a b : string) : lowercase (a +++ b) = lowercase a +++ lowercase b.
Proof. induction a as [|x a IH]; simpl; [reflexivity|now rewrite IH]. Qed.

Lemma substring_split (m n : nat) (s x : string) :
  String.substring m n s = x -> String.length x = n ->
  exists a b, s = a +++ x +++ b.
Proof.
  revert s n x; induction m as [|m IH]; intros s n x Hsub Hlen.
  - exists "". cbn. revert s x Hsub Hlen.
    induction n as [|n IHn]; intros s x Hsub Hlen.
    + destruct x; [|discriminate]. now exists s.
    + destruct s as [|c s]; cbn in Hsub; [subst; discriminate|].
      destruct x as [|d x]; [discriminate|]. injection Hsub as -> Hsub.
      injection Hlen as Hlen. destruct (IHn s x Hsub Hlen) as [b ->]. now exists b.
  - destruct s as [|c s]; cbn in Hsub.
    + exists "", "". destruct n; subst; reflexivity.
    + destruct (IH s n x Hsub Hlen) as (a & b & ->). now exists (String c a), b.
Qed.

(** What [includes] means: the needle stands somewhere in the text. *)
Lemma includes_split (x s : string) :
  includes x s = true -> exists a b, s = a +++ x +++ b.
Proof.
  unfold includes. destruct (String.index 0 x s) as [m|] eqn:E; [intros _|discriminate].
  apply String.index_correct1 in E. now apply (substring_split m (String.length x)).
Qed.

Lemma includes_trans (x a b : string) :
  includes x a = true -> includes a b = true -> includes x b = true.
Proof.
  intros Hx Ha. apply includes_split in Hx as (p & q & ->).
  apply includes_split in Ha as (r & t & ->).
  rewrite !append_assoc. rewrite <- append_assoc. apply includes_middle.
Qed.

Lemma includes_lowercase (a b : string) :
  includes a b = true -> includes (lowercase a) (lowercase b) = true.
Proof.
  intros H. apply includes_split in H as (p & q & ->).
  rewrite !lowercase_append. apply includes_middle.
Qed.

Lemma test_monotone (patterns : list string) (a b : string) :
  includes a b = true -> test patterns a = true -> test patterns b = true.
Proof.
  intros Hab. unfold test. rewrite !existsb_exists. intros (p & Hp & Hin).
  exists p. split; [exact Hp|].
  apply (includes_trans p (lowercase a)); [exact Hin|now apply includes_lowercase].
Qed.

(** X7. Classification only rises with more text: a text that contains
    another one, anywhere and in whatever surroundings, is classified at
    least as high as the text it contains.  In particular what is pasted
    around sensitive content cannot hide it from the classifier. *)
Theorem classifySensitivity_monotone :
  forall (part whole : string),
    includes part whole = true ->
    (rank (classifySensitivity part) <= rank (classifySensitivity whole))%nat.
Proof.
  intros part whole Hin. unfold classifySensitivity.
  destruct (test HIGH_PATTERNS part) eqn:Hh.
  - now rewrite (test_monotone _ _ _ Hin Hh).
  - destruct (test MEDIUM_PATTERNS part) eqn:Hm.
    + rewrite (test_monotone _ _ _ Hin Hm). destruct (test HIGH_PATTERNS whole); cbn; lia.
    + cbn. lia.
Qed.

(** ** The event bus keeps its books *)

(** The two token counters of a session state agree with its data
    entries. *)
Definition balanced (s : SessionState) : Prop :=
  totalTokens s = sumTokens (dataEntries s) /\ contextUsed s = totalTokens s.

Lemma fold_tokens (entries : list DataEntry) (start : Z) :
  fold_left (fun sum e => sum + de_tokenCount e) entries start
  = start + sumTokens entries.
Proof.
  unfold sumTokens. revert start. induction entries as [|e entries IH]; intros start; simpl.
  - lia.
  - rewrite (IH (start + de_tokenCount e)), (IH (de_tokenCount e)). lia.
Qed.

Lemma sumTokens_cons (e : DataEntry) (entries : list DataEntry) :
  sumTokens (e :: entries) = de_tokenCount e + sumTokens entries.
Proof. unfold sumTokens at 1. simpl. rewrite fold_tokens. lia. Qed.

Lemma sumTokens_app (a b : list DataEntry) :
  sumTokens (a ++ b) = sumTokens a + sumTokens b.
Proof.
  induction a as [|e a IH]; [reflexivity|]. simpl. rewrite !sumTokens_cons, IH. lia.
Qed.

Lemma sumTokens_filter (f : DataEntry -> bool) (entries : list DataEntry) :
  sumTokens entries
  = sumTokens (filter f entries) + sumTokens (filter (fun e => negb (f e)) entries).
Proof.
  induction entries as [|e entries IH]; [reflexivity|]. simpl.
  destruct (f e); simpl; rewrite !sumTokens_cons, IH; lia.
Qed.

(** X8. The bus keeps its books.  From a state in which both token
    counters equal the sum of the data entries' token counts, clearing the
    session, recording an entry, emitting an event, logging an audit event,
    setting the processing location and clearing an origin all lead to such
    a state again. *)
Theorem bus_stays_balanced :
  forall (s : SessionState),
    balanced s ->
    balanced (clearSession s)
    /\ (forall now event, balanced (emitEvent now event s))
    /\ (forall origin, balanced (clearOrigin origin s))
    /\ (forall now origin originType dataType tokenCount sensitivity entryMethod,
          balanced (bus_addDataEntry now origin originType dataType tokenCount sensitivity
                      entryMethod s))
    /\ (forall now type origin detail tokensInvolved location,
          balanced (bus_addAuditEvent now type origin detail tokensInvolved location s))
    /\ (forall loc, balanced (bus_setProcessingLocation loc s)).
Proof.
  intros s [Htotal Hused].
  assert (Hadd : forall now origin originType dataType tokenCount sensitivity entryMethod,
             balanced (bus_addDataEntry now origin originType dataType tokenCount sensitivity
                         entryMethod s)).
  { intros. unfold bus_addDataEntry.
    split; cbn [totalTokens contextUsed dataEntries]; [|lia].
    rewrite sumTokens_app, sumTokens_cons. cbn [de_tokenCount].
    change (sumTokens []) with 0. lia. }
  split; [now split|]. split; [|split; [|split; [exact Hadd|split]]].
  - intros now event. unfold emitEvent.
    match goal with |- balanced (bus_addAuditEvent _ _ _ _ _ _ ?t) =>
      assert (Ht : balanced t); [|exact Ht] end.
    destruct (ev_tokens event) as [tokens|]; [destruct (0 <? tokens)|];
      [apply Hadd|now split|now split].
  - intros origin. unfold clearOrigin.
    split; cbn [totalTokens contextUsed dataEntries]; [|lia].
    pose proof (sumTokens_filter (fun e => (de_origin e =? origin)%string) (dataEntries s))
      as Hsplit.
    cbv beta in Hsplit. lia.
  - intros. now split.
  - intros. now split.
Qed.

(** X9. [clearOrigin] forgets the data of one origin and nothing else: the
    entries of that origin are gone, those of every other origin are kept
    in their order, the audit log is left whole, and the counters drop by
    the token counts of what was removed.  Clearing an origin without
    entries changes nothing, and clearing twice is clearing once. *)
Theorem clearOrigin_spec :
  forall (origin : string) (s : SessionState),
    let s' := clearOrigin origin s in
    (forall e, In e (dataEntries s') <-> In e (dataEntries s) /\ de_origin e <> origin)
    /\ (forall other, other <> origin ->
          filter (fun e => (de_origin e =? other)%string) (dataEntries s')
          = filter (fun e => (de_origin e =? other)%string) (dataEntries s))
    /\ auditEvents s' = auditEvents s
    /\ totalTokens s - totalTokens s' = sumTokens (dataEntries s) - sumTokens (dataEntries s')
    /\ contextUsed s - contextUsed s' = totalTokens s - totalTokens s'
    /\ ((forall e, In e (dataEntries s) -> de_origin e <> origin) -> s' = s)
    /\ clearOrigin origin s' = s'.
Proof.
  intros origin s s'.
  assert (Hnone : forall t : SessionState,
             (forall e, In e (dataEntries t) -> de_origin e <> origin) ->
             clearOrigin origin t = t).
  { intros t H. unfold clearOrigin.
    assert (Hkeep : filter (fun e => negb (de_origin e =? origin)%string) (dataEntries t)
                    = dataEntries t).
    { induction (dataEntries t) as [|e l IH]; [reflexivity|]. simpl.
      destruct (de_origin e =? origin)%string eqn:E.
      - apply String.eqb_eq in E. exfalso. apply (H e); [now left|exact E].
      - simpl. f_equal. apply IH. intros x Hx. apply H. now right. }
    rewrite Hkeep, filter_nothing.
    - destruct t; cbn. f_equal; unfold sumTokens; cbn; lia.
    - intros e He. apply String.eqb_neq. now apply H. }
  assert (Hin : forall e, In e (dataEntries s')
                          <-> In e (dataEntries s) /\ de_origin e <> origin).
  { intros e. subst s'. cbn. now rewrite filter_In, negb_true_iff, String.eqb_neq. }
  split; [exact Hin|]. split; [|split; [reflexivity|split; [|split; [|split]]]].
  - intros other Hother. subst s'. cbn. clear Hin.
    induction (dataEntries s) as [|e l IH]; [reflexivity|]. simpl.
    destruct (de_origin e =? origin)%string eqn:E; simpl.
    + apply String.eqb_eq in E.
      destruct (de_origin e =? other)%string eqn:E'; [|exact IH].
      apply String.eqb_eq in E'. congruence.
    + destruct (de_origin e =? other)%string; [now rewrite IH|exact IH].
  - subst s'. unfold clearOrigin. cbn [totalTokens dataEntries].
    pose proof (sumTokens_filter (fun e => (de_origin e =? origin)%string) (dataEntries s))
      as Hsplit.
    cbv beta in Hsplit. lia.
  - subst s'. unfold clearOrigin. cbn [totalTokens contextUsed]. lia.
  - apply Hnone.
  - apply Hnone. intros e He. now apply Hin in He.
Qed.

(** ** The permission guard and the store *)

Lemma ensurePermission_covered (tabId : Z) (permType : PermissionType)
    (origin reason sensitivity : string) (w : World) (p : Permission) :
  find (covers permType origin tabId (clock env (clockReads w))) (permissions w) = Some p ->
  ensurePermission tabId permType origin reason sensitivity w = (Ok true, tick w).
Proof. intros H. run_monad. now rewrite H. Qed.

Lemma ensurePermission_uses_stored_grant_aux (tabId : Z) (permType : PermissionType)
    (origin reason sensitivity : string) (w : World) (p : Permission) :
  In p (permissions w) ->
  perm_type p = permType ->
  expired (clock env (clockReads w)) p = false ->
  reaches p origin tabId = true ->
  ensurePermission tabId permType origin reason sensitivity w = (Ok true, tick w).
Proof.
  intros Hin Htype Hvalid Hreach.
  destruct (find_first (covers permType origin tabId (clock env (clockReads w)))
              (permissions w) p Hin) as [q Hq].
  - rewrite covers_reaches, Htype, PermissionType_eqb_refl, Hvalid, Hreach. reflexivity.
  - now apply (ensurePermission_covered _ _ _ _ _ _ q).
Qed.

(** X10. A request that a stored grant answers costs nothing: when the
    store holds an unexpired grant of the requested type whose scope reaches
    the request, [ensurePermission] returns true and, apart from reading the
    clock, leaves the world as it was: no dialog is shown, no audit event is
    written, and the store is not touched. *)
Theorem ensurePermission_uses_stored_grant :
  forall (tabId : Z) (permType : PermissionType) (origin reason sensitivity : string)
         (w : World) (p : Permission),
    In p (permissions w) ->
    perm_type p = permType ->
    expired (clock env (clockReads w)) p = false ->
    reaches p origin tabId = true ->
    ensurePermission tabId permType origin reason sensitivity w = (Ok true, tick w).
Proof.
  intros tabId permType origin reason sensitivity w p.
  apply ensurePermission_uses_stored_grant_aux.
Qed.

(** What the guard returns is in the store it leaves, and it never throws. *)
Lemma ensurePermission_backed :
  forall (tabId : Z) (permType : PermissionType) (origin reason sensitivity : string)
         (w : World),
    let w' := snd (ensurePermission tabId permType origin reason sensitivity w) in
    match fst (ensurePermission tabId permType origin reason sensitivity w) with
    | Ok true =>
      exists p, In p (permissions w') /\ perm_type p = permType
                /\ reaches p origin tabId = true
    | Ok false => permissions w' = permissions w
    | Throw _ => False
    end.
Proof.
  intros tabId permType origin reason sensitivity w w'.
  assert (Hnew : forall scope now ps,
             exists p, In p (ps ++ [newGrant permType scope origin tabId now])
                       /\ perm_type p = permType /\ reaches p origin tabId = true).
  { intros scope now ps. exists (newGrant permType scope origin tabId now).
    split; [apply in_or_app; right; now left|]. split; [reflexivity|].
    unfold reaches, newGrant; cbn. rewrite Z.eqb_refl, String.eqb_refl. now destruct scope. }
  subst w'. run_monad.
  destruct (find _ (permissions w)) as [p|] eqn:Hfind; cbn.
  - apply find_some in Hfind as [Hin Hcov]. rewrite covers_reaches in Hcov.
    apply andb_true_iff in Hcov as [Hcov Hreach]. apply andb_true_iff in Hcov as [Htype _].
    exists p. split; [exact Hin|]. split; [now apply PermissionType_eqb_eq|exact Hreach].
  - destruct (isLocalProvider (llmConfig w) && PermissionType_eqb permType page_read); cbn.
    + apply (Hnew session).
    + destruct (dialogReply env _ _ _ _ _) as [[[[|] scope]|]|e]; cbn; try reflexivity.
      * apply (Hnew scope).
      * destruct (isLocalProvider (llmConfig w) && PermissionType_eqb permType page_action);
          cbn; [apply (Hnew page)|reflexivity].
Qed.

(** X11. The guard's answer is backed by the store.  It never throws;
    when it returns true, the store it leaves holds a grant of the requested
    type whose scope reaches the request; when it returns false, it leaves
    the store as it found it. *)
Theorem ensurePermission_sound :
  forall (tabId : Z) (permType : PermissionType) (origin reason sensitivity : string)
         (w : World),
    let w' := snd (ensurePermission tabId permType origin reason sensitivity w) in
    match fst (ensurePermission tabId permType origin reason sensitivity w) with
    | Ok true =>
      exists p, In p (permissions w') /\ perm_type p = permType
                /\ reaches p origin tabId = true
    | Ok false => permissions w' = permissions w
    | Throw _ => False
    end.
Proof. exact ensurePermission_backed. Qed.

Definition approvedEvent (permType : PermissionType) (scope : PermissionScope)
    (origin : string) (location : Location) (timestamp : Z) : AuditEvent :=
  {| ae_type := EventType.permission_granted;
     ae_origin := origin;
     ae_detail :=
       JObj [("permType", PermissionType_json permType);
             ("scope", JStr (PermissionScope_name scope))];
     ae_userAction := Some "approved";
     ae_tokensInvolved := None;
     ae_processingLocation := location;
     ae_timestamp := timestamp |}.

Definition deniedEvent (permType : PermissionType) (origin : string)
    (location : Location) (timestamp : Z) : AuditEvent :=
  {| ae_type := EventType.permission_denied;
     ae_origin := origin;
     ae_detail := JObj [("permType", PermissionType_json permType)];
     ae_userAction := Some "denied";
     ae_tokensInvolved := None;
     ae_processingLocation := location;
     ae_timestamp := timestamp |}.

(** What the dialog resolves to is a refusal: [granted] is false or
    missing. *)
Definition refusal (reply : option (bool * PermissionScope)) : Prop :=
  match reply with
  | Some (true, _) => False
  | _ => True
  end.

(** X12. A refusal is logged, not remembered.  When the user declines in
    the dialog, [ensurePermission] returns false and leaves the permission
    store and the data entries as they were; it shows the dialog once and
    adds to the audit log the request and the denial, in that order. *)
Theorem ensurePermission_refusal_is_not_stored :
  forall (tabId : Z) (permType : PermissionType) (origin reason sensitivity : string)
         (w : World) (reply : option (bool * PermissionScope)),
    noCoveringGrant permType origin tabId w ->
    isLocalProvider (llmConfig w) && PermissionType_eqb permType page_read = false ->
    dialogReply env (length (trace w)) tabId permType reason sensitivity = Ok reply ->
    refusal reply ->
    let location := locationOf (isLocalProvider (llmConfig w)) in
    let w' := snd (ensurePermission tabId permType origin reason sensitivity w) in
    fst (ensurePermission tabId permType origin reason sensitivity w) = Ok false
    /\ permissions w' = permissions w
    /\ dataEntries (sessionState w') = dataEntries (sessionState w)
    /\ trace w' = trace w ++ [SendToTab tabId (SHOW_PERMISSION_DIALOG permType reason sensitivity)]
    /\ auditEvents (sessionState w')
       = auditEvents (sessionState w)
         ++ [ requestedEvent permType origin reason sensitivity location
                (clock env (2 + clockReads w));
              deniedEvent permType origin location (clock env (4 + clockReads w)) ].
Proof.
  intros tabId permType origin reason sensitivity w reply Hnone Hnoauto Hdialog Hrefusal
         location w'.
  subst w' location. unfold noCoveringGrant in Hnone.
  run_monad. rewrite Hnone. cbn. rewrite Hnoauto. cbn. rewrite Hdialog.
  destruct reply as [[[|] scope]|]; [contradiction| |]; cbn;
    rewrite <- app_assoc; repeat split.
Qed.

(** X13. An approval is stored with the scope the user chose.  When the
    user approves in the dialog, [ensurePermission] returns true, the grant
    for the request's type, origin and tab is replaced by one of the chosen
    scope, and the audit log gains the request and the approval.  As long as
    that grant has not expired, the same request is then answered from the
    store, without a second dialog. *)
Theorem ensurePermission_approval_is_stored :
  forall (tabId : Z) (permType : PermissionType) (origin reason sensitivity : string)
         (w : World) (scope : PermissionScope),
    noCoveringGrant permType origin tabId w ->
    isLocalProvider (llmConfig w) && PermissionType_eqb permType page_read = false ->
    dialogReply env (length (trace w)) tabId permType reason sensitivity
    = Ok (Some (true, scope)) ->
    let location := locationOf (isLocalProvider (llmConfig w)) in
    let w' := snd (ensurePermission tabId permType origin reason sensitivity w) in
    let g := newGrant permType scope origin tabId (clock env (3 + clockReads w)) in
    fst (ensurePermission tabId permType origin reason sensitivity w) = Ok true
    /\ permissions w'
       = filter (fun p => negb (same_triple permType origin tabId p)) (permissions w) ++ [g]
    /\ trace w' = trace w ++ [SendToTab tabId (SHOW_PERMISSION_DIALOG permType reason sensitivity)]
    /\ auditEvents (sessionState w')
       = auditEvents (sessionState w)
         ++ [ requestedEvent permType origin reason sensitivity location
                (clock env (2 + clockReads w));
              approvedEvent permType scope origin location (clock env (5 + clockReads w)) ]
    /\ (expired (clock env (clockReads w')) g = false ->
        ensurePermission tabId permType origin reason sensitivity w' = (Ok true, tick w')).
Proof.
  intros tabId permType origin reason sensitivity w scope Hnone Hnoauto Hdialog
         location w' g.
  assert (Hrun : ensurePermission tabId permType origin reason sensitivity w
                 = (Ok true, w')) by (subst w'; run_monad;
                                      unfold noCoveringGrant in Hnone;
                                      rewrite Hnone; cbn; rewrite Hnoauto; cbn;
                                      now rewrite Hdialog).
  assert (Hstore : permissions w'
                   = filter (fun p => negb (same_triple permType origin tabId p))
                            (permissions w) ++ [g]).
  { subst w' g. unfold noCoveringGrant in Hnone. run_monad. rewrite Hnone. cbn.
    rewrite Hnoauto. cbn. rewrite Hdialog. reflexivity. }
  split; [now rewrite Hrun|]. split; [exact Hstore|]. split; [|split].
  - subst w'. unfold noCoveringGrant in Hnone. run_monad. rewrite Hnone. cbn.
    rewrite Hnoauto. cbn. rewrite Hdialog. reflexivity.
  - subst w' location. unfold noCoveringGrant in Hnone. run_monad. rewrite Hnone. cbn.
    rewrite Hnoauto. cbn. rewrite Hdialog. cbn. now rewrite <- app_assoc.
  - intros Hvalid.
    apply (ensurePermission_uses_stored_grant_aux tabId permType origin reason sensitivity
             w' g).
    + rewrite Hstore. apply in_or_app. right. now left.
    + reflexivity.
    + exact Hvalid.
    + unfold reaches, g, newGrant; cbn. rewrite Z.eqb_refl, String.eqb_refl.
      now destruct scope.
Qed.

(** X14. The automatic grant under the local backend is session-wide.
    Once a page read has been granted automatically for one origin and tab,
    a page read of any other origin in any other tab is answered from the
    store for the next 30 minutes: nothing is asked, and nothing more is
    written to the audit log. *)
Theorem auto_grant_is_session_wide :
  forall (tabId : Z) (origin reason sensitivity : string) (w : World),
    provider (llmConfig w) = ollama ->
    noCoveringGrant page_read origin tabId w ->
    let w1 := snd (ensurePermission tabId page_read origin reason sensitivity w) in
    clock env (clockReads w1) <= clock env (1 + clockReads w) + 1800000 ->
    forall (tabId' : Z) (origin' reason' sensitivity' : string),
      ensurePermission tabId' page_read origin' reason' sensitivity' w1 = (Ok true, tick w1).
Proof.
  intros tabId origin reason sensitivity w Hlocal Hnone w1 Hclock
         tabId' origin' reason' sensitivity'.
  set (g := newGrant page_read session origin tabId (clock env (1 + clockReads w))).
  assert (Hstore : permissions w1
                   = filter (fun p => negb (same_triple page_read origin tabId p))
                            (permissions w) ++ [g]).
  { subst w1 g. unfold noCoveringGrant in Hnone. run_monad. rewrite Hnone. cbn.
    unfold isLocalProvider. rewrite Hlocal. reflexivity. }
  apply (ensurePermission_uses_stored_grant_aux tabId' page_read origin' reason'
           sensitivity' w1 g).
  - rewrite Hstore. apply in_or_app. right. now left.
  - reflexivity.
  - unfold expired, g, newGrant; cbn [perm_expiresAt].
    apply andb_false_iff. right. apply Z.ltb_ge. lia.
  - reflexivity.
Qed.

(** ** Dispatch of a tool call *)

Definition listsTool (toolName : json) (server : McpServer) : bool :=
  existsb (fun t => match toolName with
                    | JStr n => (mcp_name t =? n)%string
                    | _ => false
                    end) (srv_tools server).

(** [findMcpServer] returns the first enabled server that lists the
    tool. *)
Lemma findMcpServer_spec (toolName : json) (servers : list McpServer) :
  match findMcpServer toolName servers with
  | Some server =>
    exists before after,
      servers = before ++ server :: after
      /\ srv_enabled server = true /\ listsTool toolName server = true
      /\ Forall (fun s => srv_enabled s && listsTool toolName s = false) before
  | None => Forall (fun s => srv_enabled s && listsTool toolName s = false) servers
  end.
Proof.
  induction servers as [|s servers IH]; simpl; [constructor|].
  destruct (srv_enabled s) eqn:En; cbn [negb].
  - fold (listsTool toolName s). destruct (listsTool toolName s) eqn:L.
    + exists [], servers. repeat split; try assumption. constructor.
    + destruct (findMcpServer toolName servers) as [server|].
      * destruct IH as (before & after & -> & He & Hl & Hb).
        exists (s :: before), after. repeat split; try assumption.
        constructor; [now rewrite En, L|exact Hb].
      * constructor; [now rewrite En, L|exact IH].
  - destruct (findMcpServer toolName servers) as [server|].
    + destruct IH as (before & after & -> & He & Hl & Hb).
      exists (s :: before), after. repeat split; try assumption.
      constructor; [now rewrite En|exact Hb].
    + constructor; [now rewrite En|exact IH].
Qed.

Lemma executeToolCall_unknown (toolName args : json) (tabId : Z) (w : World) :
  PAGE_TOOLS (to_str toolName) = None ->
  (forall server, In server (mcpServers w) -> srv_enabled server = true ->
                  listsTool toolName server = false) ->
  executeToolCall toolName args tabId w
  = (Ok (failure ("Unknown tool: " +++ to_str toolName)), w).
Proof.
  intros Hbuiltin Hnone.
  unfold executeToolCall. rewrite Hbuiltin. unfold loadMcpServers, bind, gets, ret.
  pose proof (findMcpServer_spec toolName (mcpServers w)) as Hfind.
  destruct (findMcpServer toolName (mcpServers w)) as [server|]; [|reflexivity].
  destruct Hfind as (before & after & Heq & He & Hl & _).
  rewrite (Hnone server) in Hl; [discriminate| |exact He].
  rewrite Heq. apply in_or_app. right. now left.
Qed.

(** X15. A tool whose name [PAGE_TOOLS] lacks (it is neither a built-in
    tool's nor a name that every object inherits, such as [constructor] or
    [toString]) and that no enabled MCP server lists is refused without any
    effect: the result is the failure ['Unknown tool: NAME'], nothing is
    sent or broadcast, and the world is left as it was.  The tools of a
    disabled server count as unknown. *)
Theorem executeToolCall_unknown_tool :
  forall (toolName args : json) (tabId : Z) (w : World),
    PAGE_TOOLS (to_str toolName) = None ->
    (forall server, In server (mcpServers w) -> srv_enabled server = true ->
                    listsTool toolName server = false) ->
    executeToolCall toolName args tabId w
    = (Ok (failure ("Unknown tool: " +++ to_str toolName)), w).
Proof. intros toolName args tabId w. apply executeToolCall_unknown. Qed.

(** A call of a name that [PAGE_TOOLS] lacks goes to the MCP servers. *)
Lemma mcp_call_routed :
  forall (toolName args : json) (tabId : Z) (w : World),
    PAGE_TOOLS (to_str toolName) = None ->
    let w' := snd (executeToolCall toolName args tabId w) in
    permissions w' = permissions w
    /\ sessionState w' = sessionState w
    /\ pushes w' = pushes w
    /\ exists result,
         fst (executeToolCall toolName args tabId w) = Ok result
         /\ ((w' = w
              /\ result = failure ("Unknown tool: " +++ to_str toolName))
             \/ exists server before after line,
                  mcpServers w = before ++ server :: after
                  /\ srv_enabled server = true /\ listsTool toolName server = true
                  /\ Forall (fun s => srv_enabled s && listsTool toolName s = false) before
                  /\ trace w' = trace w ++ [ConsoleLog line;
                                            McpCall (srv_url server) (to_str toolName) args]
                  /\ clockReads w' = S (clockReads w)
                  /\ match mcpReply env (S (length (trace w))) (srv_url server)
                             (to_str toolName) args with
                     | Ok reply => result = reply
                     | Throw err => result = failure ("MCP error: " +++ err)
                     end).
Proof.
  intros toolName args tabId w Hbuiltin w'. subst w'.
  unfold executeToolCall. rewrite Hbuiltin.
  unfold loadMcpServers, bind, gets, ret, tryCatch, consoleLog, callMcpTool, bind, dateNow,
    mcpExchange, modify.
  pose proof (findMcpServer_spec toolName (mcpServers w)) as Hfind.
  destruct (findMcpServer toolName (mcpServers w)) as [server|]; cbn [fst snd].
  - destruct Hfind as (before & after & Heq & He & Hl & Hb).
    replace (length (trace (tick (emit (ConsoleLog
               ("[OpenLens] Calling MCP tool " +++ quoted (to_str toolName)
                +++ " on server " +++ quoted (srv_name server))) w))))
      with (S (length (trace w)))
      by (cbn [tick emit trace]; rewrite length_app; cbn; lia).
    destruct (mcpReply env (S (length (trace w))) (srv_url server) (to_str toolName) args)
      as [reply|err] eqn:Hreply; cbn [fst snd].
    all: split; [reflexivity|]; split; [reflexivity|]; split; [reflexivity|].
    all: eexists; split; [reflexivity|].
    all: right; exists server, before, after; eexists.
    all: repeat split; try eassumption.
    all: try (rewrite Hreply; reflexivity).
    all: cbn [trace emit tick]; rewrite <- ?app_assoc; reflexivity.
  - split; [reflexivity|]. split; [reflexivity|]. split; [reflexivity|].
    eexists. split; [reflexivity|]. now left.
Qed.

(** X16. A tool of an MCP server is called on the first enabled server
    that lists it, and a failure of the call is a result, not an exception:
    for a name that [PAGE_TOOLS] does not have, [executeToolCall] never
    throws; it either does nothing (the tool is unknown) or logs the call,
    reads the clock once for the request's id, makes exactly one exchange
    with that server, and returns the server's result, or the failure
    ['MCP error: ...'] when the call threw.  The permission guard is not
    consulted: the permission store and the session ledger are left as
    they were, and nothing is broadcast to the tabs. *)
Theorem executeToolCall_mcp :
  forall (toolName args : json) (tabId : Z) (w : World),
    PAGE_TOOLS (to_str toolName) = None ->
    let w' := snd (executeToolCall toolName args tabId w) in
    permissions w' = permissions w
    /\ sessionState w' = sessionState w
    /\ pushes w' = pushes w
    /\ exists result,
         fst (executeToolCall toolName args tabId w) = Ok result
         /\ ((w' = w
              /\ result = failure ("Unknown tool: " +++ to_str toolName))
             \/ exists server before after line,
                  mcpServers w = before ++ server :: after
                  /\ srv_enabled server = true /\ listsTool toolName server = true
                  /\ Forall (fun s => srv_enabled s && listsTool toolName s = false) before
                  /\ trace w' = trace w ++ [ConsoleLog line;
                                            McpCall (srv_url server) (to_str toolName) args]
                  /\ clockReads w' = S (clockReads w)
                  /\ match mcpReply env (S (length (trace w))) (srv_url server)
                             (to_str toolName) args with
                     | Ok reply => result = reply
                     | Throw err => result = failure ("MCP error: " +++ err)
                     end).
Proof. exact mcp_call_routed. Qed.

Definition isMcpCall (e : Effect) : bool :=
  match e with McpCall _ _ _ => true | _ => false end.

(** What a built-in tool sends once the guard has let it pass: at most
    one effect, and never a call to an MCP server. *)
Lemma routeToContentScript_trace (toolName args : json) (tabId : Z) (w : World) :
  exists sent,
    trace (snd (routeToContentScript toolName args tabId w)) = trace w ++ sent
    /\ (length sent <= 1)%nat /\ forallb (fun e => negb (isMcpCall e)) sent = true.
Proof.
  assert (Hnone : forall w0 : World,
             exists sent, trace w0 = trace w0 ++ sent
                          /\ (length sent <= 1)%nat
                          /\ forallb (fun e => negb (isMcpCall e)) sent = true).
  { intros w0. exists []. rewrite app_nil_r. repeat split. cbn. lia. }
  assert (Hone : forall (w0 : World) e,
             isMcpCall e = false ->
             exists sent, trace (emit e w0) = trace w0 ++ sent
                          /\ (length sent <= 1)%nat
                          /\ forallb (fun e => negb (isMcpCall e)) sent = true).
  { intros w0 e He. exists [e]. cbn. rewrite He. repeat split. lia. }
  unfold routeToContentScript, sendToTab, chromeTabsCreate, bind, ret.
  destruct toolName as [| | | |name| |]; try apply Hnone.
  destruct ((name =? "read_page")%string || (name =? "extract_data")%string);
    [now apply Hone|].
  destruct (name =? "find_on_page")%string; [now apply Hone|].
  destruct (name =? "click_element")%string; [now apply Hone|].
  destruct (name =? "fill_form")%string; [now apply Hone|].
  destruct (name =? "navigate")%string; [|apply Hnone].
  destruct (truthy (field "url" args)); [|apply Hnone].
  destruct (tabsCreate env _ _); cbn [fst snd]; now apply Hone.
Qed.

(** The broadcasts so far stay and those added are [STATE_UPDATE]
    snapshots, one for each event added to the audit log. *)
Definition snapshotPerEvent (w w' : World) : Prop :=
  exists pushed events,
    pushes w' = pushes w ++ pushed
    /\ Forall (fun p => p = STATE_UPDATE) pushed
    /\ auditEvents (sessionState w') = auditEvents (sessionState w) ++ events
    /\ length pushed = length events.

Lemma snapshotPerEvent_same (w w' : World) :
  pushes w' = pushes w -> auditEvents (sessionState w') = auditEvents (sessionState w) ->
  snapshotPerEvent w w'.
Proof.
  intros Hp He. exists [], []. rewrite !app_nil_r. repeat split; try assumption. constructor.
Qed.

Lemma snapshotPerEvent_trans (a b c : World) :
  snapshotPerEvent a b -> snapshotPerEvent b c -> snapshotPerEvent a c.
Proof.
  intros (p1 & e1 & Hp1 & Hs1 & He1 & Hl1) (p2 & e2 & Hp2 & Hs2 & He2 & Hl2).
  exists (p1 ++ p2), (e1 ++ e2). rewrite Hp2, Hp1, He2, He1, !app_assoc, !length_app.
  repeat split; [now apply Forall_app|lia].
Qed.

Lemma ensurePermission_snapshots (tabId : Z) (permType : PermissionType)
    (origin reason sensitivity : string) (w : World) :
  snapshotPerEvent w (snd (ensurePermission tabId permType origin reason sensitivity w)).
Proof.
  assert (H0 : forall w', pushes w' = pushes w ->
                          auditEvents (sessionState w') = auditEvents (sessionState w) ->
                          snapshotPerEvent w w') by apply snapshotPerEvent_same.
  assert (H1 : forall w' e, pushes w' = pushes w ++ [STATE_UPDATE] ->
                 auditEvents (sessionState w') = auditEvents (sessionState w) ++ [e] ->
                 snapshotPerEvent w w').
  { intros w' e Hp He. exists [STATE_UPDATE], [e]. repeat split; try assumption.
    now constructor. }
  assert (H2 : forall w' e1 e2, pushes w' = (pushes w ++ [STATE_UPDATE]) ++ [STATE_UPDATE] ->
                 auditEvents (sessionState w')
                 = (auditEvents (sessionState w) ++ [e1]) ++ [e2] ->
                 snapshotPerEvent w w').
  { intros w' e1 e2 Hp He. exists [STATE_UPDATE; STATE_UPDATE], [e1; e2].
    rewrite <- app_assoc in Hp, He. repeat split; try assumption.
    now repeat constructor. }
  run_monad. unfold syncState, modify. cbn.
  destruct (find _ (permissions w)); cbn; [now apply H0|].
  destruct (isLocalProvider (llmConfig w) && PermissionType_eqb permType page_read); cbn;
    [now eapply H1|].
  destruct (dialogReply env _ _ _ _ _) as [[[[|] scope]|]|e]; cbn;
    try (now eapply H2); try (now eapply H1).
  destruct (isLocalProvider (llmConfig w) && PermissionType_eqb permType page_action); cbn;
    [now eapply H2|now eapply H1].
Qed.

Lemma ensurePermission_pushes (tabId : Z) (permType : PermissionType)
    (origin reason sensitivity : string) (w : World) :
  exists pushed,
    pushes (snd (ensurePermission tabId permType origin reason sensitivity w))
    = pushes w ++ pushed
    /\ Forall (fun p => p = STATE_UPDATE) pushed /\ (length pushed <= 2)%nat.
Proof.
  set (few := fun w' : World =>
                exists pushed, pushes w' = pushes w ++ pushed
                               /\ Forall (fun p => p = STATE_UPDATE) pushed
                               /\ (length pushed <= 2)%nat).
  change (few (snd (ensurePermission tabId permType origin reason sensitivity w))).
  assert (H0 : forall w', pushes w' = pushes w -> few w').
  { intros w' H. exists []. rewrite app_nil_r. repeat split; [exact H|constructor|cbn; lia]. }
  assert (H1 : forall w', pushes w' = pushes w ++ [STATE_UPDATE] -> few w').
  { intros w' H. exists [STATE_UPDATE]. repeat split; [exact H|now constructor|cbn; lia]. }
  assert (H2 : forall w', pushes w' = (pushes w ++ [STATE_UPDATE]) ++ [STATE_UPDATE] ->
                          few w').
  { intros w' H. exists [STATE_UPDATE; STATE_UPDATE]. rewrite <- app_assoc in H.
    repeat split; [exact H|now repeat constructor|cbn; lia]. }
  clearbody few.
  run_monad. unfold syncState, modify. cbn.
  destruct (find _ (permissions w)); cbn; [now apply H0|].
  destruct (isLocalProvider (llmConfig w) && PermissionType_eqb permType page_read); cbn;
    [now apply H1|].
  destruct (dialogReply env _ _ _ _ _) as [[[[|] scope]|]|e]; cbn;
    try (now apply H2); try (now apply H1).
  destruct (isLocalProvider (llmConfig w) && PermissionType_eqb permType page_action); cbn;
    [now apply H2|now apply H1].
Qed.

(** A command to the page is awaited; nothing is broadcast for it. *)
Lemma routeToContentScript_pushes (toolName args : json) (tabId : Z) (w : World) :
  pushes (snd (routeToContentScript toolName args tabId w)) = pushes w
  /\ mcpServers (snd (routeToContentScript toolName args tabId w)) = mcpServers w.
Proof.
  unfold routeToContentScript, sendToTab, chromeTabsCreate, bind, ret.
  destruct toolName as [| | | |name| |]; try (split; reflexivity).
  destruct ((name =? "read_page")%string || (name =? "extract_data")%string);
    [split; reflexivity|].
  destruct (name =? "find_on_page")%string; [split; reflexivity|].
  destruct (name =? "click_element")%string; [split; reflexivity|].
  destruct (name =? "fill_form")%string; [split; reflexivity|].
  destruct (name =? "navigate")%string; [|split; reflexivity].
  destruct (truthy (field "url" args)); [|split; reflexivity].
  destruct (tabsCreate env _ _); split; reflexivity.
Qed.

(** A call of a name that [PAGE_TOOLS] has stays with the tab. *)
Lemma builtin_call_stays_local :
  forall (toolName args : json) (tabId : Z) (w : World) (builtIn : Member),
    PAGE_TOOLS (to_str toolName) = Some builtIn ->
    let w' := snd (executeToolCall toolName args tabId w) in
    mcpServers w' = mcpServers w
    /\ (exists sent,
           trace w' = trace w ++ TabsGet tabId :: sent
           /\ (length sent <= 2)%nat
           /\ forallb (fun e => negb (isMcpCall e)) sent = true)
    /\ exists pushed,
         pushes w' = pushes w ++ pushed
         /\ Forall (fun p => p = STATE_UPDATE) pushed
         /\ (length pushed <= 2)%nat.
Proof.
  intros toolName args tabId w builtIn Hbuiltin w'. subst w'.
  unfold executeToolCall. rewrite Hbuiltin. rewrite bind_run.
  pose proof (checkToolPermission_trace builtIn toolName tabId w) as Hsent.
  assert (Hkept : mcpServers (snd (checkToolPermission builtIn toolName tabId w))
                  = mcpServers w
                  /\ exists pushed,
                       pushes (snd (checkToolPermission builtIn toolName tabId w))
                       = pushes w ++ pushed
                       /\ Forall (fun p => p = STATE_UPDATE) pushed
                       /\ (length pushed <= 2)%nat).
  { unfold checkToolPermission. rewrite bind_run.
    destruct (tabOrigin_run tabId w) as [origin ->]. split.
    - run_monad. unfold syncState, modify. cbn.
      destruct (find _ (permissions w)); cbn; [reflexivity|].
      destruct (isLocalProvider (llmConfig w)
                && PermissionType_eqb (requiredPermission builtIn) page_read);
        cbn; [reflexivity|].
      destruct (dialogReply env _ _ _ _ _) as [[[[|] scope]|]|e]; cbn; try reflexivity.
      destruct (isLocalProvider (llmConfig w)
                && PermissionType_eqb (requiredPermission builtIn) page_action);
        reflexivity.
    - match goal with |- context [ensurePermission ?t ?p ?o ?r ?s ?w0] =>
        apply (ensurePermission_pushes t p o r s w0) end. }
  destruct Hkept as [Hservers Hpushed].
  destruct (checkToolPermission builtIn toolName tabId w) as [[granted|e] w1];
    cbn [snd] in *.
  2: { split; [exact Hservers|]. split; [|exact Hpushed].
       destruct Hsent as [->|(r & s & ->)]; eexists; (split; [reflexivity|]); cbn;
         split; (lia || reflexivity). }
  destruct granted; cbn [negb].
  - destruct (routeToContentScript_trace toolName args tabId w1) as (sent & Hroute & Hlen & Hno).
    destruct (routeToContentScript_pushes toolName args tabId w1) as [Hp Hs].
    split; [now rewrite Hs|]. split; [|now rewrite Hp].
    rewrite Hroute.
    destruct Hsent as [->|(r & s & ->)]; rewrite <- app_assoc; cbn [app];
      eexists; (split; [reflexivity|]).
    + split; [lia|exact Hno].
    + cbn [length forallb isMcpCall negb andb]. split; [lia|exact Hno].
  - split; [exact Hservers|]. split; [|exact Hpushed]. unfold ret. cbn [snd].
    destruct Hsent as [->|(r & s & ->)]; eexists; (split; [reflexivity|]); cbn;
      split; (lia || reflexivity).
Qed.

(** X17. What [PAGE_TOOLS] has shadows the MCP servers' tools: a call
    whose name [PAGE_TOOLS] has, a built-in tool's or one that every
    object inherits, is never passed to an MCP server, even when an enabled
    server lists a tool of that name.  After the tab lookup the worker
    awaits at most the consent dialog and one command, and it leaves the
    server list alone.  Besides, each audit event of the guard, at most
    two, comes with a [STATE_UPDATE] snapshot broadcast to the open tabs;
    nothing else is broadcast. *)
Theorem executeToolCall_builtin_shadows_mcp :
  forall (toolName args : json) (tabId : Z) (w : World) (builtIn : Member),
    PAGE_TOOLS (to_str toolName) = Some builtIn ->
    let w' := snd (executeToolCall toolName args tabId w) in
    mcpServers w' = mcpServers w
    /\ (exists sent,
           trace w' = trace w ++ TabsGet tabId :: sent
           /\ (length sent <= 2)%nat
           /\ forallb (fun e => negb (isMcpCall e)) sent = true)
    /\ exists pushed,
         pushes w' = pushes w ++ pushed
         /\ Forall (fun p => p = STATE_UPDATE) pushed
         /\ (length pushed <= 2)%nat.
Proof. exact builtin_call_stays_local. Qed.

(** ** What the worker's flows do to the world, step by step

    The frame conditions above let a relation ignore how the permission
    store, the plan and the session state change.  The conditions below
    name the changes the worker actually makes: a grant in the store, an
    update of one step of the plan, one more audit event, one more data
    entry, a new processing location, context used by a reply, and effects
    that concern one tab. *)

Definition appendAudit (e : AuditEvent) (w : World) : World :=
  let s := sessionState w in
  set_sessionState
    {| totalTokens := totalTokens s; contextUsed := contextUsed s;
       contextLimit := contextLimit s; processingLocation := processingLocation s;
       dataEntries := dataEntries s; auditEvents := auditEvents s ++ [e] |} w.

(** What a relation admits of the things that depend on the flow: the
    awaited effects, the broadcasts to the tabs, and the updates of a step
    of the plan. *)
Record Allowed : Type := {
  okEffect : Effect -> Prop;
  okPush : Push -> Prop;
  okUpdate : (TaskStep -> TaskStep) -> Prop
}.

Definition anything : Allowed :=
  {| okEffect := fun _ => True; okPush := fun _ => True; okUpdate := fun _ => True |}.

Definition effectsOnly (ok : Effect -> Prop) : Allowed :=
  {| okEffect := ok; okPush := fun _ => True; okUpdate := fun _ => True |}.

Record Steps (R : World -> World -> Prop) (allowed : Allowed) : Prop := {
  sp_refl : forall w, R w w;
  sp_trans : forall a b c, R a b -> R b c -> R a c;
  sp_tick : forall w, R w (tick w);
  sp_grant :
    forall type scope origin tabId now w,
      R w (set_permissions
             (filter (fun p => negb (same_triple type origin tabId p)) (permissions w)
              ++ [newGrant type scope origin tabId now]) w);
  sp_toolCallState : forall s w, R w (set_toolCallState s w);
  sp_updateStep :
    forall stepIdx f w, okUpdate allowed f -> R w (snd (updateStep stepIdx f w));
  sp_audit : forall e w, R w (appendAudit e w);
  sp_entry : forall e w, R w (appendEntry e w);
  sp_location : forall loc w, R w (snd (setProcessingLocation loc w));
  sp_context : forall n w, 0 <= n -> R w (snd (addContextUsed n w));
  sp_emit : forall e w, okEffect allowed e -> R w (emit e w);
  sp_push : forall p w, okPush allowed p -> R w (push p w)
}.

(** The origin the steps of the current plan are attributed to. *)
Definition originOf (w : World) : string :=
  match currentPlan w with
  | Some plan => planOrigin plan
  | None => "unknown"
  end.

Create HintDb steps.

Section Steps.

Variable R : World -> World -> Prop.
Variable allowed : Allowed.
Hypothesis P : Steps R allowed.

(** The tab the flow was started for, and the origin of the plan. *)
Variable theTab : Z.
Variable theOrigin : string.

Hypothesis ok_send : forall msg, okEffect allowed (SendToTab theTab msg).
Hypothesis ok_tabsGet : okEffect allowed (TabsGet theTab).
Hypothesis ok_create : forall url, okEffect allowed (TabsCreate url).
Hypothesis ok_fetch : forall req, okEffect allowed (Fetch req).
Hypothesis ok_mcp :
  forall serverUrl toolName args, okEffect allowed (McpCall serverUrl toolName args).
Hypothesis ok_log : forall line, okEffect allowed (ConsoleLog line).
Hypothesis ok_state : okPush allowed STATE_UPDATE.
Hypothesis ok_toolUpdate :
  forall running callCount finalAnswer error,
    okPush allowed (TOOL_CALL_UPDATE running callCount finalAnswer error).
Hypothesis ok_keeps :
  forall f, (forall s, step_origin (f s) = step_origin s) -> okUpdate allowed f.
Hypothesis ok_data :
  forall result tokens sensitivity,
    okUpdate allowed (with_data result tokens theOrigin sensitivity).

Lemma kept_ret {A} (a : A) : preserves R (ret a).
Proof. intros w. apply (sp_refl _ _ P). Qed.

Lemma kept_throw {A} (e : string) : preserves R (@throw A e).
Proof. intros w. apply (sp_refl _ _ P). Qed.

Lemma kept_throwError {A} (e : string) : preserves R (@throwError A e).
Proof. intros w. apply (sp_refl _ _ P). Qed.

Lemma kept_gets {A} (f : World -> A) : preserves R (gets f).
Proof. intros w. apply (sp_refl _ _ P). Qed.

Lemma kept_liftRes {A} (r : Res A) : preserves R (liftRes r).
Proof. intros w. apply (sp_refl _ _ P). Qed.

Lemma kept_bind {A B} (m : M A) (k : A -> M B) :
  preserves R m -> (forall a, preserves R (k a)) -> preserves R (bind m k).
Proof.
  intros Hm Hk w. unfold bind. specialize (Hm w).
  destruct (m w) as [[a|e] w1]; cbn in *; [|exact Hm].
  eapply (sp_trans _ _ P); [exact Hm|apply Hk].
Qed.

Lemma kept_tryCatch {A} (m : M A) (h : string -> M A) :
  preserves R m -> (forall e, preserves R (h e)) -> preserves R (tryCatch m h).
Proof.
  intros Hm Hh w. unfold tryCatch. specialize (Hm w).
  destruct (m w) as [[a|e] w1]; cbn in *; [exact Hm|].
  eapply (sp_trans _ _ P); [exact Hm|apply Hh].
Qed.

Lemma kept_dateNow : preserves R dateNow.
Proof. intros w. apply (sp_tick _ _ P). Qed.

Lemma kept_syncState : preserves R syncState.
Proof. intros w. apply (sp_push _ _ P), ok_state. Qed.

Lemma kept_broadcastToolUpdate : preserves R broadcastToolUpdate.
Proof. intros w. apply (sp_push _ _ P), ok_toolUpdate. Qed.

Lemma kept_checkPermission (type : PermissionType) (origin : string) (tabId : Z) :
  preserves R (checkPermission type origin tabId).
Proof. intros w. apply (sp_tick _ _ P). Qed.

Lemma kept_grantPermission (type : PermissionType) (scope : PermissionScope)
    (origin : string) (tabId : Z) :
  preserves R (grantPermission type scope origin tabId).
Proof.
  intros w. rewrite grantPermission_newGrant. cbn [snd].
  eapply (sp_trans _ _ P); [apply (sp_tick _ _ P)|].
  apply (sp_grant _ _ P type scope origin tabId (clock env (clockReads w)) (tick w)).
Qed.

Lemma kept_addAuditEvent (type : EventType.t) (origin : string) (detail : json)
    (userAction : option string) (tokensInvolved : option Z) (location : Location) :
  preserves R (addAuditEvent type origin detail userAction tokensInvolved location).
Proof.
  unfold addAuditEvent.
  apply kept_bind; [apply kept_dateNow|intros _].
  apply kept_bind; [apply kept_dateNow|intros timestamp].
  apply kept_bind; [|intros _; apply kept_syncState].
  intros w.
  apply (sp_audit _ _ P
           {| ae_type := type; ae_origin := origin; ae_detail := detail;
              ae_userAction := userAction; ae_tokensInvolved := tokensInvolved;
              ae_processingLocation := location; ae_timestamp := timestamp |}).
Qed.

Lemma kept_addDataEntry (origin originType dataType : string) (tokenCount : Z)
    (sensitivity : Sensitivity) (entryMethod : string) :
  preserves R (addDataEntry origin originType dataType tokenCount sensitivity entryMethod).
Proof.
  unfold addDataEntry.
  apply kept_bind; [apply kept_dateNow|intros _].
  apply kept_bind; [apply kept_dateNow|intros timestamp].
  apply kept_bind; [|intros _; apply kept_syncState].
  intros w.
  apply (sp_entry _ _ P
           {| de_origin := origin; de_originType := originType;
              de_dataType := dataType; de_tokenCount := tokenCount;
              de_sensitivity := sensitivity; de_entryMethod := entryMethod;
              de_timestamp := timestamp |}).
Qed.

Lemma kept_sendToTab (msg : TabMsg) : preserves R (sendToTab theTab msg).
Proof. intros w. apply (sp_emit _ _ P), ok_send. Qed.

Lemma kept_showPermissionDialog (permType : PermissionType) (reason sensitivity : string) :
  preserves R (showPermissionDialog theTab permType reason sensitivity).
Proof. intros w. apply (sp_emit _ _ P), ok_send. Qed.

Lemma kept_tabsGet : preserves R (tabsGet theTab).
Proof. intros w. apply (sp_emit _ _ P), ok_tabsGet. Qed.

Lemma kept_chromeTabsCreate (url : json) : preserves R (chromeTabsCreate url).
Proof. intros w. apply (sp_emit _ _ P), ok_create. Qed.

Lemma kept_fetch (req : ChatRequest) : preserves R (fetch req).
Proof. intros w. apply (sp_emit _ _ P), ok_fetch. Qed.

Lemma kept_callMcpTool (serverUrl toolName : string) (args : json) :
  preserves R (callMcpTool serverUrl toolName args).
Proof.
  unfold callMcpTool. apply kept_bind; [apply kept_dateNow|intros _].
  intros w. apply (sp_emit _ _ P), ok_mcp.
Qed.

Lemma kept_consoleLog (line : string) : preserves R (consoleLog line).
Proof. intros w. apply (sp_emit _ _ P), ok_log. Qed.

Lemma kept_pushCall (c : ToolCallEvent) : preserves R (pushCall c).
Proof. intros w. apply (sp_toolCallState _ _ P). Qed.

Lemma kept_finishWith (answer : string) : preserves R (finishWith answer).
Proof. intros w. apply (sp_toolCallState _ _ P). Qed.

Lemma kept_failWith (err : string) : preserves R (failWith err).
Proof. intros w. apply (sp_toolCallState _ _ P). Qed.

Lemma kept_updateStep (stepIdx : nat) (f : TaskStep -> TaskStep) :
  okUpdate allowed f -> preserves R (updateStep stepIdx f).
Proof. intros Hf w. now apply (sp_updateStep _ _ P). Qed.

Lemma kept_getStep (stepIdx : nat) : preserves R (getStep stepIdx).
Proof. apply kept_gets. Qed.

Lemma kept_setProcessingLocation (loc : Location) : preserves R (setProcessingLocation loc).
Proof. intros w. apply (sp_location _ _ P). Qed.

Lemma ceil_quarter_nonneg (n : nat) : 0 <= ceil_quarter n.
Proof. unfold ceil_quarter. apply Z.div_pos; lia. Qed.

Lemma kept_addContextUsed (n : nat) : preserves R (addContextUsed (ceil_quarter n)).
Proof. intros w. apply (sp_context _ _ P), ceil_quarter_nonneg. Qed.

#[local] Hint Resolve kept_ret kept_throw kept_throwError kept_gets kept_liftRes
  kept_dateNow kept_checkPermission kept_grantPermission kept_addAuditEvent
  kept_addDataEntry kept_sendToTab kept_showPermissionDialog kept_tabsGet
  kept_chromeTabsCreate kept_fetch kept_callMcpTool kept_consoleLog kept_pushCall
  kept_finishWith kept_failWith kept_getStep kept_setProcessingLocation
  kept_addContextUsed kept_syncState kept_broadcastToolUpdate : steps.

Ltac steps :=
  repeat first
    [ progress intros
    | solve [auto with steps]
    | apply kept_updateStep;
      first [apply ok_keeps; intros ?; reflexivity | apply ok_data]
    | apply kept_bind
    | apply kept_tryCatch
    | match goal with
      | |- preserves _ (match ?x with _ => _ end) => destruct x
      end ].

Lemma kept_ensurePermission (permType : PermissionType) (origin reason sensitivity : string) :
  preserves R (ensurePermission theTab permType origin reason sensitivity).
Proof. unfold ensurePermission. steps. Qed.

Lemma kept_llmChat (messages : list Message) (tools : option (list OllamaToolSchema)) :
  preserves R (llmChat messages tools).
Proof. unfold llmChat. steps. Qed.

Lemma kept_tabOrigin : preserves R (tabOrigin theTab).
Proof. unfold tabOrigin. steps. Qed.

Lemma kept_routeToContentScript (toolName args : json) :
  preserves R (routeToContentScript toolName args theTab).
Proof. unfold routeToContentScript. steps. Qed.

#[local] Hint Resolve kept_ensurePermission kept_llmChat kept_tabOrigin
  kept_routeToContentScript : steps.

Lemma kept_checkToolPermission (builtIn : Member) (toolName : json) :
  preserves R (checkToolPermission builtIn toolName theTab).
Proof. unfold checkToolPermission. steps. Qed.

#[local] Hint Resolve kept_checkToolPermission : steps.

Lemma kept_executeToolCall (toolName args : json) :
  preserves R (executeToolCall toolName args theTab).
Proof. unfold executeToolCall, loadMcpServers. steps. Qed.

#[local] Hint Resolve kept_executeToolCall : steps.

Lemma kept_toolCallStep (i : nat) (location : Location) (tc : ToolCall)
    (messages : list Message) :
  preserves R (toolCallStep i theTab location tc messages).
Proof. unfold toolCallStep. steps. Qed.

Lemma kept_forEachToolCall (step : ToolCall -> list Message -> M (list Message))
    (toolCalls : list ToolCall) :
  (forall tc messages, preserves R (step tc messages)) ->
  forall messages, preserves R (forEachToolCall step toolCalls messages).
Proof.
  intros Hstep. induction toolCalls as [|tc rest IH]; intros messages; simpl.
  - apply kept_ret.
  - apply kept_bind; [apply Hstep|exact IH].
Qed.

Lemma kept_recordPreRead (pageContext : string) :
  preserves R (recordPreRead theTab pageContext).
Proof. unfold recordPreRead. steps. Qed.

#[local] Hint Resolve kept_recordPreRead : steps.

Lemma kept_preReadPage : preserves R (preReadPage theTab).
Proof. unfold preReadPage. steps. Qed.

Lemma kept_directAnswer (intent pageContext : string) (location : Location) :
  preserves R (directAnswer intent pageContext location).
Proof. unfold directAnswer. steps. Qed.

Lemma kept_turn (i : nat) (tools : list OllamaToolSchema) (location : Location)
    (messages : list Message) :
  preserves R (turn i tools theTab location messages).
Proof.
  unfold turn.
  apply kept_bind; [apply kept_llmChat|intros response].
  destruct (cr_toolCalls response) as [[|tc tcs]|].
  2: { apply kept_bind; [|intros; apply kept_ret].
       apply kept_forEachToolCall. intros; apply kept_toolCallStep. }
  all: steps.
Qed.

Lemma kept_iteration (i : nat) (tools : list OllamaToolSchema) (location : Location)
    (messages : list Message) :
  preserves R (iteration i tools theTab location messages).
Proof.
  unfold iteration. apply kept_bind; [apply kept_consoleLog|intros _]. apply kept_turn.
Qed.

Lemma kept_toolLoop (remaining : nat) (tools : list OllamaToolSchema) (location : Location) :
  forall i messages, preserves R (toolLoop remaining i tools theTab location messages).
Proof.
  induction remaining as [|remaining IH]; intros i messages; simpl.
  - apply kept_bind; [apply kept_finishWith|intros _; apply kept_broadcastToolUpdate].
  - apply kept_bind.
    + apply kept_tryCatch; [apply kept_iteration|].
      intros e. apply kept_bind; [apply kept_failWith|intros _].
      apply kept_bind; [apply kept_broadcastToolUpdate|intros; apply kept_ret].
    + intros [messages'|]; [apply IH|apply kept_ret].
Qed.

Lemma kept_runToolCallLoop (intent : string) : preserves R (runToolCallLoop intent theTab).
Proof.
  unfold runToolCallLoop, getAllMcpTools, loadMcpServers.
  apply kept_bind; [intros w; apply (sp_toolCallState _ _ P)|intros _].
  apply kept_bind; [apply kept_gets|intros cfg].
  apply kept_bind; [steps|intros mcpTools].
  apply kept_bind; [apply kept_preReadPage|intros pageContext].
  apply kept_bind; [apply kept_broadcastToolUpdate|intros _].
  apply kept_bind.
  - destruct (negb (pageContext =? "")%string); [apply kept_directAnswer|apply kept_ret].
  - intros [|]; [apply kept_ret|apply kept_toolLoop].
Qed.

Lemma kept_runStepTool (step : TaskStep) : preserves R (runStepTool step theTab).
Proof. unfold runStepTool. steps. Qed.

Lemma kept_analyseStep (stepIdx : nat) (plan : TaskPlan) (step : TaskStep)
    (toolResult resultData : json) (serialized : string) (cfg : LLMConfig) :
  preserves R (analyseStep stepIdx plan step toolResult resultData serialized cfg).
Proof. unfold analyseStep. steps. Qed.

#[local] Hint Resolve kept_runStepTool kept_analyseStep : steps.

Lemma kept_runStep (stepIdx : nat) (plan : TaskPlan) (step : TaskStep) (cfg : LLMConfig) :
  preserves R (runStep stepIdx plan step theTab theOrigin cfg).
Proof. unfold runStep. steps. Qed.

#[local] Hint Resolve kept_runStep : steps.

(** [executeStep] attributes the step to the origin of the plan it finds. *)
Lemma kept_executeStep (stepIdx : nat) (w : World) :
  originOf w = theOrigin -> R w (snd (executeStep stepIdx theTab w)).
Proof.
  intros Ho. unfold executeStep. rewrite bind_run. unfold gets at 1. unfold originOf in Ho.
  destruct (currentPlan w) as [plan|]; [|apply (sp_refl _ _ P)].
  destruct (nth_error (plan_steps plan) stepIdx) as [step|]; [|apply (sp_refl _ _ P)].
  rewrite Ho.
  match goal with |- R w (snd (?m w)) =>
    assert (H : preserves R m) by steps; apply H end.
Qed.

End Steps.

(** *** Aspects of the world that the flows keep *)

(** The audit log keeps what it holds and only grows at its end. *)
Definition auditGrows (w w' : World) : Prop :=
  exists ext, auditEvents (sessionState w') = auditEvents (sessionState w) ++ ext.

(** The worker's books: the ledger keeps its entries and only grows at its
    end, the total grows by exactly the token counts of the entries added,
    and the context in use by at least as much. *)
Definition booksKept (w w' : World) : Prop :=
  let s := sessionState w in
  let s' := sessionState w' in
  exists added,
    dataEntries s' = dataEntries s ++ added
    /\ totalTokens s' = totalTokens s + sumTokens added
    /\ contextUsed s + sumTokens added <= contextUsed s'.

(** A store with at most one grant per triple stays one. *)
Definition uniqueKept (w w' : World) : Prop :=
  uniqueTriples (permissions w) -> uniqueTriples (permissions w').

(** An effect that, if it concerns a tab at all, concerns tab [tabId]. *)
Definition concernsTab (tabId : Z) (e : Effect) : Prop :=
  match e with
  | SendToTab t _ => t = tabId
  | TabsGet t => t = tabId
  | _ => True
  end.

(** What has been added to the trace, that is the exchanges the flow
    awaited, concerns no other tab. *)
Definition onlyTab (tabId : Z) (w w' : World) : Prop :=
  exists ext, trace w' = trace w ++ ext /\ Forall (concernsTab tabId) ext.

(** An effect of plan execution: a message to tab [tabId], a new tab, a
    request to the backend or a log line; never a tab lookup or a call to
    an MCP server. *)
Definition stepEffect (tabId : Z) (e : Effect) : Prop :=
  match e with
  | SendToTab t _ => t = tabId
  | TabsGet _ | McpCall _ _ _ => False
  | _ => True
  end.

Definition onlyStepEffects (tabId : Z) (w w' : World) : Prop :=
  exists ext, trace w' = trace w ++ ext /\ Forall (stepEffect tabId) ext.

(** The broadcasts made so far stay, and those added are all [ok]. *)
Definition broadcasts (ok : Push -> Prop) (w w' : World) : Prop :=
  exists pushed, pushes w' = pushes w ++ pushed /\ Forall ok pushed.

Definition stateOnly (p : Push) : Prop := p = STATE_UPDATE.

Lemma updateStep_run (stepIdx : nat) (f : TaskStep -> TaskStep) (w : World) :
  snd (updateStep stepIdx f w)
  = match currentPlan w with
    | Some plan =>
      set_currentPlan
        (Some {| plan_intent := plan_intent plan;
                 plan_steps := updateNth stepIdx f (plan_steps plan);
                 plan_status := plan_status plan;
                 plan_pageContext := plan_pageContext plan |}) w
    | None => w
    end.
Proof. reflexivity. Qed.

Lemma auditGrows_steps : Steps auditGrows anything.
Proof.
  assert (Hsame : forall w w',
             auditEvents (sessionState w') = auditEvents (sessionState w) ->
             auditGrows w w')
    by (intros w w' H; exists []; now rewrite app_nil_r).
  constructor; try (intros; now apply Hsame).
  - intros a b c [x Hx] [y Hy]. exists (x ++ y). now rewrite Hy, Hx, app_assoc.
  - intros stepIdx f w _. apply Hsame. rewrite updateStep_run. now destruct (currentPlan w).
  - intros e w. now exists [e].
Qed.

Lemma booksKept_steps : Steps booksKept anything.
Proof.
  assert (Hsame : forall w w', sessionState w' = sessionState w -> booksKept w w').
  { intros w w' H. unfold booksKept. rewrite H. exists []. rewrite app_nil_r.
    change (sumTokens []) with 0. repeat split; lia. }
  constructor; try (intros; now apply Hsame).
  - unfold booksKept. cbv zeta. intros a b c (x & Hx & Hxt & Hxc) (y & Hy & Hyt & Hyc).
    exists (x ++ y). rewrite Hy, Hx, app_assoc, sumTokens_app. repeat split; lia.
  - intros stepIdx f w _. apply Hsame. rewrite updateStep_run. now destruct (currentPlan w).
  - intros e w. unfold booksKept, appendAudit. exists [].
    cbn [sessionState set_sessionState totalTokens contextUsed dataEntries].
    rewrite app_nil_r. change (sumTokens []) with 0. repeat split; lia.
  - intros e w. unfold booksKept, appendEntry. exists [e].
    cbn [sessionState set_sessionState totalTokens contextUsed dataEntries].
    rewrite sumTokens_cons. change (sumTokens []) with 0. repeat split; lia.
  - intros loc w. unfold booksKept, setProcessingLocation, modify. exists [].
    cbn [snd sessionState set_sessionState totalTokens contextUsed dataEntries].
    rewrite app_nil_r. change (sumTokens []) with 0. repeat split; lia.
  - intros n w Hn. unfold booksKept, addContextUsed, modify. exists [].
    cbn [snd sessionState set_sessionState totalTokens contextUsed dataEntries].
    rewrite app_nil_r. change (sumTokens []) with 0. repeat split; lia.
Qed.

Lemma uniqueKept_steps : Steps uniqueKept anything.
Proof.
  assert (Hsame : forall w w', permissions w' = permissions w -> uniqueKept w w')
    by (intros w w' H; unfold uniqueKept; now rewrite H).
  constructor; try (intros; now apply Hsame).
  - unfold uniqueKept. intros a b c H1 H2 H. auto.
  - intros type scope origin tabId now w H. now apply uniqueTriples_grant.
  - intros stepIdx f w _. apply Hsame. rewrite updateStep_run. now destruct (currentPlan w).
Qed.

Lemma traceOnly_steps (ok : Effect -> Prop) :
  Steps (fun w w' => exists ext, trace w' = trace w ++ ext /\ Forall ok ext) (effectsOnly ok).
Proof.
  assert (Hsame : forall w w', trace w' = trace w ->
                               exists ext, trace w' = trace w ++ ext /\ Forall ok ext)
    by (intros w w' H; exists []; rewrite app_nil_r; now split).
  constructor; try (intros; now apply Hsame).
  - intros a b c (x & Hx & Hokx) (y & Hy & Hoky). exists (x ++ y).
    rewrite Hy, Hx, app_assoc. split; [reflexivity|]. apply Forall_app; now split.
  - intros stepIdx f w _. apply Hsame. rewrite updateStep_run. now destruct (currentPlan w).
  - intros e w He. exists [e]. split; [reflexivity|]. now constructor.
Qed.

Lemma broadcasts_steps (ok : Push -> Prop) :
  Steps (broadcasts ok)
        {| okEffect := fun _ => True; okPush := ok; okUpdate := fun _ => True |}.
Proof.
  assert (Hsame : forall w w', pushes w' = pushes w -> broadcasts ok w w')
    by (intros w w' H; exists []; rewrite app_nil_r; now split).
  constructor; try (intros; now apply Hsame).
  - intros a b c (x & Hx & Hokx) (y & Hy & Hoky). exists (x ++ y).
    rewrite Hy, Hx, app_assoc. split; [reflexivity|]. apply Forall_app; now split.
  - intros stepIdx f w _. apply Hsame. rewrite updateStep_run. now destruct (currentPlan w).
  - intros p w Hp. exists [p]. split; [reflexivity|]. now constructor.
Qed.

Ltac trivial_effects := first [exact I | reflexivity | intros; exact I].

(** X18. The audit log is append-only.  Whatever the backend, the tab and
    the user answer, a tool-call task, the execution of a plan step, a
    permission request and the dispatch of a tool call keep every audit
    event the log held, in place, and only add events at its end. *)
Theorem audit_log_is_append_only :
  forall (tabId : Z) (w : World),
    (forall intent, auditGrows w (snd (runToolCallLoop intent tabId w)))
    /\ (forall stepIdx, auditGrows w (snd (executeStep stepIdx tabId w)))
    /\ (forall permType origin reason sensitivity,
          auditGrows w (snd (ensurePermission tabId permType origin reason sensitivity w)))
    /\ (forall toolName args, auditGrows w (snd (executeToolCall toolName args tabId w))).
Proof.
  intros tabId w. repeat split; intros.
  - apply (kept_runToolCallLoop _ _ auditGrows_steps tabId); trivial_effects.
  - apply (kept_executeStep _ _ auditGrows_steps tabId (originOf w)); trivial_effects.
  - apply (kept_ensurePermission _ _ auditGrows_steps tabId); trivial_effects.
  - apply (kept_executeToolCall _ _ auditGrows_steps tabId); trivial_effects.
Qed.

(** X19. The worker keeps its books.  Over a tool-call task and over the
    execution of a plan step the ledger keeps the entries it held, in
    place, and only grows at its end; [totalTokens] grows by exactly the
    sum of the token counts of the entries that were added, and
    [contextUsed] grows by at least as much (the replies of the backend to
    a plan step are counted on top). *)
Theorem worker_keeps_its_books :
  forall (tabId : Z) (w : World),
    (forall intent,
        let s := sessionState w in
        let s' := sessionState (snd (runToolCallLoop intent tabId w)) in
        exists added,
          dataEntries s' = dataEntries s ++ added
          /\ totalTokens s' = totalTokens s + sumTokens added
          /\ contextUsed s + sumTokens added <= contextUsed s')
    /\ (forall stepIdx,
          let s := sessionState w in
          let s' := sessionState (snd (executeStep stepIdx tabId w)) in
          exists added,
            dataEntries s' = dataEntries s ++ added
            /\ totalTokens s' = totalTokens s + sumTokens added
            /\ contextUsed s + sumTokens added <= contextUsed s').
Proof.
  intros tabId w. split; intros.
  - apply (kept_runToolCallLoop _ _ booksKept_steps tabId); trivial_effects.
  - apply (kept_executeStep _ _ booksKept_steps tabId (originOf w)); trivial_effects.
Qed.

(** X6. The store never comes to hold two grants for the same type, origin
    and tab: granting, the three ways of revoking, the permission guard
    with whatever the user answers, a tool-call task and the execution of a
    plan step all keep a store that has at most one grant per triple that
    way. *)
Theorem uniqueTriples_kept :
  forall (w : World),
    uniqueTriples (permissions w) ->
    (forall type scope origin tabId,
        uniqueTriples (permissions (snd (grantPermission type scope origin tabId w))))
    /\ (forall type origin tabId,
          uniqueTriples (permissions (snd (revokePermission type origin tabId w))))
    /\ (forall tabId, uniqueTriples (permissions (snd (revokeAllForTab tabId w))))
    /\ (forall tabId, uniqueTriples (permissions (snd (revokePagePermissions tabId w))))
    /\ (forall tabId permType origin reason sensitivity,
          uniqueTriples (permissions (snd (ensurePermission tabId permType origin reason
                                             sensitivity w))))
    /\ (forall intent tabId,
          uniqueTriples (permissions (snd (runToolCallLoop intent tabId w))))
    /\ (forall stepIdx tabId,
          uniqueTriples (permissions (snd (executeStep stepIdx tabId w)))).
Proof.
  intros w H. repeat split; intros.
  - rewrite grantPermission_newGrant. now apply uniqueTriples_grant.
  - now apply NoDup_map_filter.
  - now apply NoDup_map_filter.
  - now apply NoDup_map_filter.
  - now apply uniqueTriples_ensurePermission.
  - apply (kept_runToolCallLoop _ _ uniqueKept_steps tabId); trivial_effects || exact H.
  - apply (kept_executeStep _ _ uniqueKept_steps tabId (originOf w));
      trivial_effects || exact H.
Qed.

(** X20. Apart from the snapshots it broadcasts, a flow talks to the tab
    it was started for.  Every exchange a tool-call task awaits with a
    tab, that is every message to a content script, the consent dialog
    included, and every lookup of a tab, concerns the task's own tab.  The
    execution of a plan step sends to its own tab only as well, and it
    never looks a single tab up and never calls an MCP server.  What
    reaches the other tabs are the broadcasts, which go to every open tab:
    the broadcasts made before stay as they were, and a plan step adds
    none but [STATE_UPDATE]. *)
Theorem flows_keep_to_their_tab :
  forall (tabId : Z) (w : World),
    (forall intent,
        let w' := snd (runToolCallLoop intent tabId w) in
        (exists sent, trace w' = trace w ++ sent /\ Forall (concernsTab tabId) sent)
        /\ exists pushed, pushes w' = pushes w ++ pushed)
    /\ (forall stepIdx,
          let w' := snd (executeStep stepIdx tabId w) in
          (exists sent, trace w' = trace w ++ sent /\ Forall (stepEffect tabId) sent)
          /\ exists pushed,
               pushes w' = pushes w ++ pushed /\ Forall (fun p => p = STATE_UPDATE) pushed).
Proof.
  intros tabId w. split; intros; cbv zeta; split.
  - apply (kept_runToolCallLoop _ _ (traceOnly_steps (concernsTab tabId)) tabId);
      cbn; trivial_effects.
  - destruct (kept_runToolCallLoop _ _ (broadcasts_steps (fun _ => True)) tabId
                ltac:(trivial_effects) ltac:(trivial_effects) ltac:(trivial_effects)
                ltac:(trivial_effects) ltac:(trivial_effects) ltac:(trivial_effects)
                ltac:(trivial_effects) ltac:(trivial_effects) intent w)
      as (pushed & Hp & _).
    now exists pushed.
  - apply (kept_executeStep _ _ (traceOnly_steps (stepEffect tabId)) tabId (originOf w));
      cbn; trivial_effects.
  - apply (kept_executeStep _ _ (broadcasts_steps stateOnly) tabId (originOf w));
      cbn; trivial_effects.
Qed.

(** ** Where the monitor's origins come from

    [executeStep] is the only place that writes the origin of a step, and
    what it writes is the host of the page the plan was made on: the very
    value the monitor takes for the current origin. *)

Definition attributed (origin : string) (steps : list TaskStep) : Prop :=
  Forall (fun s => step_origin s = None \/ step_origin s = Some origin) steps.

(** Every step of the current plan that carries an origin carries the
    plan's. *)
Definition attributedToPlan (w : World) : Prop :=
  match currentPlan w with
  | Some plan => attributed (planOrigin plan) (plan_steps plan)
  | None => True
  end.

(** A plan as the [CREATE_PLAN] handler stores it: [generatePlan] and
    [createFallbackPlan] give no step an origin. *)
Definition freshPlan (w : World) : Prop :=
  match currentPlan w with
  | Some plan => Forall (fun s => step_origin s = None) (plan_steps plan)
  | None => True
  end.

Definition attributionKept (origin : string) (w w' : World) : Prop :=
  originOf w = origin ->
  originOf w' = origin /\ (attributedToPlan w -> attributedToPlan w').

(** The updates of a step that keep its origin or set it to [origin]. *)
Definition attributing (origin : string) : Allowed :=
  {| okEffect := fun _ => True;
     okPush := fun _ => True;
     okUpdate := fun f => forall s, step_origin (f s) = step_origin s
                                    \/ step_origin (f s) = Some origin |}.

Lemma Forall_updateNth {A} (P : A -> Prop) (f : A -> A) (l : list A) :
  (forall x, P x -> P (f x)) -> Forall P l -> forall n, Forall P (updateNth n f l).
Proof.
  intros Hf Hl. induction Hl as [|x l Hx Hl IH]; intros n.
  - destruct n; constructor.
  - destruct n as [|n]; cbn; constructor; auto.
Qed.

Lemma attributionKept_steps (origin : string) :
  Steps (attributionKept origin) (attributing origin).
Proof.
  assert (Hsame : forall w w', currentPlan w' = currentPlan w -> attributionKept origin w w').
  { intros w w' H Ho. unfold originOf, attributedToPlan in *. rewrite H. now split. }
  constructor; try (intros; now apply Hsame).
  - intros a b c H1 H2 Ho. destruct (H1 Ho) as [Hb Hab]. destruct (H2 Hb) as [Hc Hbc].
    split; [exact Hc|auto].
  - intros stepIdx f w Hf Ho. rewrite updateStep_run.
    destruct (currentPlan w) as [plan|] eqn:E; [|split; [exact Ho|auto]].
    unfold originOf, attributedToPlan in *. rewrite E in *.
    cbn [currentPlan set_currentPlan]. split; [exact Ho|].
    change (planOrigin {| plan_intent := plan_intent plan;
                          plan_steps := updateNth stepIdx f (plan_steps plan);
                          plan_status := plan_status plan;
                          plan_pageContext := plan_pageContext plan |})
      with (planOrigin plan).
    cbn [plan_steps]. intros Hplan. apply Forall_updateNth; [|exact Hplan].
    intros s Hs. rewrite Ho. destruct (Hf s) as [->| ->]; [rewrite <- Ho; exact Hs|now right].
Qed.

(** Executing a step, in whatever tab and whatever the replies, keeps the
    plan's origin and keeps every step attributed to it. *)
Lemma executeStep_attributes (stepIdx : nat) (tabId : Z) (w : World) :
  attributedToPlan w -> attributedToPlan (snd (executeStep stepIdx tabId w)).
Proof.
  intros Hw.
  apply (kept_executeStep _ _ (attributionKept_steps (originOf w)) tabId (originOf w));
    try exact Hw; try reflexivity; try (intros; exact I).
  - intros f Hf s. left. apply Hf.
  - intros result tokens sensitivity s. right. reflexivity.
Qed.

(** The world after the steps [runs], each given by its index and the tab
    it is executed in, have been executed one after the other. *)
Fixpoint afterSteps (runs : list (nat * Z)) (w : World) : World :=
  match runs with
  | [] => w
  | (stepIdx, tabId) :: rest => afterSteps rest (snd (executeStep stepIdx tabId w))
  end.

Lemma addAll_sound (l : list string) :
  forall seen x, In x (addAll seen l) -> In x l.
Proof.
  induction l as [|y l IH]; intros seen x Hin; [contradiction|]. simpl in Hin.
  destruct (existsb (String.eqb y) seen).
  - right. eapply IH, Hin.
  - destruct Hin as [->|Hin]; [now left|right; eapply IH, Hin].
Qed.

Lemma completedOrigins_attributed (origin : string) (steps : list TaskStep) :
  attributed origin steps -> forall o, In o (completedOrigins steps) -> o = origin.
Proof.
  intros Hsteps o Hin. unfold completedOrigins, setOf in Hin.
  apply addAll_sound in Hin. apply in_flat_map in Hin as (s & Hs & Ho).
  unfold attributed in Hsteps. rewrite Forall_forall in Hsteps.
  destruct (isCompleted s); [|contradiction].
  destruct (Hsteps s Hs) as [Hnone|Hsome].
  - rewrite Hnone in Ho. contradiction.
  - rewrite Hsome in Ho. destruct (negb (origin =? "")%string); [|contradiction].
    destruct Ho as [<-|[]]. reflexivity.
Qed.

(** On a plan whose steps are attributed to the plan's origin the monitor
    has nothing to compare: it returns no warning. *)
Lemma detectCrossOrigin_silent (stepIdx : nat) (w : World) :
  attributedToPlan w ->
  fst (detectCrossOrigin stepIdx w) = Ok None
  \/ fst (detectCrossOrigin stepIdx w) = Throw "TypeError: Invalid URL".
Proof.
  intros Hw. destruct (detectCrossOrigin_run stepIdx w) as [_ Hrun]. cbv zeta in Hrun.
  unfold attributedToPlan in Hw.
  destruct (currentPlan w) as [plan|]; [|now left].
  assert (Horigin : forall pc current,
             plan_pageContext plan = Some pc -> (pc_url pc =? "")%string = false ->
             url_hostname (pc_url pc) = Some current -> planOrigin plan = current).
  { intros pc current Hpc Hurl Hhost. unfold planOrigin. now rewrite Hpc, Hurl, Hhost. }
  destruct (plan_pageContext plan) as [pc|] eqn:Hpc; [|now left].
  destruct (pc_url pc =? "")%string eqn:Hurl; [now left|].
  destruct (url_hostname (pc_url pc)) as [current|] eqn:Hhost; [|now right].
  rewrite (Horigin pc current eq_refl Hurl Hhost) in Hw.
  destruct (current =? "")%string; cbn [orb] in Hrun; [now left|].
  destruct (completedOrigins (plan_steps plan)) as [|o completed] eqn:Hc;
    cbn [length Nat.eqb orb] in Hrun; [now left|].
  assert (Ho : o = current).
  { apply (completedOrigins_attributed current (plan_steps plan) Hw). rewrite Hc. now left. }
  subst o. cbn [existsb] in Hrun. rewrite String.eqb_refl in Hrun. now left.
Qed.

(** The monitor never warns.  From a plan as [CREATE_PLAN] stores it, and
    after any steps executed in any tabs with any replies of the tabs, the
    user and the backend, every step that carries an origin carries the
    origin of the page the plan was made on, and the monitor returns no
    warning (or throws, when the URL of that page does not parse). *)
Lemma detectCrossOrigin_never_warns (runs : list (nat * Z)) (stepIdx : nat) (w : World) :
  freshPlan w ->
  let w' := afterSteps runs w in
  attributedToPlan w'
  /\ (fst (detectCrossOrigin stepIdx w') = Ok None
      \/ fst (detectCrossOrigin stepIdx w') = Throw "TypeError: Invalid URL").
Proof.
  intros Hfresh w'.
  assert (Hstart : attributedToPlan w).
  { unfold freshPlan, attributedToPlan, attributed in *.
    destruct (currentPlan w) as [plan|]; [|exact I].
    eapply Forall_impl; [|exact Hfresh]. intros s Hs. now left. }
  assert (Hend : attributedToPlan w').
  { subst w'. clear Hfresh. revert w Hstart.
    induction runs as [|[idx tabId] runs IH]; intros w Hw; [exact Hw|].
    cbn [afterSteps]. apply IH. now apply executeStep_attributes. }
  split; [exact Hend|]. now apply detectCrossOrigin_silent.
Qed.

(** ** Plan execution settles the step *)

(** The plan holds a step at [stepIdx]. *)
Definition present (stepIdx : nat) (w : World) : Prop :=
  exists plan step,
    currentPlan w = Some plan /\ nth_error (plan_steps plan) stepIdx = Some step.

Definition stepStays (stepIdx : nat) (w w' : World) : Prop :=
  present stepIdx w -> present stepIdx w'.

Lemma nth_error_updateNth {A} (f : A -> A) (l : list A) :
  forall n m,
    nth_error (updateNth n f l) m
    = if (n =? m)%nat then option_map f (nth_error l m) else nth_error l m.
Proof.
  induction l as [|x l IH]; intros n m.
  - destruct n, m; cbn; try reflexivity. now destruct (n =? m)%nat.
  - destruct n as [|n], m as [|m]; cbn; try reflexivity. apply IH.
Qed.

Lemma stepStays_steps (stepIdx : nat) : Steps (stepStays stepIdx) anything.
Proof.
  assert (Hsame : forall w w', currentPlan w' = currentPlan w -> stepStays stepIdx w w')
    by (intros w w' H; unfold stepStays, present; now rewrite H).
  constructor; try (intros; now apply Hsame).
  - unfold stepStays. intros a b c H1 H2 H. auto.
  - intros idx f w _ (plan & step & Hplan & Hstep). rewrite updateStep_run, Hplan.
    unfold present. cbn. eexists.
    exists (if (idx =? stepIdx)%nat then f step else step). split; [reflexivity|]. cbn.
    rewrite nth_error_updateNth, Hstep. now destruct (idx =? stepIdx)%nat.
Qed.

(** The step at [stepIdx] has the given status. *)
Definition statusIs (stepIdx : nat) (status : string) (w : World) : Prop :=
  exists plan step,
    currentPlan w = Some plan /\ nth_error (plan_steps plan) stepIdx = Some step
    /\ step_status step = status.

(** [m], started where the step is present, ends where the step is
    completed, unless it throws. *)
Definition completes (stepIdx : nat) {A} (m : M A) : Prop :=
  forall w, present stepIdx w ->
            match m w with
            | (Ok _, w') => statusIs stepIdx "completed" w'
            | (Throw _, _) => True
            end.

Lemma completes_bind (stepIdx : nat) {A B} (m : M A) (k : A -> M B) :
  preserves (stepStays stepIdx) m -> (forall a, completes stepIdx (k a)) ->
  completes stepIdx (bind m k).
Proof.
  intros Hm Hk w Hw. unfold bind. specialize (Hm w Hw).
  destruct (m w) as [[a|e] w1]; cbn in *; [|exact I]. now apply Hk.
Qed.

Lemma updateStep_status (stepIdx : nat) (f : TaskStep -> TaskStep) (status : string)
    (w : World) :
  (forall s, step_status (f s) = status) ->
  present stepIdx w -> statusIs stepIdx status (snd (updateStep stepIdx f w)).
Proof.
  intros Hf (plan & step & Hplan & Hstep). rewrite updateStep_run, Hplan.
  unfold statusIs. cbn. eexists. exists (f step). split; [reflexivity|]. cbn.
  rewrite nth_error_updateNth, Nat.eqb_refl, Hstep. split; [reflexivity|apply Hf].
Qed.

Lemma completes_updateStep (stepIdx : nat) {A} (f : TaskStep -> TaskStep) (a : A) :
  (forall s, step_status (f s) = "completed") ->
  completes stepIdx (updateStep stepIdx f ;; ret a).
Proof. intros Hf w Hw. now apply updateStep_status. Qed.

Ltac no_effect_matters := first [exact I | intros; exact I].

Ltac stays stepIdx tabId :=
  repeat first
    [ progress intros
    | apply (kept_ret _ _ (stepStays_steps stepIdx))
    | apply (kept_throw _ _ (stepStays_steps stepIdx))
    | apply (kept_gets _ _ (stepStays_steps stepIdx))
    | apply (kept_addDataEntry _ _ (stepStays_steps stepIdx)); no_effect_matters
    | apply (kept_addAuditEvent _ _ (stepStays_steps stepIdx)); no_effect_matters
    | apply (kept_syncState _ _ (stepStays_steps stepIdx)); no_effect_matters
    | apply (kept_setProcessingLocation _ _ (stepStays_steps stepIdx))
    | apply (kept_updateStep _ _ (stepStays_steps stepIdx)); exact I
    | apply (kept_getStep _ _ (stepStays_steps stepIdx))
    | apply (kept_ensurePermission _ _ (stepStays_steps stepIdx) tabId); no_effect_matters
    | apply (kept_runStepTool _ _ (stepStays_steps stepIdx) tabId); no_effect_matters
    | apply (kept_analyseStep _ _ (stepStays_steps stepIdx)); no_effect_matters
    | apply (kept_bind _ _ (stepStays_steps stepIdx))
    | apply (kept_tryCatch _ _ (stepStays_steps stepIdx))
    | match goal with
      | |- preserves _ (match ?x with _ => _ end) => destruct x
      end ].

(** The [try] block of [executeStep] with its [catch] never throws, and it
    leaves the step completed. *)
Lemma runStep_completes (stepIdx : nat) (plan : TaskPlan) (step : TaskStep) (tabId : Z)
    (origin : string) (cfg : LLMConfig) (w : World) :
  present stepIdx w ->
  exists returned w',
    runStep stepIdx plan step tabId origin cfg w = (Ok returned, w')
    /\ statusIs stepIdx "completed" w'.
Proof.
  intros Hw. unfold runStep. cbv zeta.
  match goal with |- context [tryCatch ?body ?handler w] =>
    assert (Hbody : completes stepIdx body);
    [|assert (Hstays : preserves (stepStays stepIdx) body); [stays stepIdx tabId|]]
  end.
  - apply completes_bind; [stays stepIdx tabId|]. intros toolResult.
    destruct (negb (truthy (field "success" toolResult))).
    { now apply completes_updateStep. }
    apply completes_bind; [stays stepIdx tabId|]. intros serialized.
    apply completes_bind; [stays stepIdx tabId|]. intros _.
    apply completes_bind; [stays stepIdx tabId|]. intros _.
    apply completes_bind; [stays stepIdx tabId|]. intros _.
    apply completes_bind; [stays stepIdx tabId|]. intros _.
    apply completes_bind; [stays stepIdx tabId|]. intros _.
    apply completes_bind; [stays stepIdx tabId|]. intros _.
    now apply completes_updateStep.
  - unfold tryCatch.
    match goal with |- context [?body w] =>
      match type of Hbody with completes _ body =>
        specialize (Hbody w Hw); specialize (Hstays w Hw);
        destruct (body w) as [[returned|e] w1]; cbn [snd] in *
      end
    end.
    + now exists returned, w1.
    + exists false. eexists. unfold bind, ret. split; [reflexivity|].
      now apply updateStep_status.
Qed.

Definition stepReason (step : TaskStep) : string :=
  "Step " +++ quoted (step_title step) +++ ": " +++ step_description step.

Definition cloudReason (cfg : LLMConfig) : string :=
  "Send page content to " +++ ProviderType_name (provider cfg) +++ " for analysis".

Definition deniedStep (s : TaskStep) : TaskStep :=
  with_llmOutput "(Permission denied by user)" (with_status "skipped" s).

Definition cloudDeniedStep (s : TaskStep) : TaskStep :=
  with_llmOutput ("(Cloud send denied " +++ emdash
                  +++ " switch to local Ollama for no-cloud processing)")
                 (with_status "skipped" s).

(** The three ways [executeStep] goes when the plan holds the step: the
    guard refuses the step's permission; under a hosted backend, it refuses
    the sending; or the step is run, and completed. *)
Lemma executeStep_cases (stepIdx : nat) (tabId : Z) (w : World) (plan : TaskPlan)
    (step : TaskStep) :
  currentPlan w = Some plan ->
  nth_error (plan_steps plan) stepIdx = Some step ->
  let w1 := snd (updateStep stepIdx (with_status "running") w) in
  let ask := ensurePermission tabId (orPageRead (step_requiredPermission step)) (planOrigin plan)
               (stepReason step) (if step_isWriteAction step then "medium" else "low") in
  let askCloud := ensurePermission tabId data_send (planOrigin plan)
                    (cloudReason (llmConfig w)) "high" in
  (exists w2,
      ask w1 = (Ok false, w2)
      /\ executeStep stepIdx tabId w
         = getStep stepIdx (snd (updateStep stepIdx deniedStep w2)))
  \/ (exists w2 w3,
         ask w1 = (Ok true, w2)
         /\ isLocalProvider (llmConfig w) = false
         /\ askCloud w2 = (Ok false, w3)
         /\ executeStep stepIdx tabId w
            = getStep stepIdx (snd (updateStep stepIdx cloudDeniedStep w3)))
  \/ (exists w2 w4,
         ask w1 = (Ok true, w2)
         /\ statusIs stepIdx "completed" w4
         /\ executeStep stepIdx tabId w = getStep stepIdx w4).
Proof.
  intros Hplan Hstep w1 ask askCloud.
  assert (Hw : present stepIdx w) by now exists plan, step.
  destruct (executeStep stepIdx tabId w) as [r w'] eqn:E.
  unfold executeStep in E. rewrite bind_run in E. unfold gets at 1 in E.
  rewrite Hplan, Hstep in E. rewrite bind_run in E.
  pose proof (kept_updateStep _ _ (stepStays_steps stepIdx) stepIdx (with_status "running")
                I w Hw) as H1.
  change (updateStep stepIdx (with_status "running") w) with (Ok tt, w1) in E.
  fold w1 in H1.
  cbv beta iota in E. rewrite bind_run in E. unfold gets at 1 in E.
  cbv beta iota zeta in E.
  replace (llmConfig w1) with (llmConfig w) in E
    by (subst w1; rewrite updateStep_run, Hplan; reflexivity).
  rewrite bind_run in E. fold (stepReason step) in E. fold (cloudReason (llmConfig w)) in E.
  fold ask in E. fold askCloud in E.
  pose proof (kept_ensurePermission _ _ (stepStays_steps stepIdx) tabId
                ltac:(no_effect_matters) ltac:(no_effect_matters) (orPageRead (step_requiredPermission step)) (planOrigin plan)
                (stepReason step) (if step_isWriteAction step then "medium" else "low")
                w1 H1) as H2.
  pose proof (ensurePermission_backed tabId (orPageRead (step_requiredPermission step)) (planOrigin plan)
                (stepReason step) (if step_isWriteAction step then "medium" else "low")
                w1) as Hsound.
  fold ask in H2, Hsound.
  destruct (ask w1) as [[granted|e] w2]; cbn [fst snd] in *; [|contradiction].
  destruct granted; cbn [negb] in E.
  2: { left. exists w2. split; [reflexivity|]. rewrite bind_run in E.
       change (updateStep stepIdx ?f w2) with (Ok tt, snd (updateStep stepIdx f w2)) in E.
       symmetry. exact E. }
  right. rewrite bind_run in E.
  assert (Hrest : forall w3, present stepIdx w3 ->
            (returned <- runStep stepIdx plan step tabId (planOrigin plan) (llmConfig w) ;;
             if returned then getStep stepIdx
             else setProcessingLocation idle ;;
                  addAuditEvent EventType.task_step (planOrigin plan)
                    (JObj [("step", JStr (step_title step)); ("tool", JStr (step_tool step))])
                    None None (locationOf (isLocalProvider (llmConfig w))) ;;
                  syncState ;;
                  getStep stepIdx) w3 = (r, w') ->
            exists w4, statusIs stepIdx "completed" w4 /\ (r, w') = getStep stepIdx w4).
  { intros w3 H3 Hrun. rewrite bind_run in Hrun.
    destruct (runStep_completes stepIdx plan step tabId (planOrigin plan) (llmConfig w) w3 H3)
      as (returned & w4 & Hr & H4).
    rewrite Hr in Hrun. destruct returned.
    - exists w4. split; [exact H4|]. symmetry. exact Hrun.
    - rewrite bind_run in Hrun.
      change (setProcessingLocation idle w4)
        with (Ok tt, snd (setProcessingLocation idle w4)) in Hrun.
      cbv beta iota in Hrun. rewrite bind_run in Hrun.
      match type of Hrun with context [addAuditEvent ?a ?b ?c ?d ?e ?f ?w0] =>
        change (addAuditEvent a b c d e f w0)
          with (Ok tt, snd (addAuditEvent a b c d e f w0)) in Hrun
      end.
      cbv beta iota in Hrun. rewrite bind_run in Hrun.
      match type of Hrun with context [syncState ?w0] =>
        change (syncState w0) with (Ok tt, push STATE_UPDATE w0) in Hrun
      end.
      cbv beta iota in Hrun. eexists. split; [|symmetry; exact Hrun]. exact H4. }
  destruct (isLocalProvider (llmConfig w)) eqn:Hlocal; cbn [negb] in E.
  - right. unfold ret at 1 in E. cbv beta iota in E. cbn [negb] in E.
    destruct (Hrest w2 H2 E) as (w4 & H4 & Hrun). now exists w2, w4.
  - pose proof (kept_ensurePermission _ _ (stepStays_steps stepIdx) tabId
                  ltac:(no_effect_matters) ltac:(no_effect_matters) data_send (planOrigin plan)
                  (cloudReason (llmConfig w)) "high" w2 H2) as H3.
    pose proof (ensurePermission_backed tabId data_send (planOrigin plan)
                  (cloudReason (llmConfig w)) "high" w2) as Hsound'.
    fold askCloud in H3, Hsound'.
    destruct (askCloud w2) as [[cloudGranted|e] w3] eqn:Hcloud; cbn [fst snd] in *;
      [|contradiction].
    destruct cloudGranted; cbn [negb] in E.
    2: { left. exists w2, w3. split; [reflexivity|]. split; [reflexivity|].
         split; [exact Hcloud|]. rewrite bind_run in E.
         change (updateStep stepIdx ?f w3) with (Ok tt, snd (updateStep stepIdx f w3)) in E.
         symmetry. exact E. }
    right. destruct (Hrest w3 H3 E) as (w4 & H4 & Hrun). now exists w2, w4.
Qed.

Lemma getStep_status (stepIdx : nat) (status : string) (w : World) :
  statusIs stepIdx status w ->
  exists plan step,
    getStep stepIdx w = (Ok (Some step), w)
    /\ currentPlan w = Some plan /\ nth_error (plan_steps plan) stepIdx = Some step
    /\ step_status step = status.
Proof.
  intros (plan & step & Hplan & Hstep & Hstatus). exists plan, step.
  unfold getStep, gets. rewrite Hplan, Hstep. repeat split; assumption.
Qed.


(** The consent dialog, shown in tab [tabId]. *)
Definition isDialog (tabId : Z) (e : Effect) : Prop :=
  match e with
  | SendToTab t (SHOW_PERMISSION_DIALOG _ _ _) => t = tabId
  | _ => False
  end.

Lemma getStep_after_update (stepIdx : nat) (f : TaskStep -> TaskStep) (w : World) :
  present stepIdx w ->
  exists s,
    getStep stepIdx (snd (updateStep stepIdx f w))
    = (Ok (Some (f s)), snd (updateStep stepIdx f w)).
Proof.
  intros (plan & step & Hplan & Hstep). exists step.
  unfold getStep, gets. rewrite updateStep_run, Hplan. cbn.
  now rewrite nth_error_updateNth, Nat.eqb_refl, Hstep.
Qed.

Lemma ensurePermission_dialogs (tabId : Z) (permType : PermissionType)
    (origin reason sensitivity : string) (w : World) :
  exists sent,
    trace (snd (ensurePermission tabId permType origin reason sensitivity w))
    = trace w ++ sent
    /\ Forall (isDialog tabId) sent /\ (length sent <= 1)%nat.
Proof.
  destruct (ensurePermission_trace tabId permType origin reason sensitivity w) as [H|H];
    cbv zeta in H; rewrite H.
  - exists []. rewrite app_nil_r. repeat split; [constructor|cbn; lia].
  - eexists. split; [reflexivity|]. split; [|cbn; lia]. repeat constructor.
Qed.

(** X22. A skipped step has run nothing.  When [executeStep] returns a
    step as skipped, the guard has refused it (or, under a hosted backend,
    the sending of its data), and up to then the worker has awaited
    nothing but the consent dialog, shown at most twice in the step's tab:
    no command went to the page, no request to the backend, and no data
    entry was made.  What it broadcast to the open tabs meanwhile are
    [STATE_UPDATE] snapshots only, one for each audit event of the
    guard. *)
Theorem executeStep_skipped_step_ran_nothing :
  forall (stepIdx : nat) (tabId : Z) (w : World) (step' : TaskStep),
    fst (executeStep stepIdx tabId w) = Ok (Some step') ->
    step_status step' = "skipped" ->
    let w' := snd (executeStep stepIdx tabId w) in
    (step_llmOutput step' = Some "(Permission denied by user)"
     \/ step_llmOutput step'
        = Some ("(Cloud send denied " +++ emdash
                +++ " switch to local Ollama for no-cloud processing)"))
    /\ dataEntries (sessionState w') = dataEntries (sessionState w)
    /\ (exists sent,
           trace w' = trace w ++ sent
           /\ Forall (isDialog tabId) sent /\ (length sent <= 2)%nat)
    /\ exists pushed events,
         pushes w' = pushes w ++ pushed
         /\ Forall (fun p => p = STATE_UPDATE) pushed
         /\ auditEvents (sessionState w') = auditEvents (sessionState w) ++ events
         /\ length pushed = length events.
Proof.
  intros stepIdx tabId w step' Hres Hskipped w'. subst w'.
  destruct (currentPlan w) as [plan|] eqn:Hplan.
  2: { assert (E : executeStep stepIdx tabId w = (Ok None, w))
         by (unfold executeStep; rewrite bind_run; unfold gets at 1; now rewrite Hplan).
       rewrite E in Hres. discriminate. }
  destruct (nth_error (plan_steps plan) stepIdx) as [step|] eqn:Hstep.
  2: { assert (E : executeStep stepIdx tabId w = (Ok None, w))
         by (unfold executeStep; rewrite bind_run; unfold gets at 1;
             now rewrite Hplan, Hstep).
       rewrite E in Hres. discriminate. }
  set (w1 := snd (updateStep stepIdx (with_status "running") w)).
  assert (Hw1 : present stepIdx w1).
  { apply (kept_updateStep _ _ (stepStays_steps stepIdx) stepIdx (with_status "running") I).
    now exists plan, step. }
  assert (Htrace1 : trace w1 = trace w)
    by (subst w1; rewrite updateStep_run, Hplan; reflexivity).
  assert (Hentries1 : dataEntries (sessionState w1) = dataEntries (sessionState w))
    by (subst w1; rewrite updateStep_run, Hplan; reflexivity).
  assert (Hupd : forall f w0,
             trace (snd (updateStep stepIdx f w0)) = trace w0
             /\ dataEntries (sessionState (snd (updateStep stepIdx f w0)))
                = dataEntries (sessionState w0)).
  { intros f w0. rewrite updateStep_run. now destruct (currentPlan w0). }
  pose proof (kept_ensurePermission _ _ (stepStays_steps stepIdx) tabId
                ltac:(no_effect_matters) ltac:(no_effect_matters) (orPageRead (step_requiredPermission step)) (planOrigin plan)
                (stepReason step) (if step_isWriteAction step then "medium" else "low")
                w1 Hw1) as H2.
  pose proof (preserves_ensurePermission _ _ sameEntries_framed tabId
                (orPageRead (step_requiredPermission step)) (planOrigin plan)
                (stepReason step) (if step_isWriteAction step then "medium" else "low")
                w1) as He2.
  destruct (ensurePermission_dialogs tabId (orPageRead (step_requiredPermission step)) (planOrigin plan)
              (stepReason step) (if step_isWriteAction step then "medium" else "low") w1)
    as (sent1 & Ht2 & Hd1 & Hl1).
  unfold sameEntries in He2.
  pose proof (ensurePermission_snapshots tabId (orPageRead (step_requiredPermission step))
                (planOrigin plan) (stepReason step)
                (if step_isWriteAction step then "medium" else "low") w1) as Hs2.
  assert (Hsame : forall w0 w0',
             (pushes w0' = pushes w0
              /\ auditEvents (sessionState w0') = auditEvents (sessionState w0)) ->
             snapshotPerEvent w0 w0')
    by (intros w0 w0' [Hp He]; now apply snapshotPerEvent_same).
  destruct (executeStep_cases stepIdx tabId w plan step Hplan Hstep)
    as [(w2 & Hask & Hrun)|[(w2 & w3 & Hask & _ & Hcloud & Hrun)|(w2 & w4 & _ & H4 & Hrun)]];
    try fold w1 in Hask.
  - rewrite Hask in H2, He2, Ht2, Hs2. cbn [snd] in *.
    destruct (getStep_after_update stepIdx deniedStep w2 H2) as (s & Hget).
    rewrite Hrun, Hget in *. cbn [fst snd] in *. injection Hres as <-.
    destruct (Hupd deniedStep w2) as [-> ->].
    split; [now left|]. split; [congruence|]. split.
    { exists sent1. split; [congruence|]. split; [exact Hd1|lia]. }
    eapply snapshotPerEvent_trans; [|apply (Hsame w2); now rewrite updateStep_run; destruct (currentPlan w2)].
    eapply snapshotPerEvent_trans; [|exact Hs2].
    apply snapshotPerEvent_same; subst w1; rewrite updateStep_run, Hplan; reflexivity.
  - rewrite Hask in H2, He2, Ht2, Hs2. cbn [snd] in *.
    pose proof (kept_ensurePermission _ _ (stepStays_steps stepIdx) tabId
                  ltac:(no_effect_matters) ltac:(no_effect_matters) data_send (planOrigin plan)
                  (cloudReason (llmConfig w)) "high" w2 H2) as H3.
    pose proof (preserves_ensurePermission _ _ sameEntries_framed tabId data_send
                  (planOrigin plan) (cloudReason (llmConfig w)) "high" w2) as He3.
    destruct (ensurePermission_dialogs tabId data_send (planOrigin plan)
                (cloudReason (llmConfig w)) "high" w2) as (sent2 & Ht3 & Hd2 & Hl2).
    pose proof (ensurePermission_snapshots tabId data_send (planOrigin plan)
                  (cloudReason (llmConfig w)) "high" w2) as Hs3.
    unfold sameEntries in He3. rewrite Hcloud in H3, He3, Ht3, Hs3. cbn [snd] in *.
    destruct (getStep_after_update stepIdx cloudDeniedStep w3 H3) as (s & Hget).
    rewrite Hrun, Hget in *. cbn [fst snd] in *. injection Hres as <-.
    destruct (Hupd cloudDeniedStep w3) as [-> ->].
    split; [now right|]. split; [congruence|]. split.
    { exists (sent1 ++ sent2). split; [|split].
      + rewrite Ht3, Ht2, Htrace1. now rewrite app_assoc.
      + apply Forall_app. now split.
      + rewrite length_app. lia. }
    eapply snapshotPerEvent_trans; [|apply (Hsame w3); now rewrite updateStep_run; destruct (currentPlan w3)].
    eapply snapshotPerEvent_trans; [|exact Hs3].
    eapply snapshotPerEvent_trans; [|exact Hs2].
    apply snapshotPerEvent_same; subst w1; rewrite updateStep_run, Hplan; reflexivity.
  - destruct (getStep_status stepIdx "completed" w4 H4) as (p & s & Hget & _ & _ & Hs).
    rewrite Hrun, Hget in Hres. cbn [fst] in Hres. injection Hres as <-.
    rewrite Hs in Hskipped. discriminate.
Qed.

(** ** How often a task asks the backend *)

Definition isFetch (e : Effect) : bool :=
  match e with Fetch _ => true | _ => false end.

(** The number of requests to a backend that a trace shows. *)
Definition fetchCount (tr : list Effect) : nat := length (filter isFetch tr).

Definition sameFetches (w w' : World) : Prop :=
  fetchCount (trace w') = fetchCount (trace w).

Definition sameConfig (w w' : World) : Prop := llmConfig w' = llmConfig w.

Lemma fetchCount_emit (e : Effect) (w : World) :
  fetchCount (trace (emit e w))
  = (fetchCount (trace w) + if isFetch e then 1 else 0)%nat.
Proof.
  unfold fetchCount. rewrite trace_emit, filter_app, length_app. simpl.
  now destruct (isFetch e).
Qed.

Lemma sameFetches_steps : Steps sameFetches (effectsOnly (fun e => isFetch e = false)).
Proof.
  assert (Hsame : forall w w', trace w' = trace w -> sameFetches w w')
    by (intros w w' H; unfold sameFetches; now rewrite H).
  constructor; try (intros; now apply Hsame).
  - unfold sameFetches. intros a b c H1 H2. congruence.
  - intros stepIdx f w _. apply Hsame. rewrite updateStep_run. now destruct (currentPlan w).
  - intros e w He. unfold sameFetches. rewrite fetchCount_emit, He. lia.
Qed.

Lemma sameConfig_steps : Steps sameConfig anything.
Proof.
  constructor; unfold sameConfig; try reflexivity; try (intros; congruence).
  intros stepIdx f w _. rewrite updateStep_run. now destruct (currentPlan w).
Qed.

(** The requests one turn with the backend may take: under the local
    backend a request with tools may be sent again without them. *)
Definition perTurn (cfg : LLMConfig) : nat := if isLocalProvider cfg then 2 else 1.

Lemma llmChat_fetches (messages : list Message) (tools : option (list OllamaToolSchema))
    (w : World) :
  (fetchCount (trace (snd (llmChat messages tools w)))
   <= fetchCount (trace w) + if hasTools tools then perTurn (llmConfig w) else 1)%nat.
Proof.
  unfold llmChat, fetch, consoleLog, throwError, liftRes, bind, ret, throw, gets, modify,
    perTurn, isLocalProvider.
  destruct (provider (llmConfig w)); cbn [fst snd].
  all: repeat match goal with
              | |- context [match httpReply env ?n ?r with _ => _ end] =>
                destruct (httpReply env n r) as [?res|?e]; cbn [fst snd]
              | |- context [if negb (res_ok ?r) && _ && _ then _ else _] =>
                destruct (res_ok r); cbn [negb andb]
              | |- context [if (status ?r =? 400) && ?h then _ else _] =>
                destruct (status r =? 400); cbn [andb]
              | |- context [if negb (res_ok ?r) then _ else _] =>
                destruct (res_ok r); cbn [negb]
              | |- context [match body ?r with _ => _ end] =>
                destruct (body r); cbn [fst snd]
              | |- context [match reply_tool_calls ?d with _ => _ end] =>
                destruct (reply_tool_calls d) as [[|? ?]|]; cbn [fst snd]
              | |- context [if hasTools ?t then _ else _] =>
                destruct (hasTools t); cbn [fst snd]
              end.
  all: cbn [fst snd]; rewrite ?fetchCount_emit; cbn [isFetch]; lia.
Qed.

Ltac no_fetch := first [reflexivity | exact I | intros; reflexivity | intros; exact I].

Lemma iteration_fetches (i : nat) (tools : list OllamaToolSchema) (tabId : Z)
    (location : Location) (messages : list Message) (w : World) :
  let w' := snd (tryCatch (iteration i tools tabId location messages)
                          (fun err => failWith err ;; broadcastToolUpdate ;; ret Return) w) in
  (fetchCount (trace w') <= fetchCount (trace w) + perTurn (llmConfig w))%nat
  /\ llmConfig w' = llmConfig w.
Proof.
  split.
  - unfold tryCatch, iteration. rewrite bind_run. unfold consoleLog, modify.
    set (w0 := emit _ w).
    assert (H0 : fetchCount (trace w0) = fetchCount (trace w))
      by (subst w0; rewrite fetchCount_emit; cbn; lia).
    change (llmConfig w) with (llmConfig w0). rewrite <- H0. clear H0. cbv beta iota.
    unfold turn. rewrite bind_run.
    pose proof (llmChat_fetches messages (Some tools) w0) as Hchat.
    assert (Hle : (fetchCount (trace (snd (llmChat messages (Some tools) w0)))
                   <= fetchCount (trace w0) + perTurn (llmConfig w0))%nat).
    { destruct (hasTools (Some tools)); [exact Hchat|].
      unfold perTurn. destruct (isLocalProvider (llmConfig w0)); lia. }
    clear Hchat.
    destruct (llmChat messages (Some tools) w0) as [[response|e] w1]; cbn [fst snd] in *.
    2: { exact Hle. }
    assert (Hrest : forall m : M Iteration,
               preserves sameFetches m ->
               (fetchCount (trace (snd (let (r, w2) := m w1 in
                                        match r with
                                        | Ok a => (Ok a, w2)
                                        | Throw e => (failWith e ;; broadcastToolUpdate ;; ret Return) w2
                                        end)))
                <= fetchCount (trace w0) + perTurn (llmConfig w0))%nat).
    { intros m Hm. specialize (Hm w1). unfold sameFetches in Hm.
      destruct (m w1) as [[r|e] w2]; cbn [snd] in *; [lia|].
      change (trace (snd ((failWith e ;; broadcastToolUpdate ;; ret Return) w2)))
        with (trace w2). lia. }
    destruct (cr_toolCalls response) as [[|tc tcs]|]; apply Hrest.
    + apply (kept_bind _ _ sameFetches_steps); [|intros _].
      * apply (kept_finishWith _ _ sameFetches_steps).
      * apply (kept_bind _ _ sameFetches_steps);
          [apply (kept_addAuditEvent _ _ sameFetches_steps); no_fetch|intros _].
        apply (kept_bind _ _ sameFetches_steps);
          [apply (kept_broadcastToolUpdate _ _ sameFetches_steps); no_fetch
          |intros; apply (kept_ret _ _ sameFetches_steps)].
    + apply (kept_bind _ _ sameFetches_steps);
        [|intros; apply (kept_ret _ _ sameFetches_steps)].
      apply (kept_forEachToolCall _ _ sameFetches_steps). intros.
      apply (kept_toolCallStep _ _ sameFetches_steps tabId); no_fetch.
    + apply (kept_bind _ _ sameFetches_steps); [|intros _].
      * apply (kept_finishWith _ _ sameFetches_steps).
      * apply (kept_bind _ _ sameFetches_steps);
          [apply (kept_addAuditEvent _ _ sameFetches_steps); no_fetch|intros _].
        apply (kept_bind _ _ sameFetches_steps);
          [apply (kept_broadcastToolUpdate _ _ sameFetches_steps); no_fetch
          |intros; apply (kept_ret _ _ sameFetches_steps)].
  - apply (kept_tryCatch _ _ sameConfig_steps).
    + apply (kept_iteration _ _ sameConfig_steps tabId); no_effect_matters.
    + intros e. apply (kept_bind _ _ sameConfig_steps);
        [apply (kept_failWith _ _ sameConfig_steps)|intros _].
      apply (kept_bind _ _ sameConfig_steps);
        [apply (kept_broadcastToolUpdate _ _ sameConfig_steps); no_effect_matters
        |intros; apply (kept_ret _ _ sameConfig_steps)].
Qed.

Lemma toolLoop_fetches (remaining : nat) (tools : list OllamaToolSchema) (tabId : Z)
    (location : Location) :
  forall i messages w,
    (fetchCount (trace (snd (toolLoop remaining i tools tabId location messages w)))
     <= fetchCount (trace w) + remaining * perTurn (llmConfig w))%nat.
Proof.
  induction remaining as [|remaining IH]; intros i messages w.
  - change (trace (snd (toolLoop 0 i tools tabId location messages w))) with (trace w). lia.
  - cbn [toolLoop]. rewrite bind_run.
    destruct (iteration_fetches i tools tabId location messages w) as [Hcount Hcfg].
    cbv zeta in Hcount, Hcfg.
    destruct (tryCatch _ _ w) as [[[messages'|]|e] w1]; cbn [snd] in *.
    + specialize (IH (S i) messages' w1). rewrite Hcfg in IH. lia.
    + unfold ret. cbn [snd]. lia.
    + lia.
Qed.

(** X23. A tool-call task asks the backend a bounded number of times:
    once for the direct answer and, in each of at most five iterations,
    once, or twice when the local backend rejected the tools.  That is at
    most 11 requests under the local backend and at most 6 under a hosted
    one, whatever the replies. *)
Theorem runToolCallLoop_request_bound :
  forall (intent : string) (tabId : Z) (w : World),
    let asked := (fetchCount (trace (snd (runToolCallLoop intent tabId w)))
                  - fetchCount (trace w))%nat in
    (fetchCount (trace w) <= fetchCount (trace (snd (runToolCallLoop intent tabId w))))%nat
    /\ (asked <= 11)%nat
    /\ (provider (llmConfig w) <> ollama -> (asked <= 6)%nat).
Proof.
  intros intent tabId w asked.
  assert (Hgrow : (fetchCount (trace w)
                   <= fetchCount (trace (snd (runToolCallLoop intent tabId w))))%nat).
  { assert (Hlog : forall line w0, traceGrows w0 (emit (ConsoleLog line) w0))
      by (intros; now eexists).
    assert (Hreset : forall s w0, traceGrows w0 (set_toolCallState s w0))
      by (intros; exists []; cbn; now rewrite app_nil_r).
    destruct (preserves_runToolCallLoop _ _ traceGrows_framed I Hlog Hreset intent tabId w)
      as [ext ->].
    unfold fetchCount. rewrite filter_app, length_app. lia. }
  assert (Hbound : (fetchCount (trace (snd (runToolCallLoop intent tabId w)))
                    <= fetchCount (trace w) + 1 + 5 * perTurn (llmConfig w))%nat).
  { rewrite runToolCallLoop_run. cbv zeta.
    set (location := locationOf (isLocalProvider (llmConfig w))).
    set (w0 := taskStarted w).
    change (fetchCount (trace w)) with (fetchCount (trace w0)).
    change (llmConfig w) with (llmConfig w0).
    assert (Hpre : preserves sameFetches (preReadPage tabId))
      by (apply (kept_preReadPage _ _ sameFetches_steps tabId); no_fetch).
    assert (Hpre_cfg : preserves sameConfig (preReadPage tabId))
      by (apply (kept_preReadPage _ _ sameConfig_steps tabId); no_effect_matters).
    specialize (Hpre w0). specialize (Hpre_cfg w0).
    unfold sameFetches, sameConfig in *.
    destruct (preReadPage tabId w0) as [[pageContext|e] w1]; cbn [snd] in *; [|lia].
    rewrite <- Hpre, <- Hpre_cfg.
    set (wb := snd (broadcastToolUpdate w1)).
    change (fetchCount (trace w1)) with (fetchCount (trace wb)).
    change (llmConfig w1) with (llmConfig wb).
    assert (Hloop : forall w2 messages tools,
               (fetchCount (trace w2) <= fetchCount (trace wb) + 1)%nat ->
               llmConfig w2 = llmConfig wb ->
               (fetchCount (trace (snd (toolLoop maxIterations 0 tools tabId location
                                          messages w2)))
                <= fetchCount (trace wb) + 1 + 5 * perTurn (llmConfig wb))%nat).
    { intros w2 messages tools Hc Hcfg.
      pose proof (toolLoop_fetches maxIterations tools tabId location 0 messages w2) as H.
      rewrite Hcfg in H. unfold maxIterations in *. lia. }
    unfold tryDirectAnswer.
    destruct (negb (pageContext =? "")%string).
    - assert (Hda : (fetchCount (trace (snd (directAnswer intent pageContext location wb)))
                     <= fetchCount (trace wb) + 1)%nat).
      { unfold directAnswer, tryCatch. rewrite bind_run.
        match goal with |- context [llmChat ?m None wb] =>
          pose proof (llmChat_fetches m None wb) as Hchat;
          destruct (llmChat m None wb) as [[response|e] w2]
        end; cbn [hasTools fst snd] in *; [|unfold ret; cbn [snd]; lia].
        destruct (negb (trim (cr_content response) =? "")%string
                  && negb (startsWith toolMarker (trim (cr_content response)))
                  && (10 <? js_length (trim (cr_content response)))%nat);
          [|unfold ret; cbn [snd]; lia].
        match goal with |- context [snd (let (r, w3) := ?m w2 in _)] =>
          assert (Hm : preserves sameFetches m)
        end.
        { apply (kept_bind _ _ sameFetches_steps);
            [apply (kept_finishWith _ _ sameFetches_steps)|intros _].
          apply (kept_bind _ _ sameFetches_steps);
            [apply (kept_addAuditEvent _ _ sameFetches_steps); no_fetch|intros _].
          apply (kept_bind _ _ sameFetches_steps);
            [apply (kept_broadcastToolUpdate _ _ sameFetches_steps); no_fetch
            |intros; apply (kept_ret _ _ sameFetches_steps)]. }
        specialize (Hm w2). unfold sameFetches in Hm.
        match goal with |- context [snd (let (r, w3) := ?m w2 in _)] =>
          destruct (m w2) as [[r|e] w3]
        end; cbn [snd] in *; unfold ret; cbn [snd]; lia. }
      assert (Hda_cfg : preserves sameConfig (directAnswer intent pageContext location))
        by (apply (kept_directAnswer _ _ sameConfig_steps); no_effect_matters).
      specialize (Hda_cfg wb). unfold sameConfig in Hda_cfg.
      destruct (directAnswer intent pageContext location wb) as [[[|]|e] w2];
        cbn [snd] in *; try lia.
      now apply Hloop.
    - unfold ret at 1. cbv beta iota. apply Hloop; [lia|reflexivity]. }
  split; [exact Hgrow|]. subst asked. unfold perTurn in Hbound. split.
  - destruct (isLocalProvider (llmConfig w)); lia.
  - intros Hhosted. unfold isLocalProvider in Hbound.
    destruct (provider (llmConfig w)); [contradiction| | |]; lia.
Qed.

(** ** The MCP server store *)

Definition hasId (id : string) (s : McpServer) : bool := (srv_id s =? id)%string.

Lemma replaceFirst_spec (id : string) (server : McpServer) (servers : list McpServer) :
  match replaceFirst id server servers with
  | Some servers' =>
    exists before old after,
      servers = before ++ old :: after /\ srv_id old = id
      /\ Forall (fun s => srv_id s <> id) before
      /\ servers' = before ++ server :: after
  | None => Forall (fun s => srv_id s <> id) servers
  end.
Proof.
  induction servers as [|s servers IH]; simpl; [constructor|].
  destruct (srv_id s =? id)%string eqn:E.
  - apply String.eqb_eq in E. exists [], s, servers. repeat split; [exact E|constructor].
  - apply String.eqb_neq in E. destruct (replaceFirst id server servers) as [rest|].
    + destruct IH as (before & old & after & -> & Hold & Hb & ->).
      exists (s :: before), old, after. repeat split; [exact Hold|now constructor].
    + now constructor.
Qed.

Lemma find_skip (id : string) (before : list McpServer) (rest : list McpServer) :
  Forall (fun s => srv_id s <> id) before ->
  find (hasId id) (before ++ rest) = find (hasId id) rest.
Proof.
  induction 1 as [|s before Hs _ IH]; [reflexivity|]. simpl. unfold hasId at 1.
  apply String.eqb_neq in Hs. now rewrite Hs.
Qed.

Lemma find_absent (id : string) (servers : list McpServer) :
  Forall (fun s => srv_id s <> id) servers -> find (hasId id) servers = None.
Proof.
  induction 1 as [|s servers Hs _ IH]; [reflexivity|]. simpl. unfold hasId at 1.
  apply String.eqb_neq in Hs. now rewrite Hs.
Qed.

Lemma replaceFirst_same (id : string) (server : McpServer) (before after : list McpServer)
    (old : McpServer) :
  Forall (fun s => srv_id s <> id) before -> srv_id old = id ->
  replaceFirst id server (before ++ old :: after) = Some (before ++ server :: after).
Proof.
  intros Hb Hold. induction Hb as [|s before Hs _ IH]; simpl.
  - apply String.eqb_eq in Hold. now rewrite Hold.
  - apply String.eqb_neq in Hs. now rewrite Hs, IH.
Qed.

Lemma saveMcpServer_run (server : McpServer) (w : World) :
  saveMcpServer server w
  = (Ok tt,
     set_mcpServers
       match replaceFirst (srv_id server) server (mcpServers w) with
       | Some servers' => servers'
       | None => mcpServers w ++ [server]
       end w).
Proof.
  unfold saveMcpServer, loadMcpServers, saveToStorage, bind, gets, modify.
  now destruct (replaceFirst _ _ _).
Qed.

(** What [saveMcpServer] leaves in the store. *)
Lemma saveMcpServer_store (server : McpServer) (servers : list McpServer) :
  let servers' := match replaceFirst (srv_id server) server servers with
                  | Some servers' => servers'
                  | None => servers ++ [server]
                  end in
  exists before after,
    servers' = before ++ server :: after
    /\ Forall (fun s => srv_id s <> srv_id server) before
    /\ (servers = before ++ after /\ after = []
        \/ exists old, servers = before ++ old :: after /\ srv_id old = srv_id server).
Proof.
  pose proof (replaceFirst_spec (srv_id server) server servers) as H.
  destruct (replaceFirst (srv_id server) server servers) as [servers'|]; cbv zeta.
  - destruct H as (before & old & after & -> & Hold & Hb & ->).
    exists before, after. repeat split; [exact Hb|]. right. now exists old.
  - exists servers, []. repeat split; [exact H|]. left. now rewrite app_nil_r.
Qed.

(** X24. [saveMcpServer] is an insert-or-replace by id.  Afterwards a
    lookup of the server's id finds the server that was saved; the store
    has one server more when the id was new and as many as before when it
    was not; the servers of every other id are untouched; and saving the
    same server again changes nothing. *)
Theorem saveMcpServer_spec :
  forall (server : McpServer) (w : World),
    let w' := snd (saveMcpServer server w) in
    find (hasId (srv_id server)) (mcpServers w') = Some server
    /\ length (mcpServers w')
       = (length (mcpServers w)
          + if existsb (hasId (srv_id server)) (mcpServers w) then 0 else 1)%nat
    /\ (forall id, id <> srv_id server ->
                   filter (hasId id) (mcpServers w') = filter (hasId id) (mcpServers w))
    /\ saveMcpServer server w' = (Ok tt, w').
Proof.
  intros server w w'. subst w'. rewrite saveMcpServer_run. cbn [snd mcpServers set_mcpServers].
  destruct (saveMcpServer_store server (mcpServers w))
    as (before & after & Hstore & Hb & Hcase).
  cbv zeta in Hstore. rewrite Hstore.
  assert (Hself : hasId (srv_id server) server = true) by apply String.eqb_refl.
  assert (Hnot : existsb (hasId (srv_id server)) before = false).
  { clear - Hb. induction Hb as [|s before Hs _ IH]; [reflexivity|]. simpl.
    apply String.eqb_neq in Hs. unfold hasId at 1. now rewrite Hs. }
  split; [|split; [|split]].
  - rewrite find_skip by exact Hb. simpl. now rewrite Hself.
  - destruct Hcase as [[-> ->]|(old & -> & Hold)].
    + rewrite app_nil_r, Hnot, !length_app. simpl. lia.
    + rewrite existsb_app, Hnot. simpl. unfold hasId at 1.
      apply String.eqb_eq in Hold. rewrite Hold. cbn. rewrite !length_app. simpl. lia.
  - intros id Hid.
    assert (Hserver : hasId id server = false)
      by (apply String.eqb_neq; congruence).
    destruct Hcase as [[-> ->]|(old & -> & Hold)].
    + rewrite app_nil_r, filter_app. simpl. now rewrite Hserver, app_nil_r.
    + rewrite !filter_app. simpl. rewrite Hserver.
      assert (Hold' : hasId id old = false) by (apply String.eqb_neq; congruence).
      now rewrite Hold'.
  - rewrite saveMcpServer_run. cbn [mcpServers set_mcpServers].
    rewrite (replaceFirst_same (srv_id server) server before after server Hb eq_refl).
    reflexivity.
Qed.

(** X25. [deleteMcpServer] removes the servers of the given id and keeps
    all others; afterwards a lookup of the id finds nothing, and every tool
    that only such a server listed, and whose name [PAGE_TOOLS] lacks (no
    built-in tool and no member that every object inherits has it), is
    unknown to the dispatcher.  Deleting a server that was saved under a
    new id restores the store. *)
Theorem deleteMcpServer_spec :
  forall (id : string) (w : World),
    let w' := snd (deleteMcpServer id w) in
    (forall s, In s (mcpServers w') <-> In s (mcpServers w) /\ srv_id s <> id)
    /\ find (hasId id) (mcpServers w') = None
    /\ (forall server,
          srv_id server = id ->
          find (hasId id) (mcpServers w) = None ->
          mcpServers (snd (deleteMcpServer id (snd (saveMcpServer server w))))
          = mcpServers w)
    /\ (forall toolName args tabId,
          PAGE_TOOLS (to_str toolName) = None ->
          (forall s, In s (mcpServers w) -> srv_enabled s = true ->
                     listsTool toolName s = true -> srv_id s = id) ->
          executeToolCall toolName args tabId w'
          = (Ok (failure ("Unknown tool: " +++ to_str toolName)), w')).
Proof.
  intros id w w'.
  assert (Hin : forall s, In s (mcpServers w') <-> In s (mcpServers w) /\ srv_id s <> id).
  { intros s. subst w'. unfold deleteMcpServer, loadMcpServers, saveToStorage, bind, gets,
      modify. cbn [snd mcpServers set_mcpServers].
    rewrite filter_In, negb_true_iff, String.eqb_neq. tauto. }
  assert (Hkeep : forall servers,
             Forall (fun s => srv_id s <> id) servers ->
             filter (fun s => negb (srv_id s =? id)%string) servers = servers).
  { induction 1 as [|s servers Hs _ IH]; [reflexivity|]. simpl.
    apply String.eqb_neq in Hs. rewrite Hs. simpl. now rewrite IH. }
  split; [exact Hin|]. split; [|split].
  - apply find_absent. apply Forall_forall. intros s Hs. now apply Hin in Hs.
  - intros server Hid Hnone. rewrite saveMcpServer_run.
    unfold deleteMcpServer, loadMcpServers, saveToStorage, bind, gets, modify.
    cbn [snd mcpServers set_mcpServers].
    assert (Habsent : Forall (fun s => srv_id s <> id) (mcpServers w)).
    { apply Forall_forall. intros s Hs Heq.
      apply (find_none _ _ Hnone) in Hs. unfold hasId in Hs.
      apply String.eqb_neq in Hs. contradiction. }
    pose proof (replaceFirst_spec (srv_id server) server (mcpServers w)) as Hrep.
    destruct (replaceFirst (srv_id server) server (mcpServers w)) as [servers'|].
    + destruct Hrep as (before & old & after & Heq & Hold & _).
      rewrite Heq in Habsent. apply Forall_app in Habsent as [_ Habsent].
      inversion Habsent; subst. congruence.
    + rewrite filter_app. simpl. apply String.eqb_eq in Hid. rewrite Hid. simpl.
      rewrite app_nil_r. now apply Hkeep.
  - intros toolName args tabId Hbuiltin Honly. apply executeToolCall_unknown; [exact Hbuiltin|].
    intros s Hs He. apply Hin in Hs as [Hs Hid].
    destruct (listsTool toolName s) eqn:L; [|reflexivity].
    exfalso. apply Hid. now apply Honly.
Qed.

Lemma find_split (id : string) (servers : list McpServer) (server : McpServer) :
  find (hasId id) servers = Some server ->
  exists before after,
    servers = before ++ server :: after /\ srv_id server = id
    /\ Forall (fun s => srv_id s <> id) before.
Proof.
  induction servers as [|s servers IH]; simpl; [discriminate|].
  unfold hasId at 1. destruct (srv_id s =? id)%string eqn:E.
  - intros [= ->]. apply String.eqb_eq in E. exists [], servers.
    repeat split; [exact E|constructor].
  - intros H. destruct (IH H) as (before & after & -> & Hid & Hb).
    apply String.eqb_neq in E. exists (s :: before), after.
    repeat split; [exact Hid|now constructor].
Qed.

Lemma first_split_unique (id : string) (b1 b2 a1 a2 : list McpServer) (x : McpServer) :
  Forall (fun s => srv_id s <> id) b1 ->
  Forall (fun s => srv_id s <> id) b2 ->
  srv_id x = id ->
  b1 ++ x :: a1 = b2 ++ x :: a2 ->
  b1 = b2 /\ a1 = a2.
Proof.
  intros H1. revert b2. induction H1 as [|s b1 Hs _ IH]; intros b2 H2 Hx Heq.
  - destruct b2 as [|s2 b2]; simpl in Heq.
    + split; [reflexivity|congruence].
    + inversion H2; subst. congruence.
  - destruct b2 as [|s2 b2]; simpl in Heq.
    + congruence.
    + inversion H2; subst. injection Heq as -> Heq.
      destruct (IH b2 H3 eq_refl Heq) as [-> ->]. now split.
Qed.

Lemma toggleMcpServer_run (serverId : string) (w : World) :
  toggleMcpServer serverId w
  = match find (hasId serverId) (mcpServers w) with
    | Some server =>
      (Ok (Toggled (negb (srv_enabled server))),
       push STATE_UPDATE
         (set_mcpServers
            match replaceFirst serverId (with_enabled (negb (srv_enabled server)) server)
                    (mcpServers w) with
            | Some servers' => servers'
            | None => mcpServers w ++ [with_enabled (negb (srv_enabled server)) server]
            end w))
    | None => (Ok ServerNotFound, w)
    end.
Proof.
  unfold toggleMcpServer, loadMcpServers, bind, gets, ret. fold (hasId serverId).
  destruct (find (hasId serverId) (mcpServers w)) as [server|] eqn:E; [|reflexivity].
  rewrite saveMcpServer_run. cbn [with_enabled srv_id srv_enabled].
  destruct (find_split _ _ _ E) as (_ & _ & _ & -> & _). reflexivity.
Qed.

Lemma toggleMcpServer_found (serverId : string) (w : World) (server : McpServer) :
  find (hasId serverId) (mcpServers w) = Some server ->
  exists before after,
    mcpServers w = before ++ server :: after
    /\ srv_id server = serverId
    /\ Forall (fun s => srv_id s <> serverId) before
    /\ toggleMcpServer serverId w
       = (Ok (Toggled (negb (srv_enabled server))),
          push STATE_UPDATE
            (set_mcpServers
               (before ++ with_enabled (negb (srv_enabled server)) server :: after) w)).
Proof.
  intros E. destruct (find_split _ _ _ E) as (before & after & Heq & Hid & Hb).
  exists before, after. repeat split; try assumption.
  rewrite toggleMcpServer_run, E, Heq.
  now rewrite (replaceFirst_same serverId _ before after server Hb Hid).
Qed.

(** X26. The [TOGGLE_MCP_SERVER] handler flips the [enabled] flag of the
    first server with the given id and changes nothing else in the store:
    the other fields of that server, the number of servers and the servers
    of every other id stay, the reply carries the new flag, and a second
    toggle brings the original store back.  When no server has the id the
    reply is 'Server not found' and nothing changes. *)
Theorem toggleMcpServer_spec :
  forall (serverId : string) (w : World),
    let w' := snd (toggleMcpServer serverId w) in
    match fst (toggleMcpServer serverId w) with
    | Ok (Toggled enabled) =>
      exists server,
        find (hasId serverId) (mcpServers w) = Some server
        /\ enabled = negb (srv_enabled server)
        /\ find (hasId serverId) (mcpServers w') = Some (with_enabled enabled server)
        /\ length (mcpServers w') = length (mcpServers w)
        /\ (forall id, id <> serverId ->
                       filter (hasId id) (mcpServers w') = filter (hasId id) (mcpServers w))
        /\ fst (toggleMcpServer serverId w') = Ok (Toggled (srv_enabled server))
        /\ mcpServers (snd (toggleMcpServer serverId w')) = mcpServers w
    | Ok ServerNotFound =>
      find (hasId serverId) (mcpServers w) = None /\ w' = w
    | Throw _ => False
    end.
Proof.
  intros serverId w w'. subst w'.
  destruct (find (hasId serverId) (mcpServers w)) as [server|] eqn:E.
  - destruct (toggleMcpServer_found _ _ _ E) as (before & after & Heq & Hid & Hb & Hrun).
    rewrite Hrun. cbn [fst snd]. exists server.
    set (flipped := with_enabled (negb (srv_enabled server)) server).
    assert (Hflipped : hasId serverId flipped = true)
      by (apply String.eqb_eq; exact Hid).
    assert (Hfind : find (hasId serverId) (before ++ flipped :: after) = Some flipped).
    { rewrite find_skip by exact Hb. simpl. now rewrite Hflipped. }
    split; [reflexivity|]. split; [reflexivity|]. cbn [mcpServers set_mcpServers push].
    split; [exact Hfind|]. split; [now rewrite Heq, !length_app|]. split.
    + intros id Hne. rewrite Heq, !filter_app. simpl.
      assert (H1 : hasId id flipped = false) by (apply String.eqb_neq; cbn; congruence).
      assert (H2 : hasId id server = false) by (apply String.eqb_neq; congruence).
      now rewrite H1, H2.
    + destruct (toggleMcpServer_found serverId
                  (push STATE_UPDATE (set_mcpServers (before ++ flipped :: after) w))
                  flipped Hfind)
        as (before' & after' & Heq' & _ & Hb' & Hrun').
      rewrite Hrun'. cbn [fst snd mcpServers set_mcpServers push] in *.
      assert (Hback : with_enabled (negb (srv_enabled flipped)) flipped = server).
      { subst flipped. destruct server as [i n u e t]. cbn. now rewrite negb_involutive. }
      rewrite Hback. split.
      * subst flipped. cbn. now rewrite negb_involutive.
      * rewrite Heq.
        assert (Hsame : before = before' /\ after = after')
          by (apply (first_split_unique serverId _ _ _ _ flipped Hb Hb');
              [apply String.eqb_eq; exact Hflipped|exact Heq']).
        destruct Hsame as [-> ->]. reflexivity.
  - rewrite toggleMcpServer_run, E. cbn [fst snd]. now split.
Qed.

(** No two servers of the store share an id. *)
Definition uniqueIds (w : World) : Prop := NoDup (map srv_id (mcpServers w)).

Lemma uniqueIds_replace (server old : McpServer) (before after : list McpServer) :
  srv_id old = srv_id server ->
  NoDup (map srv_id (before ++ old :: after)) ->
  NoDup (map srv_id (before ++ server :: after)).
Proof.
  intros Hid. rewrite !map_app. cbn [map]. now rewrite Hid.
Qed.

Lemma uniqueIds_save (server : McpServer) (w : World) :
  uniqueIds w -> uniqueIds (snd (saveMcpServer server w)).
Proof.
  unfold uniqueIds. intros H. rewrite saveMcpServer_run. cbn [snd mcpServers set_mcpServers push].
  pose proof (replaceFirst_spec (srv_id server) server (mcpServers w)) as Hrep.
  destruct (replaceFirst (srv_id server) server (mcpServers w)) as [servers'|].
  - destruct Hrep as (before & old & after & Heq & Hold & _ & ->).
    rewrite Heq in H. now apply (uniqueIds_replace server old).
  - rewrite map_app. cbn [map]. apply NoDup_snoc; [exact H|].
    intros Hin. apply in_map_iff in Hin as (s & Hs & Hin).
    rewrite Forall_forall in Hrep. now apply (Hrep s).
Qed.

(** X27. The store of MCP servers never comes to hold two servers with
    one id: saving a server, deleting one and toggling one each keep the
    ids distinct. *)
Theorem uniqueIds_kept :
  forall (w : World),
    uniqueIds w ->
    (forall server, uniqueIds (snd (saveMcpServer server w)))
    /\ (forall id, uniqueIds (snd (deleteMcpServer id w)))
    /\ (forall id, uniqueIds (snd (toggleMcpServer id w))).
Proof.
  intros w H. split; [|split].
  - intros server. now apply uniqueIds_save.
  - intros id. unfold uniqueIds, deleteMcpServer, loadMcpServers, saveToStorage, bind, gets,
      modify. cbn [snd mcpServers set_mcpServers push]. now apply NoDup_map_filter.
  - intros id. destruct (find (hasId id) (mcpServers w)) as [server|] eqn:E.
    + destruct (toggleMcpServer_found _ _ _ E) as (before & after & Heq & Hid & _ & ->).
      unfold uniqueIds in *. cbn [snd mcpServers set_mcpServers push]. rewrite Heq in H.
      now apply (uniqueIds_replace _ server).
    + rewrite toggleMcpServer_run, E. exact H.
Qed.

(** X28. Switching an MCP server off takes its tools away from the
    dispatcher.  In a store with distinct ids, once the toggle of a server
    replies that it is now disabled, a tool whose name [PAGE_TOOLS] lacks
    (no built-in tool and no member that every object inherits has it) and
    that no other enabled server lists is refused as 'Unknown tool' and
    nothing is sent. *)
Theorem toggled_off_tool_is_unknown :
  forall (serverId : string) (toolName args : json) (tabId : Z) (w : World),
    uniqueIds w ->
    PAGE_TOOLS (to_str toolName) = None ->
    (forall s, In s (mcpServers w) -> srv_enabled s = true ->
               listsTool toolName s = true -> srv_id s = serverId) ->
    fst (toggleMcpServer serverId w) = Ok (Toggled false) ->
    let w' := snd (toggleMcpServer serverId w) in
    executeToolCall toolName args tabId w'
    = (Ok (failure ("Unknown tool: " +++ to_str toolName)), w').
Proof.
  intros serverId toolName args tabId w Huniq Hbuiltin Honly Hreply w'. subst w'.
  apply executeToolCall_unknown; [exact Hbuiltin|].
  intros s Hs He.
  destruct (find (hasId serverId) (mcpServers w)) as [server|] eqn:E;
    [|rewrite toggleMcpServer_run, E in Hreply; discriminate].
  destruct (toggleMcpServer_found _ _ _ E) as (before & after & Heq & Hid & Hb & Hrun).
  rewrite Hrun in Hreply, Hs. cbn [fst snd mcpServers set_mcpServers push] in Hreply, Hs.
  injection Hreply as Hoff.
  destruct (listsTool toolName s) eqn:L; [exfalso|reflexivity].
  unfold uniqueIds in Huniq. rewrite Heq, map_app in Huniq. cbn [map] in Huniq.
  apply NoDup_remove_2 in Huniq.
  apply in_app_or in Hs as [Hs|[<-|Hs]].
  - rewrite Forall_forall in Hb. apply (Hb s Hs). apply Honly; try assumption.
    rewrite Heq. apply in_or_app. now left.
  - cbn in He. congruence.
  - apply Huniq. apply in_or_app. right. rewrite Hid.
    rewrite <- (Honly s); try assumption.
    + now apply in_map.
    + rewrite Heq. apply in_or_app. right. now right.
Qed.

(** X29. The tools of the MCP servers that the model is offered and the
    tools the dispatcher routes to a server are the same, up to the names
    that [PAGE_TOOLS] has.  [getAllMcpTools] reads the store without any
    effect and returns exactly the tools of the enabled servers.  For a
    name that [PAGE_TOOLS] lacks, [executeToolCall] logs and calls an
    enabled server that lists the name when the name is among the offered
    tools, and refuses it as unknown, doing nothing, when it is not.  A
    name that [PAGE_TOOLS] has, a built-in tool's or one that every object
    inherits, never reaches a server, offered or not: the server's tool is
    shadowed. *)
Theorem offered_tools_are_routable :
  forall (w : World),
  exists tools,
    getAllMcpTools w = (Ok tools, w)
    /\ (forall t, In t tools <->
                  exists s, In s (mcpServers w) /\ srv_enabled s = true /\ In t (srv_tools s))
    /\ forall (name : string) (args : json) (tabId : Z),
         let offered := exists t, In t tools /\ mcp_name t = name in
         let w' := snd (executeToolCall (JStr name) args tabId w) in
         match PAGE_TOOLS name with
         | None =>
           (offered ->
            exists server line,
              In server (mcpServers w) /\ srv_enabled server = true
              /\ listsTool (JStr name) server = true
              /\ trace w' = trace w ++ [ConsoleLog line; McpCall (srv_url server) name args])
           /\ (~ offered ->
               executeToolCall (JStr name) args tabId w
               = (Ok (failure ("Unknown tool: " +++ name)), w))
         | Some _ =>
           exists sent,
             trace w' = trace w ++ sent
             /\ forallb (fun e => negb (isMcpCall e)) sent = true
         end.
Proof.
  intros w. eexists. split; [reflexivity|].
  assert (Hin : forall t,
             In t (flat_map (fun server => if srv_enabled server then srv_tools server else [])
                            (mcpServers w)) <->
             exists s, In s (mcpServers w) /\ srv_enabled s = true /\ In t (srv_tools s)).
  { intros t. rewrite in_flat_map. split.
    - intros (s & Hs & Ht). exists s. destruct (srv_enabled s); [auto|contradiction].
    - intros (s & Hs & He & Ht). exists s. now rewrite He. }
  split; [exact Hin|]. intros name args tabId offered w'.
  destruct (PAGE_TOOLS name) as [builtIn|] eqn:Hbuiltin.
  - destruct (builtin_call_stays_local (JStr name) args tabId w builtIn Hbuiltin)
      as (_ & (sent & Htrace & _ & Hno) & _).
    exists (TabsGet tabId :: sent). split; [exact Htrace|exact Hno].
  - split.
    + intros (t & Ht & Hname). apply Hin in Ht as (s & Hs & He & Ht).
      assert (Hl : listsTool (JStr name) s = true).
      { unfold listsTool. apply existsb_exists. exists t. split; [exact Ht|].
        now apply String.eqb_eq. }
      destruct (mcp_call_routed (JStr name) args tabId w Hbuiltin)
        as (_ & _ & _ & result & _ & [[Hsame _]|Hcall]).
      * exfalso.
        pose proof (findMcpServer_spec (JStr name) (mcpServers w)) as Hfind.
        assert (Hnone : findMcpServer (JStr name) (mcpServers w) = None).
        { destruct (findMcpServer (JStr name) (mcpServers w)) as [server|] eqn:E;
            [|reflexivity].
          exfalso. assert (Ht' : trace w' = trace w) by (subst w'; now rewrite Hsame).
          subst w'. unfold executeToolCall in Ht'. cbn [to_str] in Ht'.
          rewrite Hbuiltin in Ht'. unfold loadMcpServers in Ht'. rewrite bind_run in Ht'.
          unfold gets at 1 in Ht'. cbv beta iota in Ht'. rewrite E in Ht'.
          unfold tryCatch, consoleLog, callMcpTool, dateNow, mcpExchange, bind, modify
            in Ht'.
          destruct (mcpReply env _ _ _ _) in Ht'; cbn in Ht';
            rewrite <- app_assoc in Ht';
            apply (f_equal (@length Effect)) in Ht'; rewrite length_app in Ht';
            cbn in Ht'; lia. }
        rewrite Hnone in Hfind. rewrite Forall_forall in Hfind. specialize (Hfind s Hs).
        rewrite He, Hl in Hfind. discriminate.
      * destruct Hcall as (server & before & after & line & Heq & Hen & Hlists & _ & Htrace & _).
        exists server, line. repeat split; try assumption.
        rewrite Heq. apply in_or_app. right. now left.
    + intros Hnot. apply (executeToolCall_unknown (JStr name) args tabId w Hbuiltin).
      intros server Hs He. destruct (listsTool (JStr name) server) eqn:Hl; [|reflexivity].
      exfalso. apply Hnot. unfold listsTool in Hl.
      apply existsb_exists in Hl as (t & Ht & Hname). apply String.eqb_eq in Hname.
      exists t. split; [|exact Hname]. apply Hin. now exists server.
Qed.

End Worker.

(** * Scenarios

    Concrete worlds and environments on which the model is run: stand-ins
    for the runtime, a tab, a backend and a user. *)

(** A stand-in for [JSON.stringify], without escapes in strings. *)
Fixpoint engine_stringify (v : json) : option string :=
  match v with
  | JUndefined => None
  | JNull => Some "null"
  | JBool b => Some (if b then "true" else "false")
  | JNum n => Some (string_of_Z n)
  | JStr s => Some (quoted s)
  | JArr items =>
    Some ("[" +++ String.concat ","
                    (map (fun x => match engine_stringify x with
                                   | Some s => s
                                   | None => "null"
                                   end) items)
          +++ "]")
  | JObj fields =>
    Some ("{" +++ String.concat ","
                    (flat_map (fun kv => let '(k, x) := kv in
                                         match engine_stringify x with
                                         | Some s => [quoted k +++ ":" +++ s]
                                         | None => []
                                         end) fields)
          +++ "}")
  end.

(** A stand-in for [String(v)]. *)
Definition engine_String (v : json) : string :=
  match v with
  | JUndefined => "undefined"
  | JNull => "null"
  | JBool b => if b then "true" else "false"
  | JNum n => string_of_Z n
  | JStr s => s
  | JArr _ => ""
  | JObj _ => "[object Object]"
  end.

(** The one document the scenarios parse. *)
Definition readPageCall : string :=
  "{" +++ quoted "tool" +++ ": " +++ quoted "read_page" +++ ", " +++ quoted "args" +++ ": {}}".

(** A stand-in for [JSON.parse] that knows that document only. *)
Definition engine_parse (s : string) : option json :=
  if (s =? readPageCall)%string
  then Some (JObj [("tool", JStr "read_page"); ("args", JObj [])])
  else None.

Fixpoint upTo (stop : ascii) (s : string) : string :=
  match s with
  | EmptyString => EmptyString
  | String c s' => if Ascii.eqb c stop then EmptyString else String c (upTo stop s')
  end.

(** A stand-in for [new URL(u).hostname] on plain [https] URLs. *)
Definition engine_hostname (u : string) : option string :=
  if startsWith "https://" u then Some (upTo "/" (drop 8 u)) else None.

Definition startSession : SessionState :=
  {| totalTokens := 0; contextUsed := 0; contextLimit := 8192;
     processingLocation := idle; dataEntries := []; auditEvents := [] |}.

(** The worker right after a session reset, with no grant stored. *)
Definition startWorld (p : ProviderType) : World :=
  {| llmConfig := {| provider := p; model := "demo-model" |};
     permissions := [];
     mcpServers := [];
     sessionState := startSession;
     toolCallState := {| running := false; calls := []; finalAnswer := ""; error := None |};
     currentPlan := None;
     clockReads := 0;
     trace := [];
     pushes := [] |}.

Definition unreachable {A : Type} : Res A :=
  Throw "Error: Could not establish connection. Receiving end does not exist.".

(** An environment in which nothing answers; the scenarios change the
    parts they need. *)
Definition silentEnv : Env :=
  {| clock := fun n => 1700000000000 + Z.of_nat n;
     tabReply := fun _ _ _ => unreachable;
     dialogReply := fun _ _ _ _ _ => unreachable;
     tabUrl := fun _ _ => Some (Some "https://shop.example/cart");
     tabsCreate := fun _ _ => Ok tt;
     httpReply := fun _ _ => Throw "TypeError: Failed to fetch";
     mcpReply := fun _ _ _ _ => unreachable |}.

Definition with_dialog
    (d : nat -> Z -> PermissionType -> string -> string -> Res (option (bool * PermissionScope)))
    (e : Env) : Env :=
  {| clock := clock e; tabReply := tabReply e; dialogReply := d; tabUrl := tabUrl e;
     tabsCreate := tabsCreate e; httpReply := httpReply e; mcpReply := mcpReply e |}.

Definition with_tab (t : nat -> Z -> TabMsg -> Res json) (e : Env) : Env :=
  {| clock := clock e; tabReply := t; dialogReply := dialogReply e; tabUrl := tabUrl e;
     tabsCreate := tabsCreate e; httpReply := httpReply e; mcpReply := mcpReply e |}.

Definition with_backend (h : nat -> ChatRequest -> Res HttpResponse) (e : Env) : Env :=
  {| clock := clock e; tabReply := tabReply e; dialogReply := dialogReply e;
     tabUrl := tabUrl e; tabsCreate := tabsCreate e; httpReply := h;
     mcpReply := mcpReply e |}.

Definition httpOk (data : ChatReply) : Res HttpResponse :=
  Ok {| status := 200; body := Ok data |}.

Definition textReply (text : string) : ChatReply :=
  {| reply_content := Some text; reply_tool_calls := None |}.

Definition toolReply (name : string) (args : json) : ChatReply :=
  {| reply_content := None;
     reply_tool_calls := Some [ {| tc_name := JStr name; tc_arguments := args |} ] |}.

Definition requestMessages (req : ChatRequest) : list Message :=
  match req with
  | OllamaChat _ messages _ => messages
  | OpenAIChat _ messages _ => messages
  | AnthropicChat _ _ _ messages => messages
  | OpenRouterChat _ messages _ => messages
  end.

Definition requestHasTools (req : ChatRequest) : bool :=
  match req with
  | OllamaChat _ _ (Some _) => true
  | _ => false
  end.

(** A backend that asks for one tool call at the start of a conversation
    and answers in text once the result is in the conversation. *)
Definition oneToolCall (name : string) (args : json) (answer : string)
    (_ : nat) (req : ChatRequest) : Res HttpResponse :=
  if requestHasTools req then
    if (length (requestMessages req) <=? 2)%nat then httpOk (toolReply name args)
    else httpOk (textReply answer)
  else httpOk (textReply "").

(** The user declines every request. *)
Definition userDenies (_ : nat) (_ : Z) (_ : PermissionType) (_ _ : string)
    : Res (option (bool * PermissionScope)) :=
  Ok (Some (false, page)).

Definition deniedEnv : Env :=
  with_dialog userDenies
    (with_backend (oneToolCall "click_element" (JObj [("selector", JStr "#buy")])
                               "I could not click the button.")
                  silentEnv).


Definition clickCall : ToolCall :=
  {| tc_name := JStr "click_element"; tc_arguments := JObj [("selector", JStr "#buy")] |}.

Definition clickTool : PageTool :=
  {| pt_name := "click_element";
     pt_description := "Click a link or button by selector or text";
     pt_requiredPermission := page_action; pt_isWriteAction := true |}.

(** The world in which the dispatch of [clickCall] starts, and the one in
    which the user's refusal leaves it. *)
Definition clickStarted : World :=
  snd (addAuditEvent deniedEnv EventType.tool_call_start "openlens"
         (JObj [("tool", JStr "click_element");
                ("args", JObj [("selector", JStr "#buy")]);
                ("iteration", JNum 1)])
         None None local (startWorld ollama)).

Definition clickDenied : World :=
  snd (checkToolPermission engine_String engine_hostname deniedEnv (Tool clickTool)
         (JStr "click_element") 1 clickStarted).

Definition deniedText : string :=
  "{" +++ quoted "success" +++ ":false," +++ quoted "error" +++ ":"
  +++ quoted "Permission denied" +++ "}".

(** C1 at work: the user declines the click the backend asked for. *)
Lemma denied_tool_call_witness :
  let w := startWorld ollama in
  let w' := snd (toolCallStep engine_stringify engine_parse engine_String engine_hostname
                   deniedEnv 0 1 local clickCall [] w) in
  PAGE_TOOLS "click_element" = Some (Tool clickTool)
  /\ checkToolPermission engine_String engine_hostname deniedEnv (Tool clickTool)
       (JStr "click_element") 1 clickStarted = (Ok false, clickDenied)
  /\ engine_stringify (failure "Permission denied") = Some deniedText
  /\ executeToolCall engine_parse engine_String engine_hostname deniedEnv
       (JStr "click_element") (JObj [("selector", JStr "#buy")]) 1 clickStarted
     = (Ok (failure "Permission denied"), clickDenied)
  /\ (exists timestamp,
         dataEntries (sessionState w')
         = dataEntries (sessionState w)
           ++ [toolEntry engine_String (JStr "click_element") deniedText timestamp])
  /\ trace w' = trace clickDenied.
Proof.
  intros w w'.
  assert (H1 : PAGE_TOOLS "click_element" = Some (Tool clickTool)) by reflexivity.
  assert (H2 : checkToolPermission engine_String engine_hostname deniedEnv (Tool clickTool)
                 (JStr "click_element") 1 clickStarted = (Ok false, clickDenied))
    by (vm_compute; reflexivity).
  assert (H3 : engine_stringify (failure "Permission denied") = Some deniedText)
    by reflexivity.
  pose (T := proj2 (denied_tool_call_is_still_recorded engine_stringify engine_parse
                      engine_String engine_hostname deniedEnv 0 1 local clickCall [] w)
               (Tool clickTool) clickDenied deniedText H1 H2 H3).
  split; [exact H1|]. split; [exact H2|]. split; [exact H3|].
  split; [exact (proj1 T)|]. split; [exact (proj1 (proj2 T))|].
  exact (proj1 (proj2 (proj2 (proj2 T)))).
Defined.

(** C1 fails as stated: the user declines the one tool call of this run,
    no grant is stored and nothing is sent for the tool, and yet the ledger,
    empty at the start, ends with a data entry attributed to the tool. *)
Lemma denied_dispatch_adds_data_entry :
  let w' := snd (runToolCallLoop engine_stringify engine_parse engine_String engine_hostname
                   deniedEnv "Buy it" 1 (startWorld ollama)) in
  dataEntries (sessionState (startWorld ollama)) = []
  /\ map ae_type (auditEvents (sessionState w'))
     = [EventType.tool_call_start; EventType.permission_requested;
        EventType.permission_denied; EventType.tool_call_result; EventType.llm_prompt]
  /\ permissions w' = []
  /\ map (fun e => (de_dataType e, de_tokenCount e, de_sensitivity e))
         (dataEntries (sessionState w'))
     = [("tool:click_element", 12, low)].
Proof. vm_compute. repeat split. Qed.

(** ** The pre-read under a hosted backend *)

Definition inboxPage : json :=
  JObj [("success", JBool true);
        ("summary", JStr "Inbox (3 unread): payment reminder from the bank")].

(** The content script answers a page read with [inboxPage]. *)
Definition inboxTab (_ : nat) (_ : Z) (msg : TabMsg) : Res json :=
  match msg with
  | READ_PAGE _ => Ok inboxPage
  | _ => unreachable
  end.

Definition with_url (u : string) (e : Env) : Env :=
  {| clock := clock e; tabReply := tabReply e; dialogReply := dialogReply e;
     tabUrl := fun _ _ => Some (Some u); tabsCreate := tabsCreate e;
     httpReply := httpReply e; mcpReply := mcpReply e |}.

Definition cloudEnv : Env :=
  with_url "https://mail.example/inbox"
    (with_tab inboxTab
       (with_backend (fun _ _ => httpOk (textReply "You have three unread messages."))
                     silentEnv)).

(** C2, the failing run.  Under a hosted backend and with no grant stored,
    [runToolCallLoop] reads the page and sends its text to the backend;
    the permission guard is never called: no dialog is shown, no grant is
    stored, no permission event is recorded.  The read is recorded as a
    [read_page] call and as a data entry all the same. *)
Theorem runToolCallLoop_reads_page_without_permission :
  let w' := snd (runToolCallLoop engine_stringify engine_parse engine_String engine_hostname
                   cloudEnv "What is new?" 1 (startWorld openai)) in
  permissions (startWorld openai) = []
  /\ trace w'
     = [ SendToTab 1 (READ_PAGE (JNum 2000));
         TabsGet 1;
         ConsoleLog "[OpenLens] llmChat called, provider: openai model: demo-model tools: 0";
         Fetch (OpenAIChat "demo-model"
                  [ {| role := "system";
                       content :=
                         "You are a helpful browser AI assistant analyzing a web page. Answer the user's question directly and concisely using the page content below."
                         +++ newline +++ newline +++ "Page content:" +++ newline
                         +++ "Inbox (3 unread): payment reminder from the bank" |};
                    {| role := "user"; content := "What is new?" |} ]
                  1024) ]
  /\ permissions w' = []
  /\ map ae_type (auditEvents (sessionState w')) = [EventType.llm_prompt]
  /\ map tce_toolName (calls (toolCallState w')) = [JStr "read_page"]
  /\ map (fun e => (de_origin e, de_dataType e)) (dataEntries (sessionState w'))
     = [("mail.example", "page_content")]
  /\ finalAnswer (toolCallState w') = "You have three unread messages.".
Proof. vm_compute. repeat split. Qed.

(** ** Sensitivity of what the tool loop records *)

Definition passwordPage : json :=
  JObj [("success", JBool true);
        ("summary", JStr "Account settings: your password was changed yesterday")].

Definition passwordTab (_ : nat) (_ : Z) (msg : TabMsg) : Res json :=
  match msg with
  | READ_PAGE _ => Ok passwordPage
  | _ => unreachable
  end.

Definition passwordEnv : Env :=
  with_tab passwordTab
    (with_backend (oneToolCall "read_page" (JObj []) "Your password was changed.")
                  silentEnv).

(** C4 fails as stated: both entries of this run come from content that the
    pattern classifier rates [high], and both are recorded as [low]. *)
Lemma tool_loop_entries_are_low_whatever_the_content :
  let w' := snd (runToolCallLoop engine_stringify engine_parse engine_String engine_hostname
                   passwordEnv "Summarize" 1 (startWorld ollama)) in
  map (fun e => (de_dataType e, de_sensitivity e)) (dataEntries (sessionState w'))
  = [("page_content", low); ("tool:read_page", low)]
  /\ classifySensitivity "Account settings: your password was changed yesterday" = high
  /\ classifySensitivity (stringify_text engine_stringify passwordPage) = high.
Proof. vm_compute. repeat split. Qed.

(** ** The permission guard *)

(** C5 at work: a read under the local backend, nothing stored, nobody to
    ask. *)
Lemma ensurePermission_auto_grant_witness :
  noCoveringGrant silentEnv page_read "a.example" 1 (startWorld ollama)
  /\ fst (ensurePermission silentEnv 1 page_read "a.example" "Read the page" "low"
            (startWorld ollama)) = Ok true
  /\ trace (snd (ensurePermission silentEnv 1 page_read "a.example" "Read the page" "low"
                   (startWorld ollama))) = [].
Proof.
  assert (H : noCoveringGrant silentEnv page_read "a.example" 1 (startWorld ollama))
    by reflexivity.
  split; [exact H|].
  pose (T := ensurePermission_auto_grant_iff_local_read silentEnv 1 page_read "a.example"
               "Read the page" "low" (startWorld ollama) H).
  split; [exact (proj1 T)|exact (proj1 (proj2 T))].
Defined.

(** C6 at work: a page action under the local backend while the tab does
    not answer the dialog request. *)
Lemma ensurePermission_dialog_failure_witness :
  noCoveringGrant silentEnv page_action "a.example" 1 (startWorld ollama)
  /\ dialogReply silentEnv 0 1 page_action "Click" "medium" = unreachable
  /\ fst (ensurePermission silentEnv 1 page_action "a.example" "Click" "medium"
            (startWorld ollama)) = Ok true.
Proof.
  assert (H : noCoveringGrant silentEnv page_action "a.example" 1 (startWorld ollama))
    by reflexivity.
  split; [exact H|]. split; [reflexivity|].
  exact (proj1 (ensurePermission_dialog_failure silentEnv 1 page_action "a.example"
                  "Click" "medium" (startWorld ollama) _ H eq_refl eq_refl)).
Defined.

(** ** The gateway *)

Definition askForPage : list Message :=
  [ {| role := "system"; content := "You are a helpful browser AI assistant." |};
    {| role := "user"; content := "What does this page say?" |} ].

(** A backend that rejects requests with tools with the given status and
    answers those without by [answer]. *)
Definition rejectsTools (rejection : Z) (answer : string) (_ : nat) (req : ChatRequest)
    : Res HttpResponse :=
  if requestHasTools req
  then Ok {| status := rejection; body := Throw "SyntaxError: Unexpected token" |}
  else httpOk (textReply answer).

Definition noToolsEnv : Env :=
  with_backend (rejectsTools 400 ("Let me look. " +++ readPageCall)) silentEnv.

Definition notFoundEnv : Env :=
  with_backend (rejectsTools 404 ("Let me look. " +++ readPageCall)) silentEnv.

(** C7 at work: the turn rejected with status 400 is sent again without
    tools, and the call embedded in the second reply is the turn's tool
    call; the turn rejected with status 404 is thrown. *)
Lemma llmChat_retry_witness :
  getBuiltInToolSchemas <> []
  /\ fst (llmChat engine_stringify engine_parse noToolsEnv askForPage
            (Some getBuiltInToolSchemas) (startWorld ollama))
     = Ok {| cr_content := ""; cr_processingLocation := local;
             cr_toolCalls := Some [ {| tc_name := JStr "read_page";
                                       tc_arguments := JObj [] |} ] |}
  /\ fst (llmChat engine_stringify engine_parse notFoundEnv askForPage
            (Some getBuiltInToolSchemas) (startWorld ollama))
     = Throw "Error: Ollama error: 404".
Proof.
  assert (H : getBuiltInToolSchemas <> []) by discriminate.
  split; [exact H|]. split.
  - exact (proj2 (proj2
             (llmChat_retries_without_tools_on_400 engine_stringify engine_parse noToolsEnv
                askForPage getBuiltInToolSchemas (startWorld ollama)
                {| status := 400; body := Throw "SyntaxError: Unexpected token" |}
                eq_refl H eq_refl eq_refl))).
  - exact (proj2
             (llmChat_retries_without_tools_on_400 engine_stringify engine_parse notFoundEnv
                askForPage getBuiltInToolSchemas (startWorld ollama)
                {| status := 404; body := Throw "SyntaxError: Unexpected token" |}
                eq_refl H eq_refl eq_refl)).
Defined.

(** C7 fails as stated: 404 is a client error too, the request carried
    tools, and the gateway throws after the one request it made. *)
Lemma llmChat_does_not_retry_on_404 :
  let run := llmChat engine_stringify engine_parse notFoundEnv askForPage
               (Some getBuiltInToolSchemas) (startWorld ollama) in
  (400 <= 404 <= 499)
  /\ fst run = Throw "Error: Ollama error: 404"
  /\ trace (snd run)
     = [ ConsoleLog "[OpenLens] llmChat called, provider: ollama model: demo-model tools: 6";
         Fetch (OllamaChat "demo-model" askForPage (Some getBuiltInToolSchemas)) ].
Proof. vm_compute. repeat split; discriminate. Qed.

(** ** The cross-origin monitor *)

(** What the content script of a tab answers to a page read: the context
    of the page the tab shows. *)
Definition pageOf (url title : string) : json :=
  JObj [("success", JBool true);
        ("context", JObj [("title", JStr title); ("url", JStr url);
                          ("pageType", JStr "generic")])].

(** Tab 1 shows a page of [a.example], tab 2 a page of [b.example]. *)
Definition twoSitesTab (_ : nat) (tabId : Z) (msg : TabMsg) : Res json :=
  match msg with
  | READ_PAGE _ =>
    if tabId =? 1 then Ok (pageOf "https://a.example/inbox" "Inbox")
    else Ok (pageOf "https://b.example/account" "Account")
  | _ => unreachable
  end.

Definition twoSitesEnv : Env := with_tab twoSitesTab silentEnv.

Definition readStep (id : Z) : TaskStep :=
  {| step_id := id; step_title := "Read current page";
     step_description := "Extract and analyze the content of this page";
     step_tool := "read_page"; step_toolParams := JUndefined;
     step_requiredPermission := page_read; step_status := "pending";
     step_result := JUndefined; step_llmOutput := None;
     step_isWriteAction := false; step_tokens := 0; step_origin := None;
     step_sensitivity := None |}.

(** The plan as [CREATE_PLAN] stores it for a task started on the inbox
    page of [a.example]. *)
Definition twoReads : World :=
  set_currentPlan
    (Some {| plan_intent := "Compare my inbox with my account";
             plan_steps := [readStep 1; readStep 2];
             plan_status := "running";
             plan_pageContext :=
               Some {| pc_title := "Inbox"; pc_url := "https://a.example/inbox";
                       pc_pageType := "generic"; pc_tokenEstimate := 0 |} |})
    (startWorld ollama).

(** C3, the failing run.  A plan is made on a page of [a.example]; its
    first step is executed in that tab and its second step in a tab that
    shows a page of [b.example].  Both steps complete, and the second one
    has put the content of [b.example] into the context: data of two
    origins has merged.  Yet both steps, and both data entries, are
    attributed to [a.example], the origin of the page the plan was made on,
    so the monitor finds a single origin, the current one, and returns no
    warning. *)
Theorem detectCrossOrigin_misses_second_site :
  let w1 := snd (executeStep engine_stringify engine_parse engine_String engine_hostname
                   twoSitesEnv 0 1 twoReads) in
  let w2 := snd (executeStep engine_stringify engine_parse engine_String engine_hostname
                   twoSitesEnv 1 2 w1) in
  match currentPlan w2 with
  | Some plan =>
    map (fun s => (step_status s, field "url" (step_result s), step_origin s))
        (plan_steps plan)
    = [ ("completed", JStr "https://a.example/inbox", Some "a.example");
        ("completed", JStr "https://b.example/account", Some "a.example") ]
  | None => False
  end
  /\ map de_origin (dataEntries (sessionState w2)) = ["a.example"; "a.example"]
  /\ fst (detectCrossOrigin engine_hostname 1 w2) = Ok None.
Proof. vm_compute. repeat split. Qed.

(** The same run under the general fact: whatever steps are executed, in
    whatever tabs, the monitor has no second origin to find. *)
Example detectCrossOrigin_never_warns_on_two_sites :
  let w2 := afterSteps engine_stringify engine_parse engine_String engine_hostname
              twoSitesEnv [(0%nat, 1); (1%nat, 2)] twoReads in
  freshPlan twoReads
  /\ attributedToPlan engine_hostname w2
  /\ (fst (detectCrossOrigin engine_hostname 1 w2) = Ok None
      \/ fst (detectCrossOrigin engine_hostname 1 w2) = Throw "TypeError: Invalid URL").
Proof.
  assert (H : freshPlan twoReads) by (repeat constructor).
  split; [exact H|].
  exact (detectCrossOrigin_never_warns engine_stringify engine_parse engine_String
           engine_hostname twoSitesEnv [(0%nat, 1); (1%nat, 2)] 1%nat twoReads H).
Qed.

(** ** A backend that never stops asking for tools *)

Definition searchTab (_ : nat) (_ : Z) (msg : TabMsg) : Res json :=
  match msg with
  | FIND_ON_PAGE _ => Ok (JObj [("success", JBool true); ("matches", JArr [])])
  | _ => unreachable
  end.

Definition insistentEnv : Env :=
  with_tab searchTab
    (with_backend (fun _ req =>
                     if requestHasTools req
                     then httpOk (toolReply "find_on_page" (JObj [("query", JStr "price")]))
                     else httpOk (textReply ""))
                  silentEnv).

(** The task against [insistentEnv]: the tab gives no text to the
    pre-read, so the direct answer is not tried and the loop starts from
    [loopStart]. *)
Definition preRead : World :=
  snd (preReadPage engine_String engine_hostname insistentEnv 1
         (taskStarted (startWorld ollama))).

Definition loopStart : World := snd (broadcastToolUpdate preRead).

(** The world the five iterations against [insistentEnv] end in. *)
Definition exhaustedWorld : World :=
  match afterIterations engine_stringify engine_parse engine_String engine_hostname
          insistentEnv (offeredTools (startWorld ollama)) 1 local maxIterations 0
          (loopMessages "Find the price" "") loopStart with
  | Some w => w
  | None => startWorld ollama
  end.

(** C9 at work: five replies with a tool call each, and the task ends with
    the fixed answer. *)
Lemma runToolCallLoop_exhaustion_witness :
  let w := startWorld ollama in
  let w' := snd (runToolCallLoop engine_stringify engine_parse engine_String engine_hostname
                   insistentEnv "Find the price" 1 w) in
  preReadPage engine_String engine_hostname insistentEnv 1 (taskStarted w) = (Ok "", preRead)
  /\ tryDirectAnswer engine_stringify engine_parse insistentEnv "Find the price" "" local
       loopStart = (Ok false, loopStart)
  /\ continues engine_stringify engine_parse engine_String engine_hostname insistentEnv
       (offeredTools w) 1 local maxIterations 0 (loopMessages "Find the price" "")
       loopStart exhaustedWorld
  /\ toolCallState w'
     = {| running := false;
          calls := calls (toolCallState exhaustedWorld);
          finalAnswer := "(Reached maximum tool call iterations)";
          error := None |}
  /\ iterationsLogged (trace w') = (iterationsLogged (trace w) + maxIterations)%nat.
Proof.
  intros w w'.
  assert (H1 : preReadPage engine_String engine_hostname insistentEnv 1 (taskStarted w)
               = (Ok "", preRead)) by (vm_compute; reflexivity).
  assert (H2 : tryDirectAnswer engine_stringify engine_parse insistentEnv "Find the price"
                 "" local loopStart = (Ok false, loopStart)) by reflexivity.
  assert (H3 : continues engine_stringify engine_parse engine_String engine_hostname
                 insistentEnv (offeredTools w) 1 local maxIterations 0
                 (loopMessages "Find the price" "") loopStart exhaustedWorld).
  { apply continues_afterIterations. vm_compute. reflexivity. }
  pose (T := proj2 (proj2 (proj2 (proj2 (proj2
               (runToolCallLoop_terminates_within_cap engine_stringify engine_parse
                  engine_String engine_hostname insistentEnv "Find the price" 1 w)))))
               "" preRead loopStart exhaustedWorld H1 H2 H3).
  split; [exact H1|]. split; [exact H2|]. split; [exact H3|].
  split; [exact (proj1 (proj2 T))|exact (proj2 (proj2 T))].
Defined.

(** The same run as a whole: five iterations logged, five calls made, the
    fixed answer, no error. *)
Example runToolCallLoop_exhausts_after_five :
  let w' := snd (runToolCallLoop engine_stringify engine_parse engine_String engine_hostname
                   insistentEnv "Find the price" 1 (startWorld ollama)) in
  iterationsLogged (trace w') = 5%nat
  /\ length (calls (toolCallState w')) = 5%nat
  /\ finalAnswer (toolCallState w') = "(Reached maximum tool call iterations)"
  /\ running (toolCallState w') = false
  /\ error (toolCallState w') = None.
Proof. vm_compute. repeat split. Qed.

(** The parser on three replies: a call with nested braces after some
    prose, an object that is never closed, and no marker at all. *)
Example parseToolCall_examples :
  parseToolCall engine_parse ("Let me look. " +++ readPageCall +++ " Done.")
  = Some {| tc_name := JStr "read_page"; tc_arguments := JObj [] |}
  /\ parseToolCall engine_parse ("{" +++ quoted "tool" +++ ": {") = None
  /\ parseToolCall engine_parse "The page is about cats." = None.
Proof. vm_compute. repeat split. Qed.

(** ** The permission store at work *)

(** The store after one site-wide grant to read [shop.example], given in
    tab 1. *)
Definition siteGranted : World :=
  snd (grantPermission silentEnv page_read site "shop.example" 1 (startWorld ollama)).

Definition siteGrant : Permission :=
  newGrant page_read site "shop.example" 1 (clock silentEnv 0).

(** X1 at work: the grant is found by the check that follows it. *)
Lemma checkPermission_after_grant_witness :
  let w := startWorld ollama in
  let w1 := snd (grantPermission silentEnv page_read site "shop.example" 1 w) in
  clock silentEnv (clockReads w1) <= clock silentEnv (clockReads w) + 1800000
  /\ exists p,
       fst (checkPermission silentEnv page_read "shop.example" 1 w1) = Ok (Some p)
       /\ In p (permissions w1)
       /\ covers page_read "shop.example" 1 (clock silentEnv (clockReads w1)) p = true.
Proof.
  intros w w1.
  assert (H : clock silentEnv (clockReads w1) <= clock silentEnv (clockReads w) + 1800000)
    by (vm_compute; discriminate).
  split; [exact H|].
  exact (checkPermission_after_grant silentEnv page_read site "shop.example" 1 w
           (or_intror H)).
Defined.

(** X2 at work: a site grant given in tab 1 answers a request for the same
    origin from tab 2. *)
Lemma fresh_grant_reach_witness :
  find (covers page_read "shop.example" 2 (clock silentEnv (clockReads siteGranted)))
       (permissions (startWorld ollama)) = None
  /\ fst (checkPermission silentEnv page_read "shop.example" 2 siteGranted)
     = Ok (Some siteGrant).
Proof.
  split; [reflexivity|].
  exact (fresh_grant_reach silentEnv page_read site "shop.example" 1
           page_read "shop.example" 2 (startWorld ollama) eq_refl).
Defined.

(** X6 at work: a second grant on a store that holds one. *)
Lemma uniqueTriples_kept_witness :
  uniqueTriples (permissions siteGranted)
  /\ uniqueTriples
       (permissions (snd (grantPermission silentEnv page_read page "shop.example" 1
                            siteGranted))).
Proof.
  assert (H : uniqueTriples (permissions siteGranted)).
  { unfold uniqueTriples. vm_compute. constructor; [intros []|constructor]. }
  split; [exact H|].
  exact (proj1 (uniqueTriples_kept engine_stringify engine_parse engine_String
                  engine_hostname silentEnv siteGranted H)
           page_read page "shop.example" 1).
Defined.

(** X10 at work: the site grant of tab 1 answers the guard in tab 2, and
    nobody is asked. *)
Lemma ensurePermission_uses_stored_grant_witness :
  In siteGrant (permissions siteGranted)
  /\ expired (clock silentEnv (clockReads siteGranted)) siteGrant = false
  /\ reaches siteGrant "shop.example" 2 = true
  /\ ensurePermission silentEnv 2 page_read "shop.example" "Read the page" "low" siteGranted
     = (Ok true, tick siteGranted).
Proof.
  assert (Hin : In siteGrant (permissions siteGranted)) by (left; reflexivity).
  assert (Hlive : expired (clock silentEnv (clockReads siteGranted)) siteGrant = false)
    by reflexivity.
  assert (Hreach : reaches siteGrant "shop.example" 2 = true) by reflexivity.
  split; [exact Hin|]. split; [exact Hlive|]. split; [exact Hreach|].
  exact (ensurePermission_uses_stored_grant silentEnv 2 page_read "shop.example"
           "Read the page" "low" siteGranted siteGrant Hin eq_refl Hlive Hreach).
Defined.

(** The user approves every request, for the whole site. *)
Definition userApproves (_ : nat) (_ : Z) (_ : PermissionType) (_ _ : string)
    : Res (option (bool * PermissionScope)) :=
  Ok (Some (true, site)).

Definition approvingEnv : Env := with_dialog userApproves silentEnv.

(** X12 at work: the user declines a click. *)
Lemma ensurePermission_refusal_witness :
  let w := startWorld ollama in
  let w' := snd (ensurePermission deniedEnv 1 page_action "shop.example" "Click" "medium" w) in
  noCoveringGrant deniedEnv page_action "shop.example" 1 w
  /\ dialogReply deniedEnv (length (trace w)) 1 page_action "Click" "medium"
     = Ok (Some (false, page))
  /\ fst (ensurePermission deniedEnv 1 page_action "shop.example" "Click" "medium" w)
     = Ok false
  /\ permissions w' = permissions w.
Proof.
  intros w w'.
  assert (H : noCoveringGrant deniedEnv page_action "shop.example" 1 w) by reflexivity.
  split; [exact H|]. split; [reflexivity|].
  pose (T := ensurePermission_refusal_is_not_stored deniedEnv 1 page_action "shop.example"
               "Click" "medium" w (Some (false, page)) H eq_refl eq_refl I).
  split; [exact (proj1 T)|exact (proj1 (proj2 T))].
Defined.

(** X13 at work: the user approves a click for the site. *)
Lemma ensurePermission_approval_witness :
  let w := startWorld ollama in
  let w' := snd (ensurePermission approvingEnv 1 page_action "shop.example" "Click" "medium"
                   w) in
  noCoveringGrant approvingEnv page_action "shop.example" 1 w
  /\ dialogReply approvingEnv (length (trace w)) 1 page_action "Click" "medium"
     = Ok (Some (true, site))
  /\ fst (ensurePermission approvingEnv 1 page_action "shop.example" "Click" "medium" w)
     = Ok true
  /\ permissions w'
     = [newGrant page_action site "shop.example" 1 (clock approvingEnv 3)].
Proof.
  intros w w'.
  assert (H : noCoveringGrant approvingEnv page_action "shop.example" 1 w) by reflexivity.
  split; [exact H|]. split; [reflexivity|].
  pose (T := ensurePermission_approval_is_stored approvingEnv 1 page_action "shop.example"
               "Click" "medium" w site H eq_refl eq_refl).
  split; [exact (proj1 T)|exact (proj1 (proj2 T))].
Defined.

(** X14 at work: one automatic grant under the local backend opens every
    origin and every tab to reading. *)
Lemma auto_grant_is_session_wide_witness :
  let w := startWorld ollama in
  let w1 := snd (ensurePermission silentEnv 1 page_read "shop.example" "Read the page" "low"
                   w) in
  noCoveringGrant silentEnv page_read "shop.example" 1 w
  /\ clock silentEnv (clockReads w1) <= clock silentEnv (1 + clockReads w) + 1800000
  /\ ensurePermission silentEnv 7 page_read "bank.example" "Read the page" "low" w1
     = (Ok true, tick w1).
Proof.
  intros w w1.
  assert (H : noCoveringGrant silentEnv page_read "shop.example" 1 w) by reflexivity.
  assert (Hclock : clock silentEnv (clockReads w1)
                   <= clock silentEnv (1 + clockReads w) + 1800000)
    by (vm_compute; discriminate).
  split; [exact H|]. split; [exact Hclock|].
  exact (auto_grant_is_session_wide silentEnv 1 "shop.example" "Read the page" "low" w
           eq_refl H Hclock 7 "bank.example" "Read the page" "low").
Defined.

(** ** The event bus at work *)

(** X7 at work. *)
Lemma classifySensitivity_monotone_witness :
  includes "password" "{ field: password }" = true
  /\ (rank (classifySensitivity "password")
      <= rank (classifySensitivity "{ field: password }"))%nat.
Proof.
  split; [reflexivity|].
  exact (classifySensitivity_monotone "password" "{ field: password }" eq_refl).
Defined.

(** X8 at work: the session right after a reset is balanced, and stays so. *)
Lemma bus_stays_balanced_witness :
  balanced startSession
  /\ (forall now event,
        balanced (emitEvent engine_stringify engine_String now event startSession))
  /\ (forall origin, balanced (clearOrigin origin startSession)).
Proof.
  assert (H : balanced startSession) by (split; reflexivity).
  split; [exact H|].
  pose (T := bus_stays_balanced engine_stringify engine_String startSession H).
  split; [exact (proj1 (proj2 T))|exact (proj1 (proj2 (proj2 T)))].
Defined.

(** ** The MCP store and the dispatcher at work *)

Definition forecastTool : McpTool :=
  {| mcp_name := "get_forecast"; mcp_description := "Weather forecast for a city";
     mcp_serverName := "Weather"; mcp_properties := JObj []; mcp_required := [] |}.

Definition weatherServer (enabled : bool) : McpServer :=
  {| srv_id := "mcp_weather"; srv_name := "Weather"; srv_url := "https://weather.example/mcp";
     srv_enabled := enabled; srv_tools := [forecastTool] |}.

Definition storeWorld (servers : list McpServer) : World :=
  set_mcpServers servers (startWorld ollama).

(** X15 at work: the only server that lists the tool is disabled. *)
Lemma executeToolCall_unknown_tool_witness :
  let w := storeWorld [weatherServer false] in
  PAGE_TOOLS (to_str engine_String (JStr "get_forecast")) = None
  /\ executeToolCall engine_parse engine_String engine_hostname silentEnv
       (JStr "get_forecast") (JObj []) 1 w
     = (Ok (failure "Unknown tool: get_forecast"), w).
Proof.
  intros w. split; [reflexivity|].
  refine (executeToolCall_unknown_tool engine_parse engine_String engine_hostname silentEnv
            (JStr "get_forecast") (JObj []) 1 w eq_refl _).
  intros server [<-|[]] Henabled. discriminate Henabled.
Defined.

(** X16 at work: the call goes to the enabled server and to nothing
    else. *)
Lemma executeToolCall_mcp_witness :
  let w := storeWorld [weatherServer true] in
  let w' := snd (executeToolCall engine_parse engine_String engine_hostname silentEnv
                   (JStr "get_forecast") (JObj []) 1 w) in
  PAGE_TOOLS (to_str engine_String (JStr "get_forecast")) = None
  /\ permissions w' = permissions w
  /\ sessionState w' = sessionState w.
Proof.
  intros w w'. split; [reflexivity|].
  pose (T := executeToolCall_mcp engine_parse engine_String engine_hostname silentEnv
               (JStr "get_forecast") (JObj []) 1 w eq_refl).
  split; [exact (proj1 T)|exact (proj1 (proj2 T))].
Defined.

(** A server that lists a tool under the name of a built-in one. *)
Definition shadowServer : McpServer :=
  {| srv_id := "mcp_shadow"; srv_name := "Shadow"; srv_url := "https://shadow.example/mcp";
     srv_enabled := true;
     srv_tools := [ {| mcp_name := "click_element"; mcp_description := "Click";
                       mcp_serverName := "Shadow"; mcp_properties := JObj [];
                       mcp_required := [] |} ] |}.

(** X17 at work: the built-in [click_element] wins over the server's. *)
Lemma executeToolCall_builtin_shadows_mcp_witness :
  let w := storeWorld [shadowServer] in
  let w' := snd (executeToolCall engine_parse engine_String engine_hostname deniedEnv
                   (JStr "click_element") (JObj [("selector", JStr "#buy")]) 1 w) in
  PAGE_TOOLS (to_str engine_String (JStr "click_element")) = Some (Tool clickTool)
  /\ mcpServers w' = mcpServers w
  /\ (exists sent,
         trace w' = trace w ++ TabsGet 1 :: sent
         /\ (length sent <= 2)%nat
         /\ forallb (fun e => negb (isMcpCall e)) sent = true)
  /\ exists pushed,
       pushes w' = pushes w ++ pushed
       /\ Forall (fun p => p = STATE_UPDATE) pushed
       /\ (length pushed <= 2)%nat.
Proof.
  intros w w'. split; [reflexivity|].
  exact (executeToolCall_builtin_shadows_mcp engine_parse engine_String engine_hostname
           deniedEnv (JStr "click_element") (JObj [("selector", JStr "#buy")]) 1 w
           (Tool clickTool) eq_refl).
Defined.

(** A name that every object inherits is found in [PAGE_TOOLS] as well:
    the call of [constructor] takes the built-in branch.  The guard asks
    for a permission without a type, and once the user approves, the
    dispatcher has no command for the name; the server that lists a tool
    of that name is never called. *)
Definition inheritedServer : McpServer :=
  {| srv_id := "mcp_inherited"; srv_name := "Inherited";
     srv_url := "https://inherited.example/mcp"; srv_enabled := true;
     srv_tools := [ {| mcp_name := "constructor"; mcp_description := "Build";
                       mcp_serverName := "Inherited"; mcp_properties := JObj [];
                       mcp_required := [] |} ] |}.

Example inherited_name_takes_the_builtin_branch :
  let w := storeWorld [inheritedServer] in
  let run := executeToolCall engine_parse engine_String engine_hostname
               (with_dialog userApproves silentEnv) (JStr "constructor") (JObj []) 1 w in
  PAGE_TOOLS "constructor" = Some Inherited
  /\ fst run = Ok (failure "Unknown built-in tool: constructor")
  /\ trace (snd run)
     = [TabsGet 1;
        SendToTab 1 (SHOW_PERMISSION_DIALOG no_type
                       ("Tool " +++ quoted "constructor" +++ ": undefined") "low")].
Proof. vm_compute. repeat split. Qed.

(** X27 at work. *)
Lemma uniqueIds_kept_witness :
  let w := storeWorld [weatherServer true] in
  uniqueIds w
  /\ (forall server, uniqueIds (snd (saveMcpServer server w)))
  /\ (forall id, uniqueIds (snd (deleteMcpServer id w)))
  /\ (forall id, uniqueIds (snd (toggleMcpServer id w))).
Proof.
  intros w.
  assert (H : uniqueIds w) by (constructor; [intros []|constructor]).
  split; [exact H|]. exact (uniqueIds_kept w H).
Defined.

(** X28 at work: the weather server is switched off, and its forecast tool
    is gone. *)
Lemma toggled_off_tool_is_unknown_witness :
  let w := storeWorld [weatherServer true] in
  let w' := snd (toggleMcpServer "mcp_weather" w) in
  uniqueIds w
  /\ fst (toggleMcpServer "mcp_weather" w) = Ok (Toggled false)
  /\ executeToolCall engine_parse engine_String engine_hostname silentEnv
       (JStr "get_forecast") (JObj []) 1 w'
     = (Ok (failure "Unknown tool: get_forecast"), w').
Proof.
  intros w w'.
  assert (H : uniqueIds w) by (constructor; [intros []|constructor]).
  split; [exact H|]. split; [reflexivity|].
  refine (toggled_off_tool_is_unknown engine_parse engine_String engine_hostname silentEnv
            "mcp_weather" (JStr "get_forecast") (JObj []) 1 w H eq_refl _ eq_refl).
  intros s [<-|[]] _ _. reflexivity.
Defined.

(** ** A step the user refuses *)

Definition clickStep : TaskStep :=
  {| step_id := 1; step_title := "Click the button";
     step_description := "Click the buy button";
     step_tool := "click_element"; step_toolParams := JObj [("selector", JStr "#buy")];
     step_requiredPermission := page_action; step_status := "pending";
     step_result := JUndefined; step_llmOutput := None;
     step_isWriteAction := true; step_tokens := 0; step_origin := None;
     step_sensitivity := None |}.

Definition clickPlan : World :=
  set_currentPlan
    (Some {| plan_intent := "Buy it"; plan_steps := [clickStep]; plan_status := "running";
             plan_pageContext :=
               Some {| pc_title := "Cart"; pc_url := "https://shop.example/cart";
                       pc_pageType := "generic"; pc_tokenEstimate := 0 |} |})
    (startWorld ollama).

Definition refusedStep : TaskStep :=
  with_llmOutput "(Permission denied by user)" (with_status "skipped" clickStep).

(** X22 at work: the user declines the click of step 0; the step is
    skipped and only the dialog was shown. *)
Lemma executeStep_skipped_step_witness :
  let run := executeStep engine_stringify engine_parse engine_String engine_hostname
               deniedEnv 0 1 clickPlan in
  fst run = Ok (Some refusedStep)
  /\ step_status refusedStep = "skipped"
  /\ dataEntries (sessionState (snd run)) = dataEntries (sessionState clickPlan)
  /\ (exists sent,
         trace (snd run) = trace clickPlan ++ sent
         /\ Forall (isDialog 1) sent /\ (length sent <= 2)%nat)
  /\ exists pushed events,
       pushes (snd run) = pushes clickPlan ++ pushed
       /\ Forall (fun p => p = STATE_UPDATE) pushed
       /\ auditEvents (sessionState (snd run))
          = auditEvents (sessionState clickPlan) ++ events
       /\ length pushed = length events.
Proof.
  intros run.
  assert (H : fst run = Ok (Some refusedStep)) by (vm_compute; reflexivity).
  split; [exact H|]. split; [reflexivity|].
  exact (proj2 (executeStep_skipped_step_ran_nothing engine_stringify engine_parse
                  engine_String engine_hostname deniedEnv 0 1 clickPlan refusedStep
                  H eq_refl)).
Defined.
